(** * BackroomsPygame: a shallow embedding of [main.py]

    The development follows the source file class by class: [Room],
    [Entity], [Player], [BackroomsGenerator] and the visibility part of
    [Game].  Rendering, input and the ping timer are not modelled.

    Conventions.
    - Python exceptions are values of [outcome]: [Raise IndexError] for a
      list index out of range, [Raise ValueError] for [random.randint] on an
      empty range.  [OutOfFuel] is the result of a [while] loop that has not
      finished within the iteration budget given to its embedding.
    - The module [random] is a stream of integers read through a cursor;
      each library call consumes one element.  Quantifying over the stream
      quantifies over every outcome of the random source.
    - Positions, headings and stamina are Python floats.  They are modelled
      by exact rationals ([Q]): the properties proved about them only depend
      on comparisons and on the control flow.  Exploration strengths are
      kept as IEEE binary64 values ([float]), because the decay law is a
      statement about the exact values the subtraction produces.
    - [math.pi], [math.cos] and [math.sin] are an interface ([MathLib]). *)

From Stdlib Require Import ZArith QArith Qround Floats Lia List Bool.
From stdpp Require Import gmap list.

Open Scope Z_scope.

(** ** Outcomes of Python code *)

Inductive exn : Type := IndexError | ValueError.

Inductive outcome (A : Type) : Type :=
| Ok (a : A)
| Raise (e : exn)
| OutOfFuel.

Arguments Ok {A} a.
Arguments Raise {A} e.
Arguments OutOfFuel {A}.

#[global] Instance outcome_ret : MRet outcome := @Ok.

#[global] Instance outcome_bind : MBind outcome :=
  fun A B (f : A -> outcome B) (o : outcome A) =>
    match o with
    | Ok a => f a
    | Raise e => Raise e
    | OutOfFuel => OutOfFuel
    end.

(** [l[i]] for a Python list: negative indices count from the end. *)
Definition py_index {A : Type} (l : list A) (i : Z) : outcome A :=
  let n := Z.of_nat (length l) in
  let j := if i <? 0 then i + n else i in
  if (0 <=? j) && (j <? n) then
    match l !! Z.to_nat j with
    | Some a => Ok a
    | None => Raise IndexError
    end
  else Raise IndexError.

(** [l[i] = a] for a Python list. *)
Definition py_assign {A : Type} (l : list A) (i : Z) (a : A) : outcome (list A) :=
  let n := Z.of_nat (length l) in
  let j := if i <? 0 then i + n else i in
  if (0 <=? j) && (j <? n) then Ok (<[Z.to_nat j := a]> l)
  else Raise IndexError.

(** [range(a, b)] and [range(a, b, step)] for a positive step. *)
Definition py_range (a b : Z) : list Z := seqZ a (b - a).

Definition py_range_step (a b step : Z) : list Z :=
  (fun i => a + i * step) <$> seqZ 0 ((b - a + step - 1) / step).

(** [int(x)] on a float truncates toward zero. *)
Definition py_int (x : Q) : Z :=
  if Qle_bool 0 x then Qfloor x else Qceiling x.

(** [max(a, b)] and [min(a, b)] return their first argument unless the
    second is strictly beyond it. *)
Definition py_max (a b : Q) : Q := if Qle_bool b a then a else b.
Definition py_min (a b : Q) : Q := if Qle_bool a b then a else b.

Definition Qlt_bool (a b : Q) : bool := negb (Qle_bool b a).

(** ** The random source *)

Record Random : Type := { draws : nat -> Z; cursor : nat }.

Definition next_draw (r : Random) : Z * Random :=
  (draws r (cursor r), {| draws := draws r; cursor := S (cursor r) |}).

(** [random.randint(a, b)]: an integer of [a..b], [ValueError] on an empty
    range. *)
Definition randint (a b : Z) (r : Random) : outcome (Z * Random) :=
  if b <? a then Raise ValueError
  else let '(v, r') := next_draw r in Ok (a + v mod (b - a + 1), r').

(** [random.random()]: a multiple of [2^-53] in [[0, 1)]. *)
Definition random (r : Random) : Q * Random :=
  let '(v, r') := next_draw r in
  (Qmake (v mod 9007199254740992) 9007199254740992, r').

(** [random.uniform(a, b)] is [a + (b - a) * random()]. *)
Definition uniform (a b : Q) (r : Random) : Q * Random :=
  let '(u, r') := random r in ((a + (b - a) * u)%Q, r').

(** [random.choice(seq)]: [IndexError] on an empty sequence. *)
Definition choice {A : Type} (l : list A) (r : Random) : outcome (A * Random) :=
  match l with
  | [] => Raise IndexError
  | _ =>
      let '(v, r') := next_draw r in
      a ← py_index l (v mod Z.of_nat (length l)); Ok (a, r')
  end.

(** ** The [math] module *)

Class MathLib : Type := {
  math_pi : Q;
  math_cos : Q -> Q;
  math_sin : Q -> Q
}.

(** [math.radians(a)] *)
Definition math_radians `{MathLib} (a : Q) : Q := (a * (math_pi / 180))%Q.

(** ** Constants *)

Definition SCREEN_WIDTH : Z := 1920.
Definition SCREEN_HEIGHT : Z := 1080.
Definition TILE_SIZE : Z := 20.
Definition GRID_WIDTH : Z := SCREEN_WIDTH / TILE_SIZE.
Definition GRID_HEIGHT : Z := SCREEN_HEIGHT / TILE_SIZE.

Definition FADE_TIME : Z := 300.
Definition FADE_RATE : float := (1 / 300)%float.

Definition MAX_STAMINA : Q := 100.
Definition STAMINA_DRAIN_RATE : Q := 1.5.
Definition STAMINA_REGEN_RATE : Q := 0.8.
Definition SPRINT_MULTIPLIER : Q := 2.

Definition PLAYER_SPEED : Z := 2.
Definition FLASHLIGHT_RANGE : Z := 80.
Definition FLASHLIGHT_ANGLE : Z := 60.

(** ** Tiles, room types, levels *)

Inductive TileType : Type :=
| EMPTY | WALL | FLOOR | DOOR | EXIT | VENT | WATER_DAMAGE | ELECTRICAL
| STAIRWELL | ELEVATOR | LEVEL_EXIT | POOL | POOL_EDGE.

#[global] Instance TileType_eq_dec : EqDecision TileType.
Proof. solve_decision. Defined.

Inductive RoomType : Type :=
| OFFICE_SPACE | LONG_HALLWAY | CONFERENCE_ROOM | STORAGE_ROOM
| ELECTRICAL_ROOM | FLOODED_AREA | MAINTENANCE | LOBBY | CAFETERIA
| BATHROOM | SERVER_ROOM | ABANDONED_OFFICE
| POOL_AREA | POOL_CORRIDOR | POOL_CHANGING.

#[global] Instance RoomType_eq_dec : EqDecision RoomType.
Proof. solve_decision. Defined.

(** [list(RoomType)], in definition order. *)
Definition all_room_types : list RoomType :=
  [OFFICE_SPACE; LONG_HALLWAY; CONFERENCE_ROOM; STORAGE_ROOM;
   ELECTRICAL_ROOM; FLOODED_AREA; MAINTENANCE; LOBBY; CAFETERIA;
   BATHROOM; SERVER_ROOM; ABANDONED_OFFICE;
   POOL_AREA; POOL_CORRIDOR; POOL_CHANGING].

Inductive LevelType : Type := LEVEL_0 | POOLROOMS.

#[global] Instance LevelType_eq_dec : EqDecision LevelType.
Proof. solve_decision. Defined.

(** The level map is a list of rows; a grid cell is [(x, y)]. *)
Abbreviation LevelMap := (list (list TileType)).
Abbreviation cell := (Z * Z)%type.

(** [0 <= gx < len(level_map[0]) and 0 <= gy < len(level_map)], evaluated
    left to right with Python's short circuit. *)
Definition in_bounds (gx gy : Z) (m : LevelMap) : outcome bool :=
  if 0 <=? gx then
    row0 ← py_index m 0;
    if gx <? Z.of_nat (length row0) then
      Ok ((0 <=? gy) && (gy <? Z.of_nat (length m)))
    else Ok false
  else Ok false.

(** [level_map[gy][gx]] *)
Definition tile_at (m : LevelMap) (gx gy : Z) : outcome TileType :=
  row ← py_index m gy; py_index row gx.

(** The grid cell of a position in length units: [int(v // TILE_SIZE)]. *)
Definition grid_of (v : Q) : Z := Qfloor (v / inject_Z TILE_SIZE).

(** The body shared, word for word, by [Player._can_move_to] and
    [Entity._can_move_to]: the [for] loop over the probe points. *)
Fixpoint probes_clear (positions_to_check : list (Q * Q)) (m : LevelMap)
  : outcome bool :=
  match positions_to_check with
  | [] => Ok true
  | (check_x, check_y) :: rest =>
      let grid_x := grid_of check_x in
      let grid_y := grid_of check_y in
      inb ← in_bounds grid_x grid_y m;
      if negb inb then Ok false
      else
        tile_type ← tile_at m grid_x grid_y;
        if bool_decide (tile_type = WALL) || bool_decide (tile_type = POOL_EDGE)
        then Ok false
        else probes_clear rest m
  end.

(** The four corners of the square footprint and its centre. *)
Definition footprint (size x y : Q) : list (Q * Q) :=
  [ (x - size, y - size); (x + size, y - size);
    (x - size, y + size); (x + size, y + size); (x, y) ]%Q.

(** ** Room *)

Module Room.

Record t : Type := {
  x : Z;
  y : Z;
  width : Z;
  height : Z;
  room_type : RoomType;
  is_lit : bool;
  connections : list (Z * Z)
}.

#[global] Instance eq_dec : EqDecision t.
Proof. solve_decision. Defined.

Definition center (self : t) : Z * Z :=
  (x self + width self / 2, y self + height self / 2).

Definition overlaps (self other : t) : bool :=
  negb ((x self + width self <=? x other)
        || (x other + width other <=? x self)
        || (y self + height self <=? y other)
        || (y other + height other <=? y self)).

End Room.

(** ** Player *)

Module Player.

Record t : Type := {
  x : Q;
  y : Q;
  angle : Q;
  has_flashlight : bool;
  stamina : Q;
  is_sprinting : bool;
  can_sprint : bool
}.

Definition init (x0 y0 : Q) : t :=
  {| x := x0; y := y0; angle := 0; has_flashlight := true;
     stamina := MAX_STAMINA; is_sprinting := false; can_sprint := true |}.

Definition _can_move_to (x y : Q) (m : LevelMap) : outcome bool :=
  let player_size := 8%Q in
  probes_clear (footprint player_size x y) m.

Definition move (self : t) (dx dy : Q) (m : LevelMap) (is_sprint_pressed : bool)
  : outcome t :=
  let self_can_sprint :=
    if Qle_bool (stamina self) 0 then false
    else if Qle_bool MAX_STAMINA (stamina self) then true
    else can_sprint self in
  let can_sprint_now :=
    self_can_sprint && is_sprint_pressed
    && (negb (Qeq_bool dx 0) || negb (Qeq_bool dy 0)) in
  let '(sprinting, stamina', speed_multiplier) :=
    if can_sprint_now then
      (true, py_max 0 (stamina self - STAMINA_DRAIN_RATE), SPRINT_MULTIPLIER)
    else
      (false,
       if Qlt_bool (stamina self) MAX_STAMINA
       then py_min MAX_STAMINA (stamina self + STAMINA_REGEN_RATE)
       else stamina self,
       1%Q) in
  let dx := (dx * speed_multiplier)%Q in
  let dy := (dy * speed_multiplier)%Q in
  let new_x := (x self + dx)%Q in
  okx ← _can_move_to new_x (y self) m;
  let x' := if (okx : bool) then new_x else x self in
  let new_y := (y self + dy)%Q in
  oky ← _can_move_to x' new_y m;
  let y' := if (oky : bool) then new_y else y self in
  Ok {| x := x'; y := y'; angle := angle self;
        has_flashlight := has_flashlight self;
        stamina := stamina'; is_sprinting := sprinting;
        can_sprint := self_can_sprint |}.

(** The states a player goes through: built by [Player(x, y)], then moved
    tick after tick. *)
Inductive reachable (m : LevelMap) : t -> Prop :=
| reach_init x0 y0 : reachable m (init x0 y0)
| reach_move p dx dy pressed p' :
    reachable m p -> move p dx dy m pressed = Ok p' -> reachable m p'.

End Player.

(** ** Entity *)

Module Entity.

Record t : Type := {
  x : Q;
  y : Q;
  visible : bool;
  visibility_timer : Z;
  spawn_timer : Z;
  angle : Q;
  last_player_x : Q;
  last_player_y : Q;
  move_timer : Z;
  target_angle : Q
}.

Definition init (r : Random) : outcome (t * Random) :=
  '(timer, r) ← randint 1800 3600 r;
  Ok ({| x := 0; y := 0; visible := false; visibility_timer := 0;
         spawn_timer := timer; angle := 0;
         last_player_x := 0; last_player_y := 0;
         move_timer := 0; target_angle := 0 |}, r).

Definition _can_move_to (x y : Q) (m : LevelMap) : outcome bool :=
  let entity_size := 8%Q in
  probes_clear (footprint entity_size x y) m.

Section WithMath.
Context `{MathLib}.

(** The loop [while attempts < 20 and not spawned] of [update], with
    [n] attempts left; it returns the accepted spawn position, if any. *)
Fixpoint spawn_loop (n : nat) (player_x player_y : Q) (visible_tiles : gset cell)
  (m : LevelMap) (r : Random) : outcome (option (Q * Q) * Random) :=
  match n with
  | O => Ok (None, r)
  | S n' =>
      '(distance, r) ← randint 120 180 r;
      let '(angle, r) := uniform 0 (2 * math_pi) r in
      let spawn_x := (player_x + math_cos angle * inject_Z distance)%Q in
      let spawn_y := (player_y + math_sin angle * inject_Z distance)%Q in
      let spawn_grid_x := grid_of spawn_x in
      let spawn_grid_y := grid_of spawn_y in
      inb ← in_bounds spawn_grid_x spawn_grid_y m;
      on_floor ← (if (inb : bool)
                  then tile ← tile_at m spawn_grid_x spawn_grid_y;
                       Ok (bool_decide (tile = FLOOR))
                  else Ok false);
      if (on_floor : bool)
         && negb (bool_decide ((spawn_grid_x, spawn_grid_y) ∈ visible_tiles))
      then Ok (Some (spawn_x, spawn_y), r)
      else spawn_loop n' player_x player_y visible_tiles m r
  end.

(** The block [if self.spawn_timer <= 0 and not self.visible] of [update]. *)
Definition try_spawn (self : t) (player_x player_y : Q)
  (visible_tiles : gset cell) (m : LevelMap) (r : Random) : outcome (t * Random) :=
  '(spawned, r) ← spawn_loop 20 player_x player_y visible_tiles m r;
  match spawned with
  | Some (spawn_x, spawn_y) =>
      let '(a, r) := uniform 0 360 r in
      '(visible_for, r) ← randint 120 300 r;
      '(next_spawn, r) ← randint 1200 2400 r;
      Ok ({| x := spawn_x; y := spawn_y; visible := true;
             visibility_timer := visible_for; spawn_timer := next_spawn;
             angle := a; last_player_x := player_x; last_player_y := player_y;
             move_timer := 0; target_angle := a |}, r)
  | None =>
      Ok ({| x := x self; y := y self; visible := visible self;
             visibility_timer := visibility_timer self; spawn_timer := 60;
             angle := angle self; last_player_x := last_player_x self;
             last_player_y := last_player_y self;
             move_timer := move_timer self;
             target_angle := target_angle self |}, r)
  end.

(** The block [if self.visible] of [update]. *)
Definition wander (self : t) (m : LevelMap) (r : Random) : outcome (t * Random) :=
  let visibility_timer' := visibility_timer self - 1 in
  let move_timer' := move_timer self + 1 in
  let '(target, r) :=
    if move_timer' mod 60 =? 0 then uniform 0 360 r
    else (target_angle self, r) in
  let angle_diff := (target - angle self)%Q in
  let angle_diff :=
    if Qlt_bool 180 angle_diff then (angle_diff - 360)%Q
    else if Qlt_bool angle_diff (-180) then (angle_diff + 360)%Q
    else angle_diff in
  let angle' := (angle self + angle_diff * 0.1)%Q in
  let move_speed := 1%Q in
  let dx := (math_cos (math_radians angle') * move_speed)%Q in
  let dy := (math_sin (math_radians angle') * move_speed)%Q in
  let new_x := (x self + dx)%Q in
  let new_y := (y self + dy)%Q in
  ok ← _can_move_to new_x new_y m;
  let '(x', y', target, r) :=
    if (ok : bool) then (new_x, new_y, target, r)
    else let '(t', r) := uniform 0 360 r in (x self, y self, t', r) in
  Ok ({| x := x'; y := y';
         visible := if visibility_timer' <=? 0 then false else visible self;
         visibility_timer := visibility_timer'; spawn_timer := spawn_timer self;
         angle := angle'; last_player_x := last_player_x self;
         last_player_y := last_player_y self;
         move_timer := move_timer'; target_angle := target |}, r).

Definition update (self : t) (player_x player_y : Q) (level_type : LevelType)
  (visible_tiles : gset cell) (m : LevelMap) (r : Random) : outcome (t * Random) :=
  if bool_decide (level_type <> LEVEL_0) then
    Ok ({| x := x self; y := y self; visible := false;
           visibility_timer := visibility_timer self;
           spawn_timer := spawn_timer self; angle := angle self;
           last_player_x := last_player_x self;
           last_player_y := last_player_y self;
           move_timer := move_timer self;
           target_angle := target_angle self |}, r)
  else
    let self :=
      {| x := x self; y := y self; visible := visible self;
         visibility_timer := visibility_timer self;
         spawn_timer := spawn_timer self - 1; angle := angle self;
         last_player_x := last_player_x self;
         last_player_y := last_player_y self;
         move_timer := move_timer self;
         target_angle := target_angle self |} in
    '(self, r) ← (if (spawn_timer self <=? 0) && negb (visible self)
                  then try_spawn self player_x player_y visible_tiles m r
                  else Ok (self, r));
    if visible self then wander self m r else Ok (self, r).

End WithMath.

End Entity.

(** A [for] loop whose body may raise. *)
Fixpoint for_each {A S : Type} (l : list A) (body : S -> A -> outcome S) (s : S)
  : outcome S :=
  match l with
  | [] => Ok s
  | a :: l' => s' ← body s a; for_each l' body s'
  end.

(** ** BackroomsGenerator *)

(** The binary64 values of the literals [0.3] and [0.7]. *)
Definition LIT_CHANCE_LEVEL_0 : Q := 5404319552844595 # 18014398509481984.
Definition LIT_CHANCE_POOLROOMS : Q := 6305039478318694 # 9007199254740992.

Module BackroomsGenerator.

Record t : Type := {
  width : Z;
  height : Z;
  level_type : LevelType;
  grid : LevelMap;
  rooms : list Room.t
}.

Definition init (width height : Z) (level_type : LevelType) : t :=
  {| width := width; height := height; level_type := level_type;
     grid := replicate (Z.to_nat height) (replicate (Z.to_nat width) WALL);
     rooms := [] |}.

Definition set_grid (self : t) (g : LevelMap) : t :=
  {| width := width self; height := height self;
     level_type := level_type self; grid := g; rooms := rooms self |}.

Definition set_rooms (self : t) (rs : list Room.t) : t :=
  {| width := width self; height := height self;
     level_type := level_type self; grid := grid self; rooms := rs |}.

(** [self.grid[y][x] = tile] *)
Definition paint (self : t) (x y : Z) (tile : TileType) : outcome t :=
  row ← py_index (grid self) y;
  row' ← py_assign row x tile;
  g' ← py_assign (grid self) y row';
  Ok (set_grid self g').

(** [0 <= x < self.width and 0 <= y < self.height] *)
Definition inside (self : t) (x y : Z) : bool :=
  (0 <=? x) && (x <? width self) && (0 <=? y) && (y <? height self).

Definition size_ranges (room_type : RoomType) : Z * Z * Z * Z :=
  match room_type with
  | OFFICE_SPACE => (8, 16, 6, 12)
  | LONG_HALLWAY => (20, 40, 3, 6)
  | CONFERENCE_ROOM => (10, 16, 8, 14)
  | STORAGE_ROOM => (4, 8, 4, 8)
  | ELECTRICAL_ROOM => (5, 8, 5, 8)
  | FLOODED_AREA => (8, 14, 8, 14)
  | MAINTENANCE => (6, 10, 4, 8)
  | LOBBY => (12, 20, 10, 16)
  | CAFETERIA => (12, 18, 8, 14)
  | BATHROOM => (4, 8, 6, 10)
  | SERVER_ROOM => (6, 10, 6, 10)
  | ABANDONED_OFFICE => (6, 12, 6, 12)
  | POOL_AREA => (15, 25, 10, 20)
  | POOL_CORRIDOR => (25, 45, 4, 8)
  | POOL_CHANGING => (8, 12, 6, 10)
  end.

Definition _get_room_size (room_type : RoomType) (r : Random)
  : outcome (Z * Z * Random) :=
  let '(min_w, max_w, min_h, max_h) := size_ranges room_type in
  '(w, r) ← randint min_w max_w r;
  '(h, r) ← randint min_h max_h r;
  Ok (w, h, r).

Definition _carve_room (self : t) (room : Room.t) : outcome t :=
  for_each (py_range (Room.y room) (Room.y room + Room.height room))
    (fun self y =>
       for_each (py_range (Room.x room) (Room.x room + Room.width room))
         (fun self x =>
            if inside self x y then paint self x y FLOOR else Ok self)
         self)
    self.

Definition is_pool_type (room_type : RoomType) : bool :=
  bool_decide (room_type ∈ [POOL_AREA; POOL_CORRIDOR; POOL_CHANGING]).

(** What follows the choice of the room type in the loops of
    [_generate_rooms] and [_generate_pool_rooms]: one placement attempt. *)
Definition place_room (self : t) (room_type : RoomType) (lit_chance : Q)
  (r : Random) : outcome (t * Random) :=
  '(w, h, r) ← _get_room_size room_type r;
  '(x, r) ← randint 1 (width self - w - 1) r;
  '(y, r) ← randint 1 (height self - h - 1) r;
  let '(u, r) := random r in
  let is_lit := Qlt_bool u lit_chance in
  let new_room :=
    {| Room.x := x; Room.y := y; Room.width := w; Room.height := h;
       Room.room_type := room_type; Room.is_lit := is_lit;
       Room.connections := [] |} in
  if negb (existsb (Room.overlaps new_room) (rooms self)) then
    self ← _carve_room (set_rooms self (rooms self ++ [new_room])) new_room;
    Ok (self, r)
  else Ok (self, r).

(** [while len(self.rooms) < 20 and attempts < 150]; the loop returns the
    final value of its counter [attempts] with the state. *)
Fixpoint _generate_rooms_loop (fuel : nat) (attempts : Z) (self : t) (r : Random)
  : outcome (Z * t * Random) :=
  match fuel with
  | O => OutOfFuel
  | S fuel' =>
      if (Z.of_nat (length (rooms self)) <? 20) && (attempts <? 150) then
        '(room_type, r) ← choice all_room_types r;
        if is_pool_type room_type then
          _generate_rooms_loop fuel' attempts self r
        else
          '(self, r) ← place_room self room_type LIT_CHANCE_LEVEL_0 r;
          _generate_rooms_loop fuel' (attempts + 1) self r
      else Ok (attempts, self, r)
  end.

Definition _generate_rooms (fuel : nat) (self : t) (r : Random)
  : outcome (t * Random) :=
  '(_, self, r) ← _generate_rooms_loop fuel 0 self r; Ok (self, r).

(** [while len(self.rooms) < 15 and attempts < 150] *)
Fixpoint _generate_pool_rooms_loop (fuel : nat) (attempts : Z) (self : t)
  (r : Random) : outcome (Z * t * Random) :=
  match fuel with
  | O => OutOfFuel
  | S fuel' =>
      if (Z.of_nat (length (rooms self)) <? 15) && (attempts <? 150) then
        '(room_type, r) ← choice [POOL_AREA; POOL_CORRIDOR; POOL_CHANGING] r;
        '(self, r) ← place_room self room_type LIT_CHANCE_POOLROOMS r;
        _generate_pool_rooms_loop fuel' (attempts + 1) self r
      else Ok (attempts, self, r)
  end.

Definition _generate_pool_rooms (fuel : nat) (self : t) (r : Random)
  : outcome (t * Random) :=
  '(_, self, r) ← _generate_pool_rooms_loop fuel 0 self r; Ok (self, r).

(** One straight run of a corridor: [for x in range(lo, hi + 1)] along the
    row [y], or [for y in range(lo, hi + 1)] along the column [x]. *)
Definition carve_row (self : t) (xa xb y : Z) : outcome t :=
  for_each (py_range (Z.min xa xb) (Z.max xa xb + 1))
    (fun self x => if inside self x y then paint self x y FLOOR else Ok self)
    self.

Definition carve_column (self : t) (x ya yb : Z) : outcome t :=
  for_each (py_range (Z.min ya yb) (Z.max ya yb + 1))
    (fun self y => if inside self x y then paint self x y FLOOR else Ok self)
    self.

Definition _create_corridor (self : t) (start finish : Z * Z) (r : Random)
  : outcome (t * Random) :=
  let '(x1, y1) := start in
  let '(x2, y2) := finish in
  '(horizontal_first, r) ← choice [true; false] r;
  if (horizontal_first : bool) then
    self ← carve_row self x1 x2 y1;
    self ← carve_column self x2 y1 y2;
    Ok (self, r)
  else
    self ← carve_column self x1 y1 y2;
    self ← carve_row self x1 x2 y2;
    Ok (self, r).

(** [while unconnected], the sets kept as lists of room indices. *)
Fixpoint connect_loop (fuel : nat) (connected unconnected : list Z) (self : t)
  (r : Random) : outcome (t * Random) :=
  match unconnected with
  | [] => Ok (self, r)
  | _ =>
      match fuel with
      | O => OutOfFuel
      | S fuel' =>
          '(room_a_idx, r) ← choice connected r;
          '(room_b_idx, r) ← choice unconnected r;
          room_a ← py_index (rooms self) room_a_idx;
          room_b ← py_index (rooms self) room_b_idx;
          '(self, r) ← _create_corridor self (Room.center room_a)
                         (Room.center room_b) r;
          connect_loop fuel' (connected ++ [room_b_idx])
            (filter (fun i => i <> room_b_idx) unconnected) self r
      end
  end.

(** The extra connections: [for _ in range(len(self.rooms) // 3)]. *)
Definition extra_corridors (self : t) (r : Random) : outcome (t * Random) :=
  for_each (py_range 0 (Z.of_nat (length (rooms self)) / 3))
    (fun '(self, r) _ =>
       '(room_a, r) ← choice (rooms self) r;
       '(room_b, r) ← choice (rooms self) r;
       if bool_decide (room_a <> room_b) then
         _create_corridor self (Room.center room_a) (Room.center room_b) r
       else Ok (self, r))
    (self, r).

Definition _connect_rooms (self : t) (r : Random) : outcome (t * Random) :=
  let n := Z.of_nat (length (rooms self)) in
  if n <? 2 then Ok (self, r)
  else
    '(self, r) ← connect_loop (length (rooms self)) [0] (py_range 1 n) self r;
    extra_corridors self r.

(** [for _ in range(random.randint(lo, hi))]: overwrite random interior
    cells of the room that are still floor with [tile]. *)
Definition scatter (self : t) (room : Room.t) (lo hi : Z) (tile : TileType)
  (r : Random) : outcome (t * Random) :=
  '(count, r) ← randint lo hi r;
  for_each (py_range 0 count)
    (fun '(self, r) _ =>
       '(x, r) ← randint (Room.x room + 1) (Room.x room + Room.width room - 2) r;
       '(y, r) ← randint (Room.y room + 1) (Room.y room + Room.height room - 2) r;
       old ← tile_at (grid self) x y;
       if bool_decide (old = FLOOR) then
         self ← paint self x y tile; Ok (self, r)
       else Ok (self, r))
    (self, r).

Definition _add_features_by_type (self : t) (room : Room.t) (r : Random)
  : outcome (t * Random) :=
  let '(cx, cy) := Room.center room in
  match Room.room_type room with
  | STORAGE_ROOM => scatter self room 1 3 EXIT r
  | ELECTRICAL_ROOM => scatter self room 2 4 ELECTRICAL r
  | FLOODED_AREA =>
      let water_width := Z.max 2 (Room.width room / 2) in
      let water_height := Z.max 2 (Room.height room / 2) in
      let start_x := cx - water_width / 2 in
      let start_y := cy - water_height / 2 in
      self ← for_each (py_range start_y (start_y + water_height))
        (fun self y =>
           for_each (py_range start_x (start_x + water_width))
             (fun self x =>
                if (Room.x room <? x) && (x <? Room.x room + Room.width room - 1)
                   && (Room.y room <? y) && (y <? Room.y room + Room.height room - 1)
                then paint self x y WATER_DAMAGE
                else Ok self)
             self)
        self;
      Ok (self, r)
  | MAINTENANCE => scatter self room 1 3 VENT r
  | _ => Ok (self, r)
  end.

Definition _add_room_features (self : t) (r : Random) : outcome (t * Random) :=
  for_each (rooms self)
    (fun '(self, r) room => _add_features_by_type self room r) (self, r).

(** The body of the loop of [_add_pools] for a pool-area room. *)
Definition add_pool (self : t) (room : Room.t) : outcome t :=
  let pool_width := Z.max 3 (Z.min (Room.width room - 6) (Room.width room / 2)) in
  let pool_height := Z.max 3 (Z.min (Room.height room - 6) (Room.height room / 2)) in
  let start_x := Room.x room + (Room.width room - pool_width) / 2 in
  let start_y := Room.y room + (Room.height room - pool_height) / 2 in
  self ← for_each (py_range (start_y - 1) (start_y + pool_height + 1))
    (fun self y =>
       for_each (py_range (start_x - 1) (start_x + pool_width + 1))
         (fun self x =>
            if (Room.x room + 2 <=? x) && (x <=? Room.x room + Room.width room - 3)
               && (Room.y room + 2 <=? y) && (y <=? Room.y room + Room.height room - 3)
            then
              if (x =? start_x - 1) || (x =? start_x + pool_width)
                 || (y =? start_y - 1) || (y =? start_y + pool_height)
              then
                if negb (((x <=? Room.x room + 2)
                          || (Room.x room + Room.width room - 3 <=? x))
                         || ((y <=? Room.y room + 2)
                             || (Room.y room + Room.height room - 3 <=? y)))
                then paint self x y POOL_EDGE
                else Ok self
              else Ok self
            else Ok self)
         self)
    self;
  for_each (py_range start_y (start_y + pool_height))
    (fun self y =>
       for_each (py_range start_x (start_x + pool_width))
         (fun self x =>
            if (Room.x room + 2 <? x) && (x <? Room.x room + Room.width room - 3)
               && (Room.y room + 2 <? y) && (y <? Room.y room + Room.height room - 3)
            then paint self x y POOL
            else Ok self)
         self)
    self.

Definition _add_pools (self : t) : outcome t :=
  for_each (rooms self)
    (fun self room =>
       if bool_decide (Room.room_type room = POOL_AREA) then add_pool self room
       else Ok self)
    self.

Definition _add_poolrooms_features (self : t) (r : Random) : outcome (t * Random) :=
  for_each (rooms self)
    (fun '(self, r) room =>
       if bool_decide (Room.room_type room = POOL_CHANGING)
       then scatter self room 1 2 EXIT r
       else Ok (self, r))
    (self, r).

(** The loop over the corner positions of [_add_level_exit], with its
    [break]. *)
Fixpoint place_exit (self : t) (corner_positions : list (Z * Z)) : outcome t :=
  match corner_positions with
  | [] => Ok self
  | (x, y) :: rest =>
      if inside self x y then
        tile ← tile_at (grid self) x y;
        if bool_decide (tile = FLOOR) then paint self x y LEVEL_EXIT
        else place_exit self rest
      else place_exit self rest
  end.

Definition _add_level_exit (self : t) (r : Random) : outcome (t * Random) :=
  match rooms self with
  | [] => Ok (self, r)
  | _ =>
      let suitable_rooms :=
        List.filter (fun room => 64 <=? Room.width room * Room.height room)
                    (rooms self) in
      let suitable_rooms :=
        match suitable_rooms with [] => rooms self | _ => suitable_rooms end in
      '(exit_room, r) ← choice suitable_rooms r;
      let corner_positions :=
        [ (Room.x exit_room + 1, Room.y exit_room + 1);
          (Room.x exit_room + Room.width exit_room - 2, Room.y exit_room + 1);
          (Room.x exit_room + 1, Room.y exit_room + Room.height exit_room - 2);
          (Room.x exit_room + Room.width exit_room - 2,
           Room.y exit_room + Room.height exit_room - 2) ] in
      self ← place_exit self corner_positions;
      Ok (self, r)
  end.

Definition _generate_level_0 (fuel : nat) (self : t) (r : Random)
  : outcome (t * Random) :=
  '(self, r) ← _generate_rooms fuel self r;
  '(self, r) ← _connect_rooms self r;
  '(self, r) ← _add_room_features self r;
  _add_level_exit self r.

Definition _generate_poolrooms (fuel : nat) (self : t) (r : Random)
  : outcome (t * Random) :=
  '(self, r) ← _generate_pool_rooms fuel self r;
  '(self, r) ← _connect_rooms self r;
  self ← _add_pools self;
  '(self, r) ← _add_poolrooms_features self r;
  _add_level_exit self r.

(** [generate]; [fuel] bounds the iterations of the placement loop. *)
Definition generate (fuel : nat) (self : t) (r : Random)
  : outcome (LevelMap * list Room.t * Random) :=
  '(self, r) ← (if bool_decide (level_type self = POOLROOMS)
                then _generate_poolrooms fuel self r
                else _generate_level_0 fuel self r);
  Ok (grid self, rooms self, r).

End BackroomsGenerator.

(** ** Game: visibility and exploration memory *)

(** [max(0.0, v)] on floats. *)
Definition py_fmax0 (v : float) : float :=
  if PrimFloat.ltb 0%float v then v else 0%float.

Module Game.

Record t : Type := {
  level_map : LevelMap;
  rooms : list Room.t;
  player : Player.t;
  visible_tiles : gset cell;
  explored_tiles : gmap cell float
}.

Definition set_visible_tiles (self : t) (v : gset cell) : t :=
  {| level_map := level_map self; rooms := rooms self; player := player self;
     visible_tiles := v; explored_tiles := explored_tiles self |}.

Definition set_explored_tiles (self : t) (e : gmap cell float) : t :=
  {| level_map := level_map self; rooms := rooms self; player := player self;
     visible_tiles := visible_tiles self; explored_tiles := e |}.

Definition room_contains (room : Room.t) (gx gy : Z) : bool :=
  (Room.x room <=? gx) && (gx <? Room.x room + Room.width room)
  && (Room.y room <=? gy) && (gy <? Room.y room + Room.height room).

Definition _get_current_room (self : t) : option Room.t :=
  let player_grid_x := grid_of (Player.x (player self)) in
  let player_grid_y := grid_of (Player.y (player self)) in
  List.find (fun room => room_contains room player_grid_x player_grid_y)
            (rooms self).

(** The [while distance < max_distance] loop of [_cast_ray]. *)
Fixpoint _cast_ray_loop (fuel : nat) (dx dy x y distance max_distance : Q)
  (self : t) : outcome t :=
  match fuel with
  | O => OutOfFuel
  | S fuel' =>
      if Qlt_bool distance max_distance then
        let grid_x := py_int x in
        let grid_y := py_int y in
        inb ← in_bounds grid_x grid_y (level_map self);
        if negb inb then Ok self
        else
          let self := set_visible_tiles self
                        ({[ (grid_x, grid_y) ]} ∪ visible_tiles self) in
          tile ← tile_at (level_map self) grid_x grid_y;
          if bool_decide (tile = WALL) then Ok self
          else _cast_ray_loop fuel' dx dy (x + dx * 0.1)%Q (y + dy * 0.1)%Q
                              (distance + 0.1)%Q max_distance self
      else Ok self
  end.

(** Iterations the loop of [_cast_ray] can need: [distance] grows by [0.1]
    from [0], and one more test ends the loop. *)
Definition ray_fuel (max_distance : Q) : nat :=
  S (Z.to_nat (Qceiling (max_distance * 10))).

Section WithMath.
Context `{MathLib}.

Definition _cast_ray (self : t) (start_x start_y angle max_distance : Q)
  : outcome t :=
  let dx := math_cos angle in
  let dy := math_sin angle in
  _cast_ray_loop (ray_fuel max_distance) dx dy start_x start_y 0 max_distance self.

(** The angles, in whole degrees, of the rays of the flashlight cone:
    [range(int(start_angle), int(end_angle) + 1, 2)]. *)
Definition ray_angles (angle : Q) : list Z :=
  let start_angle := (angle - inject_Z (FLASHLIGHT_ANGLE / 2))%Q in
  let end_angle := (angle + inject_Z (FLASHLIGHT_ANGLE / 2))%Q in
  py_range_step (py_int start_angle) (py_int end_angle + 1) 2.

Definition _calculate_flashlight_visibility (self : t) : outcome t :=
  if negb (Player.has_flashlight (player self)) then Ok self
  else
    for_each (ray_angles (Player.angle (player self)))
      (fun self angle =>
         _cast_ray self
           (Player.x (player self) / inject_Z TILE_SIZE)%Q
           (Player.y (player self) / inject_Z TILE_SIZE)%Q
           (math_radians (inject_Z angle))
           (inject_Z (FLASHLIGHT_RANGE / TILE_SIZE)))
      self.

(** One entry of the loop of [_update_fade_timers]: the value kept for
    [tile], or [None] when the tile is forgotten. *)
Definition fade_entry (visible : gset cell) (tile : cell) (visibility : float)
  : option float :=
  if bool_decide (tile ∈ visible) then Some visibility
  else
    let new_visibility := py_fmax0 (PrimFloat.sub visibility FADE_RATE) in
    if PrimFloat.leb new_visibility 0%float then None else Some new_visibility.

Definition _update_fade_timers (self : t) : t :=
  set_explored_tiles self
    (map_imap (fade_entry (visible_tiles self)) (explored_tiles self)).

(** [for tile in self.visible_tiles: self.explored_tiles[tile] = 1.0] *)
Definition refresh_explored (self : t) : t :=
  set_explored_tiles self
    (set_fold (fun tile e => <[tile := 1%float]> e)
              (explored_tiles self) (visible_tiles self)).

(** The room lighting part of [_update_visibility]. *)
Definition light_room (self : t) : outcome t :=
  match _get_current_room self with
  | Some current_room =>
      if Room.is_lit current_room then
        for_each
          (py_range (Room.y current_room)
                    (Room.y current_room + Room.height current_room))
          (fun self y =>
             for_each
               (py_range (Room.x current_room)
                         (Room.x current_room + Room.width current_room))
               (fun self x =>
                  inb ← in_bounds x y (level_map self);
                  Ok (if (inb : bool)
                      then set_visible_tiles self ({[ (x, y) ]} ∪ visible_tiles self)
                      else self))
               self)
          self
      else Ok self
  | None => Ok self
  end.

Definition _update_visibility (self : t) : outcome t :=
  let self := set_visible_tiles self ∅ in
  self ← light_room self;
  self ← _calculate_flashlight_visibility self;
  let self := _update_fade_timers self in
  Ok (refresh_explored self).

End WithMath.

End Game.

(** ** The visible set, as the specification describes it *)

Module VisibilitySpec.

(** The value of a ray coordinate (or of the distance travelled) after [n]
    steps of length [step]. *)
Fixpoint advance (v step : Q) (n : nat) : Q :=
  match n with
  | O => v
  | S n' => advance (v + step)%Q step n'
  end.

(** The cell a ray from [(x, y)] with direction [(dx, dy)] is in after [n]
    steps of a tenth of a tile. *)
Definition ray_cell (x y dx dy : Q) (n : nat) : cell :=
  (py_int (advance x (dx * 0.1)%Q n), py_int (advance y (dy * 0.1)%Q n)).

(** The ray marks the cell it is in after [n] steps when it has travelled
    less than [max_distance] from a start at distance [d0], has not left
    the map, and every cell it was in before is transparent (not a wall). *)
Definition ray_marks (m : LevelMap) (x y dx dy d0 max_distance : Q) (c : cell)
  : Prop :=
  exists n : nat,
    (advance d0 0.1 n < max_distance)%Q
    /\ ray_cell x y dx dy n = c
    /\ (forall k, (k <= n)%nat ->
          in_bounds (ray_cell x y dx dy k).1 (ray_cell x y dx dy k).2 m = Ok true)
    /\ (forall k, (k < n)%nat ->
          exists tile,
            tile_at m (ray_cell x y dx dy k).1 (ray_cell x y dx dy k).2 = Ok tile
            /\ tile <> WALL).

(** [room] is the first room, in list order, that contains the cell. *)
Definition first_room_containing (rooms : list Room.t) (gx gy : Z) (room : Room.t)
  : Prop :=
  exists i : nat,
    rooms !! i = Some room
    /\ Game.room_contains room gx gy = true
    /\ forall j r, (j < i)%nat -> rooms !! j = Some r ->
                   Game.room_contains r gx gy = false.

(** Source (a): every cell of the map inside the rectangle of the room the
    player is in, provided that room is lit. *)
Definition lit_room_cells (g : Game.t) (c : cell) : Prop :=
  exists room,
    first_room_containing (Game.rooms g)
      (grid_of (Player.x (Game.player g))) (grid_of (Player.y (Game.player g)))
      room
    /\ Room.is_lit room = true
    /\ Room.x room <= c.1 < Room.x room + Room.width room
    /\ Room.y room <= c.2 < Room.y room + Room.height room
    /\ in_bounds c.1 c.2 (Game.level_map g) = Ok true.

(** The sampled headings: whole degrees, two apart, from the truncation of
    [heading - 30] up to the truncation of [heading + 30]. *)
Definition sampled_angle (heading : Q) (a : Z) : Prop :=
  exists i : Z,
    0 <= i
    /\ a = py_int (heading - 30)%Q + 2 * i
    /\ a <= py_int (heading + 30)%Q.

(** Source (b): the cells marked by the rays of the flashlight cone, each
    marching from the player's position for less than 4 tiles. *)
Definition flashlight_cells `{MathLib} (g : Game.t) (c : cell) : Prop :=
  exists a : Z,
    sampled_angle (Player.angle (Game.player g)) a
    /\ ray_marks (Game.level_map g)
         (Player.x (Game.player g) / inject_Z TILE_SIZE)%Q
         (Player.y (Game.player g) / inject_Z TILE_SIZE)%Q
         (math_cos (math_radians (inject_Z a)))
         (math_sin (math_radians (inject_Z a)))
         0 4 c.

End VisibilitySpec.

(** A map with at least one row, all rows of one length. *)
Definition rectangular (m : LevelMap) : Prop :=
  exists row0 rest,
    m = row0 :: rest /\ Forall (fun row => length row = length row0) rest.

(** ** Grids, rectangles and reachability over floor tiles *)

(** The tile of a cell, [None] outside the grid. *)
Definition cell_tile (g : LevelMap) (c : cell) : option TileType :=
  if (0 <=? c.1) && (0 <=? c.2)
  then row ← g !! Z.to_nat c.2; row !! Z.to_nat c.1
  else None.

(** The grid after [grid[y][x] = tile], for an index inside the grid. *)
Definition grid_set (g : LevelMap) (x y : Z) (tile : TileType) : LevelMap :=
  match g !! Z.to_nat y with
  | Some row => <[Z.to_nat y := <[Z.to_nat x := tile]> row]> g
  | None => g
  end.

(** A grid of [H] rows of [W] tiles. *)
Definition grid_dims (W H : Z) (g : LevelMap) : Prop :=
  Z.of_nat (length g) = H
  /\ Forall (fun row : list TileType => Z.of_nat (length row) = W) g.

Definition is_floor (g : LevelMap) (c : cell) : Prop :=
  cell_tile g c = Some FLOOR.

(** The cells of a room's rectangle, and those not on its border. *)
Definition in_room (room : Room.t) (c : cell) : Prop :=
  Room.x room <= c.1 < Room.x room + Room.width room
  /\ Room.y room <= c.2 < Room.y room + Room.height room.

Definition in_interior (room : Room.t) (c : cell) : Prop :=
  Room.x room < c.1 < Room.x room + Room.width room - 1
  /\ Room.y room < c.2 < Room.y room + Room.height room - 1.

Definition on_border (room : Room.t) (c : cell) : Prop :=
  in_room room c /\ ~ in_interior room c.

(** 4-adjacency of cells. *)
Definition adjacent (a b : cell) : Prop :=
  (a.1 = b.1 /\ (a.2 = b.2 + 1 \/ b.2 = a.2 + 1))
  \/ (a.2 = b.2 /\ (a.1 = b.1 + 1 \/ b.1 = a.1 + 1)).

(** What a flood fill over floor tiles computes: [b] is reached from [a]
    through 4-adjacent floor tiles. *)
Inductive floor_path (g : LevelMap) : cell -> cell -> Prop :=
| path_here (c : cell) : is_floor g c -> floor_path g c c
| path_step (a b c : cell) :
    floor_path g a b -> adjacent b c -> is_floor g c -> floor_path g a c.

(** A room is reachable from another when a flood fill started on some
    tile of the one reaches some tile of the other. *)
Definition room_reachable (g : LevelMap) (from to : Room.t) : Prop :=
  exists a b, in_room from a /\ in_room to b /\ floor_path g a b.

(** A placed room lies inside the grid, one tile away from its edge, and is
    at least 4 tiles wide and 3 tiles high (the smallest sizes of
    [size_ranges]). *)
Definition room_fits (W H : Z) (room : Room.t) : Prop :=
  1 <= Room.x room /\ Room.x room + Room.width room <= W - 1
  /\ 1 <= Room.y room /\ Room.y room + Room.height room <= H - 1
  /\ 4 <= Room.width room /\ 3 <= Room.height room.

Definition pairwise_disjoint (rooms : list Room.t) : Prop :=
  forall (i j : nat) (ri rj : Room.t),
    i <> j -> rooms !! i = Some ri -> rooms !! j = Some rj ->
    Room.overlaps ri rj = false.

(** The generator's state is well formed: the grid has the declared
    dimensions, the rooms fit, are pairwise disjoint, and their borders are
    floor. *)
Record placed (self : BackroomsGenerator.t) : Prop := {
  placed_dims :
    grid_dims (BackroomsGenerator.width self) (BackroomsGenerator.height self)
              (BackroomsGenerator.grid self);
  placed_fits :
    Forall (room_fits (BackroomsGenerator.width self)
                      (BackroomsGenerator.height self))
           (BackroomsGenerator.rooms self);
  placed_disjoint : pairwise_disjoint (BackroomsGenerator.rooms self);
  placed_border :
    forall room c, room ∈ BackroomsGenerator.rooms self -> on_border room c ->
                   is_floor (BackroomsGenerator.grid self) c
}.

(** Well formed as soon as the dimensions allow a room at all. *)
Definition placed_if_roomy (self : BackroomsGenerator.t) : Prop :=
  6 <= BackroomsGenerator.width self -> 5 <= BackroomsGenerator.height self ->
  placed self.

(** The placement loop changes the room list (by appending) and the grid,
    nothing else. *)
Definition grows (self self' : BackroomsGenerator.t) : Prop :=
  BackroomsGenerator.width self' = BackroomsGenerator.width self
  /\ BackroomsGenerator.height self' = BackroomsGenerator.height self
  /\ BackroomsGenerator.level_type self' = BackroomsGenerator.level_type self
  /\ BackroomsGenerator.rooms self `prefix_of` BackroomsGenerator.rooms self'.

(** [room] is [room0], or a flood fill from the centre of [room0] reaches
    the centre of [room]. *)
Definition linked (g : LevelMap) (room0 room : Room.t) : Prop :=
  room = room0 \/ floor_path g (Room.center room0) (Room.center room).

(** The cell lies in the interior of one of the rooms. *)
Definition any_interior (rooms : list Room.t) (c : cell) : Prop :=
  exists room, room ∈ rooms /\ in_interior room c.

(** The top-left corner of a room, a cell of its border. *)
Definition corner (room : Room.t) : cell := (Room.x room, Room.y room).

(** A cell outside every interior stands for itself; a cell inside the
    interior of a room is stood for by the corner of that room. *)
Definition stands_for (rooms : list Room.t) (c c' : cell) : Prop :=
  (~ any_interior rooms c /\ c' = c)
  \/ exists room, room ∈ rooms /\ in_interior room c /\ c' = corner room.

(** The draw makes [random.choice(list(RoomType))] return one of the three
    pool types, which [_generate_rooms] discards without counting. *)
Definition draws_pool_type (v : Z) : bool :=
  match py_index all_room_types (v mod 15) with
  | Ok room_type => BackroomsGenerator.is_pool_type room_type
  | _ => false
  end.

(** Among any [k + 1] consecutive draws of the source, one does not select a
    pool type. *)
Definition discards_bounded (k : nat) (r : Random) : Prop :=
  forall i : nat,
    exists j : nat, (j <= k)%nat /\ draws_pool_type (draws r (i + j)) = false.

(** The first phase of [generate]: the placement loop of the biome. *)
Definition placement_phase (fuel : nat) (self : BackroomsGenerator.t) (r : Random)
  : outcome (BackroomsGenerator.t * Random) :=
  if bool_decide (BackroomsGenerator.level_type self = POOLROOMS)
  then BackroomsGenerator._generate_pool_rooms fuel self r
  else BackroomsGenerator._generate_rooms fuel self r.

(** The target room count of a biome. *)
Definition target_rooms (level : LevelType) : Z :=
  match level with LEVEL_0 => 20 | POOLROOMS => 15 end.

(** Two states of the generator that differ in the grid only. *)
Definition same_plan (self self' : BackroomsGenerator.t) : Prop :=
  BackroomsGenerator.width self' = BackroomsGenerator.width self
  /\ BackroomsGenerator.height self' = BackroomsGenerator.height self
  /\ BackroomsGenerator.level_type self' = BackroomsGenerator.level_type self
  /\ BackroomsGenerator.rooms self' = BackroomsGenerator.rooms self.

(** [self'] is [self] with some cells satisfying [P] set to [tile]. *)
Definition painted (P : cell -> Prop) (tile : TileType)
  (self self' : BackroomsGenerator.t) : Prop :=
  same_plan self self'
  /\ grid_dims (BackroomsGenerator.width self') (BackroomsGenerator.height self')
               (BackroomsGenerator.grid self')
  /\ forall c,
       cell_tile (BackroomsGenerator.grid self') c
       = cell_tile (BackroomsGenerator.grid self) c
       \/ (P c /\ cell_tile (BackroomsGenerator.grid self') c = Some tile).

(** [self'] is [self] with some cells satisfying [P] overwritten. *)
Definition repainted (P : cell -> Prop) (self self' : BackroomsGenerator.t) : Prop :=
  same_plan self self'
  /\ grid_dims (BackroomsGenerator.width self') (BackroomsGenerator.height self')
               (BackroomsGenerator.grid self')
  /\ forall c,
       cell_tile (BackroomsGenerator.grid self') c
       = cell_tile (BackroomsGenerator.grid self) c
       \/ P c.

(** ** Tiles, walkable cells and well-formed rooms *)

(** The grid [g'] is [g] with some cells set to tiles of [T]. *)
Definition regrid (T : TileType -> Prop) (g g' : LevelMap) : Prop :=
  forall c, cell_tile g' c = cell_tile g c
            \/ exists tile, cell_tile g' c = Some tile /\ T tile.

(** A cell of the grid a probe point of [_can_move_to] may rest on: neither
    a wall nor a pool edge. *)
Definition walkable (g : LevelMap) (c : cell) : Prop :=
  exists tile, cell_tile g c = Some tile /\ tile <> WALL /\ tile <> POOL_EDGE.

(** [b] is reached from [a] through 4-adjacent walkable cells. *)
Inductive walk_path (g : LevelMap) : cell -> cell -> Prop :=
| walk_here (c : cell) : walkable g c -> walk_path g c c
| walk_step (a b c : cell) :
    walk_path g a b -> adjacent b c -> walkable g c -> walk_path g a c.

(** The tiles the generator writes in each biome (the grid starts as
    walls). *)
Definition biome_tiles (level : LevelType) : list TileType :=
  match level with
  | LEVEL_0 => [WALL; FLOOR; EXIT; ELECTRICAL; WATER_DAMAGE; VENT; LEVEL_EXIT]
  | POOLROOMS => [WALL; FLOOR; POOL_EDGE; POOL; EXIT; LEVEL_EXIT]
  end.

(** The size of the room is in the range [_get_room_size] draws from for
    its type. *)
Definition sized (room : Room.t) : Prop :=
  let '(min_w, max_w, min_h, max_h) :=
    BackroomsGenerator.size_ranges (Room.room_type room) in
  min_w <= Room.width room <= max_w /\ min_h <= Room.height room <= max_h.

(** The room type belongs to the biome: a pool type exactly in the
    poolrooms. *)
Definition biome_room (level : LevelType) (room : Room.t) : Prop :=
  BackroomsGenerator.is_pool_type (Room.room_type room)
  = bool_decide (level = POOLROOMS).

(** The four positions [_add_level_exit] tries, in order. *)
Definition corner_positions (exit_room : Room.t) : list cell :=
  [ (Room.x exit_room + 1, Room.y exit_room + 1);
    (Room.x exit_room + Room.width exit_room - 2, Room.y exit_room + 1);
    (Room.x exit_room + 1, Room.y exit_room + Room.height exit_room - 2);
    (Room.x exit_room + Room.width exit_room - 2,
     Room.y exit_room + Room.height exit_room - 2) ].

(** The rectangle of the pool [_add_pools] digs in a pool-area room:
    [(start_x, start_y, pool_width, pool_height)]. *)
Definition pool_rect (room : Room.t) : Z * Z * Z * Z :=
  let pool_width := Z.max 3 (Z.min (Room.width room - 6) (Room.width room / 2)) in
  let pool_height :=
    Z.max 3 (Z.min (Room.height room - 6) (Room.height room / 2)) in
  (Room.x room + (Room.width room - pool_width) / 2,
   Room.y room + (Room.height room - pool_height) / 2,
   pool_width, pool_height).

Definition in_pool (room : Room.t) (c : cell) : Prop :=
  let '(start_x, start_y, pool_width, pool_height) := pool_rect room in
  start_x <= c.1 < start_x + pool_width
  /\ start_y <= c.2 < start_y + pool_height.

(** The cells around the pool rectangle, corners included. *)
Definition on_pool_ring (room : Room.t) (c : cell) : Prop :=
  let '(start_x, start_y, pool_width, pool_height) := pool_rect room in
  start_x - 1 <= c.1 <= start_x + pool_width
  /\ start_y - 1 <= c.2 <= start_y + pool_height
  /\ ~ in_pool room c.

(** ** Predicates of the statements *)

(** A probe point passes when its grid cell is inside the map and holds
    neither a wall nor a pool edge. *)
Definition probe_ok (m : LevelMap) (p : Q * Q) : Prop :=
  in_bounds (grid_of p.1) (grid_of p.2) m = Ok true /\
  exists tile, tile_at m (grid_of p.1) (grid_of p.2) = Ok tile
               /\ tile <> WALL /\ tile <> POOL_EDGE.

(** What a pass over the map leaves untouched. *)
Definition same_level (g g' : Game.t) : Prop :=
  Game.level_map g' = Game.level_map g
  /\ Game.rooms g' = Game.rooms g
  /\ Game.player g' = Game.player g
  /\ Game.explored_tiles g' = Game.explored_tiles g.

(** The ray of heading [a] (whole degrees) from the player of [g]. *)
Definition player_ray `{MathLib} (g : Game.t) (a : Z) (c : cell) : Prop :=
  VisibilitySpec.ray_marks (Game.level_map g)
    (Player.x (Game.player g) / inject_Z TILE_SIZE)%Q
    (Player.y (Game.player g) / inject_Z TILE_SIZE)%Q
    (math_cos (math_radians (inject_Z a)))
    (math_sin (math_radians (inject_Z a)))
    0 4 c.

#[local] Instance in_interior_dec (room : Room.t) (c : cell) :
  Decision (in_interior room c).
Proof. unfold in_interior. apply _. Defined.

(** ** Concrete levels and states used by the examples *)

Module Examples.

(** A one-tile-high corridor: three rows of six tiles, the four middle
    tiles of the middle row are floor. *)
Definition corridor : LevelMap :=
  [ [WALL; WALL; WALL; WALL; WALL; WALL];
    [WALL; FLOOR; FLOOR; FLOOR; FLOOR; WALL];
    [WALL; WALL; WALL; WALL; WALL; WALL] ].

(** The map of a level without rooms: nothing but walls. *)
Definition all_walls : LevelMap :=
  [ [WALL; WALL; WALL]; [WALL; WALL; WALL]; [WALL; WALL; WALL] ].

(** A [math] that is exact along the four axis directions and returns 0
    elsewhere; the examples below only look along the axes. *)
Definition axis_pi : Q := 3.141592653589793.

Definition axis_cos (a : Q) : Q :=
  if Qeq_bool a 0 then 1
  else if Qeq_bool a axis_pi then -1
  else 0.

Definition axis_sin (a : Q) : Q :=
  if Qeq_bool a (axis_pi / 2) then 1
  else if Qeq_bool a (3 * axis_pi / 2) then -1
  else 0.

Definition axis_math : MathLib :=
  {| math_pi := axis_pi; math_cos := axis_cos; math_sin := axis_sin |}.

(** The corridor as a single lit room, the player standing in it. *)
Definition corridor_room : Room.t :=
  {| Room.x := 1; Room.y := 1; Room.width := 4; Room.height := 1;
     Room.room_type := LONG_HALLWAY; Room.is_lit := true;
     Room.connections := [] |}.

Definition corridor_game : Game.t :=
  {| Game.level_map := corridor; Game.rooms := [corridor_room];
     Game.player := Player.init 40 30;
     Game.visible_tiles := ∅; Game.explored_tiles := ∅ |}.

(** A cell seen on this tick, [(4, 1)], while the player looks at another
    cell from then on. *)
Definition remembering_game : Game.t :=
  {| Game.level_map := corridor; Game.rooms := [corridor_room];
     Game.player := Player.init 40 30;
     Game.visible_tiles := {[ (2, 1) ]};
     Game.explored_tiles := {[ (4, 1) := 1%float ]} |}.

(** [k] further ticks of the exploration bookkeeping that ends
    [_update_visibility], the visible set staying what it is. *)
Fixpoint unseen_ticks (k : nat) (g : Game.t) : Game.t :=
  match k with
  | O => g
  | S k' => unseen_ticks k' (Game.refresh_explored (Game._update_fade_timers g))
  end.

(** A lit storage room of 7 by 4 tiles with a corridor leaving it to the
    east along its second row. *)
Definition room_and_corridor : LevelMap :=
  [ [WALL; WALL; WALL; WALL; WALL; WALL; WALL; WALL; WALL; WALL; WALL; WALL];
    [WALL; FLOOR; FLOOR; FLOOR; FLOOR; FLOOR; FLOOR; FLOOR; WALL; WALL; WALL; WALL];
    [WALL; FLOOR; FLOOR; FLOOR; FLOOR; FLOOR; FLOOR; FLOOR; FLOOR; FLOOR; FLOOR; WALL];
    [WALL; FLOOR; FLOOR; FLOOR; FLOOR; FLOOR; FLOOR; FLOOR; WALL; WALL; WALL; WALL];
    [WALL; FLOOR; FLOOR; FLOOR; FLOOR; FLOOR; FLOOR; FLOOR; WALL; WALL; WALL; WALL];
    [WALL; WALL; WALL; WALL; WALL; WALL; WALL; WALL; WALL; WALL; WALL; WALL] ].

(** What the player sees from inside the lit room: its 7 by 4 tiles (the
    flashlight, 4 tiles long, does not reach past them from [(30, 50)]). *)
Definition lit_room_tiles : gset cell :=
  list_to_set
    (y ← seqZ 1 4; x ← seqZ 1 7; [(x, y)]).

(** A hidden entity whose spawn countdown ends on the next tick. *)
Definition hidden_entity : Entity.t :=
  {| Entity.x := 0; Entity.y := 0; Entity.visible := false;
     Entity.visibility_timer := 0; Entity.spawn_timer := 1;
     Entity.angle := 0; Entity.last_player_x := 0; Entity.last_player_y := 0;
     Entity.move_timer := 0; Entity.target_angle := 0 |}.

(** A visible entity with 50 ticks left to show and 1000 to the next spawn. *)
Definition visible_entity : Entity.t :=
  {| Entity.x := 60; Entity.y := 50; Entity.visible := true;
     Entity.visibility_timer := 50; Entity.spawn_timer := 1000;
     Entity.angle := 0; Entity.last_player_x := 0; Entity.last_player_y := 0;
     Entity.move_timer := 0; Entity.target_angle := 0 |}.

(** The random source that makes the entity appear 130 units east of the
    player ([randint(120, 180)] gives 130, [uniform(0, 2 * pi)] gives 0)
    facing west ([uniform(0, 360)] gives 180). *)
Definition spawn_east_facing_west : Random :=
  {| draws := fun i =>
       match i with
       | O => 10
       | 2%nat => 4503599627370496
       | _ => 0
       end;
     cursor := 0 |}.

(** A random source with well mixed draws (a Fibonacci hash of the index). *)
Definition golden_stream : Random :=
  {| draws := fun i =>
       Z.shiftr (((Z.of_nat i + 1) * 11400714819323198485)
                 mod 18446744073709551616) 11;
     cursor := 0 |}.

(** A source whose every draw selects [POOL_AREA] from the room types, and
    one whose every draw is 0. *)
Definition always_pool : Random := {| draws := fun _ => 12; cursor := 0 |}.

Definition zero_stream : Random := {| draws := fun _ => 0; cursor := 0 |}.

(** Two generated levels of 60 by 40 tiles, one per biome. *)
Definition generated_level_0
  : outcome (LevelMap * list Room.t * Random) :=
  BackroomsGenerator.generate 2000 (BackroomsGenerator.init 60 40 LEVEL_0)
    golden_stream.

Definition generated_poolrooms
  : outcome (LevelMap * list Room.t * Random) :=
  BackroomsGenerator.generate 2000 (BackroomsGenerator.init 60 40 POOLROOMS)
    golden_stream.

Definition returned {A : Type} (o : outcome A) : bool :=
  match o with Ok _ => true | _ => false end.

Definition level_of (o : outcome (LevelMap * list Room.t * Random)) : LevelMap :=
  match o with Ok (g, _, _) => g | _ => [] end.

Definition rooms_of (o : outcome (LevelMap * list Room.t * Random))
  : list Room.t :=
  match o with Ok (_, rooms, _) => rooms | _ => [] end.

Definition random_of (o : outcome (LevelMap * list Room.t * Random)) : Random :=
  match o with Ok (_, _, r) => r | _ => golden_stream end.

(** The first two rooms of [generated_level_0]. *)
Definition office : Room.t :=
  {| Room.x := 25; Room.y := 14; Room.width := 10; Room.height := 8;
     Room.room_type := OFFICE_SPACE; Room.is_lit := false;
     Room.connections := [] |}.

Definition server_room : Room.t :=
  {| Room.x := 32; Room.y := 26; Room.width := 7; Room.height := 10;
     Room.room_type := SERVER_ROOM; Room.is_lit := false;
     Room.connections := [] |}.

End Examples.

(** The states a phase after the placement works on: the rooms and the
    dimensions of [self0], and a grid of these dimensions. *)
Definition phase_state (self0 s : BackroomsGenerator.t) : Prop :=
  same_plan self0 s
  /\ grid_dims (BackroomsGenerator.width s) (BackroomsGenerator.height s)
               (BackroomsGenerator.grid s).

(** What [generate] does between [_connect_rooms] and [_add_level_exit]. *)
Definition features_phase (level : LevelType) (self : BackroomsGenerator.t)
  (r : Random) : outcome (BackroomsGenerator.t * Random) :=
  match level with
  | LEVEL_0 => BackroomsGenerator._add_room_features self r
  | POOLROOMS =>
      self ← BackroomsGenerator._add_pools self;
      BackroomsGenerator._add_poolrooms_features self r
  end.

(** Every tile of every room is floor. *)
Definition rooms_floor (self : BackroomsGenerator.t) : Prop :=
  forall room c, room ∈ BackroomsGenerator.rooms self -> in_room room c ->
                 is_floor (BackroomsGenerator.grid self) c.

(** The cells of the L-shaped corridor from [start] to [finish]: the row of
    [start] then the column of [finish], or the column of [start] then the
    row of [finish]. *)
Definition on_elbow (start finish : cell) (horizontal_first : bool) (c : cell)
  : Prop :=
  (Z.min start.1 finish.1 <= c.1 <= Z.max start.1 finish.1
   /\ Z.min start.2 finish.2 <= c.2 <= Z.max start.2 finish.2)
  /\ if horizontal_first then c.2 = start.2 \/ c.1 = finish.1
     else c.1 = start.1 \/ c.2 = finish.2.

(** ** Further concrete rooms, levels and states *)

Module Samples.

(** The runs of [generate] behind [Examples.generated_level_0] and
    [Examples.generated_poolrooms]. *)
Abbreviation level_0_run :=
  (BackroomsGenerator.generate 2000 (BackroomsGenerator.init 60 40 LEVEL_0)
     Examples.golden_stream).

Abbreviation poolrooms_run :=
  (BackroomsGenerator.generate 2000 (BackroomsGenerator.init 60 40 POOLROOMS)
     Examples.golden_stream).

(** A room that overlaps [Examples.office] in its lower right corner. *)
Definition office_annex : Room.t :=
  {| Room.x := 33; Room.y := 20; Room.width := 6; Room.height := 6;
     Room.room_type := STORAGE_ROOM; Room.is_lit := true;
     Room.connections := [] |}.

(** A poolrooms level of 80 by 60 tiles whose first room is a pool area 18
    tiles wide and 17 tiles high. *)
Definition pool_stream : Random :=
  {| draws := draws Examples.golden_stream; cursor := 5 |}.

Abbreviation pool_start_run :=
  (BackroomsGenerator.generate 2000 (BackroomsGenerator.init 80 60 POOLROOMS)
     pool_stream).

Definition tall_pool : Room.t :=
  {| Room.x := 59; Room.y := 36; Room.width := 18; Room.height := 17;
     Room.room_type := POOL_AREA; Room.is_lit := false;
     Room.connections := [] |}.

(** A grid of 6 by 4 walls, and a room that sticks out of it to the right
    and below. *)
Definition small_grid : BackroomsGenerator.t :=
  BackroomsGenerator.init 6 4 LEVEL_0.

Definition overhanging_room : Room.t :=
  {| Room.x := 4; Room.y := 2; Room.width := 5; Room.height := 4;
     Room.room_type := STORAGE_ROOM; Room.is_lit := false;
     Room.connections := [] |}.

End Samples.

(* ================================================================== *)
(** * Properties *)

(** ** Outcomes *)

Lemma bind_Ok {A B : Type} (o : outcome A) (f : A -> outcome B) (b : B) :
  o ≫= f = Ok b -> exists a, o = Ok a /\ f a = Ok b.
Proof. destruct o; simpl; intros E; try discriminate. eauto. Qed.

Lemma randint_bounds (a b v : Z) (r r' : Random) :
  randint a b r = Ok (v, r') -> a <= v <= b.
Proof.
  unfold randint. destruct (b <? a) eqn:E; [discriminate|].
  simpl. intros [= <- _].
  pose proof (Z.mod_pos_bound (draws r (cursor r)) (b - a + 1)). lia.
Qed.

Ltac inv_bind H :=
  let a := fresh "v" in
  let E := fresh "E" in
  apply bind_Ok in H; destruct H as (a & E & H).

(** ** Collision probes *)

Lemma probes_clear_true (ps : list (Q * Q)) (m : LevelMap) :
  probes_clear ps m = Ok true <-> Forall (probe_ok m) ps.
Proof.
  induction ps as [|[cx cy] ps IH]; simpl.
  - split; [constructor | reflexivity].
  - split.
    + intros H. inv_bind H. destruct v; simpl in H; [|discriminate].
      inv_bind H.
      destruct (bool_decide (v = WALL)) eqn:Ew; simpl in H; [discriminate|].
      destruct (bool_decide (v = POOL_EDGE)) eqn:Ep; simpl in H; [discriminate|].
      apply bool_decide_eq_false in Ew, Ep.
      constructor; [|by apply IH].
      split; [exact E|]. exists v. auto.
    + intros H. inversion H as [|? ? [Hb (tile & Ht & Hw & Hp)] Hrest]; subst.
      simpl in Hb, Ht. rewrite Hb. simpl. rewrite Ht. simpl.
      rewrite !bool_decide_eq_false_2 by assumption. simpl. by apply IH.
Qed.

Lemma move_inv (p p' : Player.t) (dx dy : Q) (m : LevelMap) (pressed : bool) :
  Player.move p dx dy m pressed = Ok p' ->
  let k := if Player.is_sprinting p' then SPRINT_MULTIPLIER else 1%Q in
  let new_x := (Player.x p + dx * k)%Q in
  let new_y := (Player.y p + dy * k)%Q in
  exists okx oky : bool,
    Player._can_move_to new_x (Player.y p) m = Ok okx
    /\ Player.x p' = (if okx then new_x else Player.x p)
    /\ Player._can_move_to (Player.x p') new_y m = Ok oky
    /\ Player.y p' = (if oky then new_y else Player.y p).
Proof.
  unfold Player.move. intros H.
  destruct (_ && _ && _) eqn:Ecs; cbv zeta in H; cbv beta iota in H;
    inv_bind H; inv_bind H; injection H as <-; simpl;
    exists v, v0; auto.
Qed.

(** ** Player movement (C3) *)

(** C3, as the code has it.  Movement is axis-separated: the X candidate is
    tested with the old Y, and the Y candidate with the X that resulted.
    [_can_move_to] accepts a position exactly when the four corners of the
    footprint of half-extent 8 and its centre all map to cells inside the
    map that are neither wall nor pool edge (a probe outside the map
    blocks).  After a move the player stands on a position that passes this
    test, or both candidates were refused and the player has not moved; in
    particular a player that started on a passing position ends on one. *)
Theorem move_axis_separated_sound
  (p p' : Player.t) (dx dy : Q) (m : LevelMap) (pressed : bool) :
  Player.move p dx dy m pressed = Ok p' ->
  let k := if Player.is_sprinting p' then SPRINT_MULTIPLIER else 1%Q in
  let new_x := (Player.x p + dx * k)%Q in
  let new_y := (Player.y p + dy * k)%Q in
  (exists okx oky : bool,
      Player._can_move_to new_x (Player.y p) m = Ok okx
      /\ Player.x p' = (if okx then new_x else Player.x p)
      /\ Player._can_move_to (Player.x p') new_y m = Ok oky
      /\ Player.y p' = (if oky then new_y else Player.y p)
      /\ (Player._can_move_to (Player.x p') (Player.y p') m = Ok true
          \/ (okx = false /\ oky = false
              /\ Player.x p' = Player.x p /\ Player.y p' = Player.y p)))
  /\ (forall x y : Q,
        Player._can_move_to x y m = Ok true
        <-> Forall (probe_ok m) (footprint 8 x y))
  /\ (Player._can_move_to (Player.x p) (Player.y p) m = Ok true ->
      Forall (probe_ok m) (footprint 8 (Player.x p') (Player.y p'))).
Proof.
  intros H k new_x new_y.
  destruct (move_inv _ _ _ _ _ _ H) as (okx & oky & Hx & Ex & Hy & Ey).
  fold k new_x new_y in Hx, Ex, Hy, Ey.
  assert (Hcase :
    Player._can_move_to (Player.x p') (Player.y p') m = Ok true
    \/ (okx = false /\ oky = false
        /\ Player.x p' = Player.x p /\ Player.y p' = Player.y p)).
  { destruct oky.
    - left. rewrite Ey. exact Hy.
    - destruct okx.
      + left. rewrite Ey, Ex. exact Hx.
      + right. auto. }
  split; [|split].
  - exists okx, oky. auto 6.
  - intros x y. apply probes_clear_true.
  - intros Hold. apply probes_clear_true.
    destruct Hcase as [Hc | (_ & _ & -> & ->)]; [exact Hc | exact Hold].
Qed.

(** A step along the corridor of [Examples.corridor]. *)
Lemma move_axis_separated_sound_witness :
  let p := Player.init 40 30 in
  let p' := {| Player.x := 40 + 2 * 1; Player.y := 30 + 0 * 1;
               Player.angle := 0; Player.has_flashlight := true;
               Player.stamina := MAX_STAMINA; Player.is_sprinting := false;
               Player.can_sprint := true |}%Q in
  Player.move p 2 0 Examples.corridor false = Ok p'
  /\ Forall (probe_ok Examples.corridor)
            (footprint 8 (Player.x p') (Player.y p')).
Proof.
  assert (E : Player.move (Player.init 40 30) 2 0 Examples.corridor false
              = Ok {| Player.x := 40 + 2 * 1; Player.y := 30 + 0 * 1;
                      Player.angle := 0; Player.has_flashlight := true;
                      Player.stamina := MAX_STAMINA;
                      Player.is_sprinting := false;
                      Player.can_sprint := true |}%Q) by reflexivity.
  split; [exact E|].
  apply (move_axis_separated_sound _ _ _ _ _ _ E). reflexivity.
Defined.

(** C3 as stated fails for a player who stands inside a wall, as in the
    level without rooms where [Game._init_level] puts the player at the
    centre of the screen: every candidate is refused, the player stays, and
    the position occupied after the move does not pass the probe test. *)
Lemma move_blocked_in_wall_counterexample :
  exists p', Player.move (Player.init 30 30) 2 0 Examples.all_walls false = Ok p'
             /\ Player._can_move_to (Player.x p') (Player.y p') Examples.all_walls
                = Ok false.
Proof. eexists. split; reflexivity. Qed.

(** ** Stamina and sprinting (C4) *)

Lemma py_max_bounds (v hi : Q) : (v <= hi -> 0 <= hi -> 0 <= py_max 0 v <= hi)%Q.
Proof.
  intros Hv Hhi. unfold py_max.
  destruct (Qle_bool v 0) eqn:E.
  - split; [apply Qle_refl | exact Hhi].
  - split; [|exact Hv].
    apply Qnot_lt_le. intros Hlt. apply Qlt_le_weak, Qle_bool_iff in Hlt.
    congruence.
Qed.

Lemma py_min_bounds (v hi : Q) : (0 <= v -> 0 <= hi -> 0 <= py_min hi v <= hi)%Q.
Proof.
  intros Hv Hhi. unfold py_min.
  destruct (Qle_bool hi v) eqn:E.
  - split; [exact Hhi | apply Qle_refl].
  - split; [exact Hv|].
    apply Qnot_lt_le. intros Hlt. apply Qlt_le_weak, Qle_bool_iff in Hlt.
    congruence.
Qed.

Lemma move_stamina (p p' : Player.t) (dx dy : Q) (m : LevelMap) (pressed : bool) :
  Player.move p dx dy m pressed = Ok p' ->
  (0 <= Player.stamina p <= MAX_STAMINA)%Q ->
  (0 <= Player.stamina p' <= MAX_STAMINA)%Q
  /\ ((Player.stamina p <= 0)%Q ->
      Player.can_sprint p' = false /\ Player.is_sprinting p' = false)
  /\ (Player.can_sprint p = false -> Player.can_sprint p' = true ->
      (MAX_STAMINA <= Player.stamina p)%Q)
  /\ (Player.can_sprint p = true -> Player.can_sprint p' = false ->
      (Player.stamina p <= 0)%Q).
Proof.
  unfold Player.move. intros H [Hlo Hhi].
  assert (Hmax : (0 <= MAX_STAMINA)%Q) by (unfold MAX_STAMINA; discriminate).
  set (flag := if Qle_bool (Player.stamina p) 0 then false
               else if Qle_bool MAX_STAMINA (Player.stamina p) then true
               else Player.can_sprint p) in *.
  assert (Hflag0 : (Player.stamina p <= 0)%Q -> flag = false).
  { intros Hz. apply Qle_bool_iff in Hz. subst flag. by rewrite Hz. }
  assert (Hup : Player.can_sprint p = false -> flag = true ->
                (MAX_STAMINA <= Player.stamina p)%Q).
  { subst flag. intros Hc.
    destruct (Qle_bool (Player.stamina p) 0); [discriminate|].
    destruct (Qle_bool MAX_STAMINA (Player.stamina p)) eqn:E; [|congruence].
    intros _. by apply Qle_bool_iff. }
  assert (Hdown : Player.can_sprint p = true -> flag = false ->
                  (Player.stamina p <= 0)%Q).
  { subst flag. intros Hc.
    destruct (Qle_bool (Player.stamina p) 0) eqn:E.
    - intros _. by apply Qle_bool_iff.
    - destruct (Qle_bool MAX_STAMINA (Player.stamina p)); congruence. }
  destruct (flag && pressed && _) eqn:Ecs; cbv zeta in H; cbv beta iota in H;
    inv_bind H; inv_bind H; injection H as <-; simpl.
  - apply andb_true_iff in Ecs as [Ecs _]. apply andb_true_iff in Ecs as [Ef _].
    split; [|split; [|split]]; auto.
    + apply py_max_bounds; [|exact Hmax].
      apply Qle_trans with (Player.stamina p); [|exact Hhi].
      rewrite <- (Qplus_0_r (Player.stamina p)) at 2.
      unfold Qminus. apply Qplus_le_r. discriminate.
    + intros Hz. apply Hflag0 in Hz. congruence.
  - split; [|split; [|split]]; auto.
    unfold Qlt_bool.
    destruct (Qle_bool MAX_STAMINA (Player.stamina p)) eqn:Efull; simpl.
    + split; assumption.
    + apply py_min_bounds; [|exact Hmax].
      apply Qle_trans with (Player.stamina p); [exact Hlo|].
      rewrite <- (Qplus_0_r (Player.stamina p)) at 1.
      apply Qplus_le_r. discriminate.
Qed.

(** C4.  In every state a player reaches, stamina lies in
    [[0, MAX_STAMINA]], and it still does after the next tick.  A tick that
    starts with stamina 0 clears the sprint allowance and leaves the player
    not sprinting; the allowance goes from cleared to set only on a tick
    that starts with stamina at [MAX_STAMINA], and from set to cleared only
    on a tick that starts with stamina 0. *)
Theorem stamina_bounds_and_hysteresis (m : LevelMap) (p : Player.t) :
  Player.reachable m p ->
  (0 <= Player.stamina p <= MAX_STAMINA)%Q
  /\ forall (dx dy : Q) (pressed : bool) (p' : Player.t),
      Player.move p dx dy m pressed = Ok p' ->
      (0 <= Player.stamina p' <= MAX_STAMINA)%Q
      /\ ((Player.stamina p <= 0)%Q ->
          Player.can_sprint p' = false /\ Player.is_sprinting p' = false)
      /\ (Player.can_sprint p = false -> Player.can_sprint p' = true ->
          (MAX_STAMINA <= Player.stamina p)%Q)
      /\ (Player.can_sprint p = true -> Player.can_sprint p' = false ->
          (Player.stamina p <= 0)%Q).
Proof.
  intros Hr.
  assert (Hb : (0 <= Player.stamina p <= MAX_STAMINA)%Q).
  { induction Hr as [x0 y0 | p dx dy pressed p' _ IH Hm].
    - simpl. split; [discriminate | apply Qle_refl].
    - exact (proj1 (move_stamina _ _ _ _ _ _ Hm IH)). }
  split; [exact Hb|].
  intros dx dy pressed p' Hm. exact (move_stamina _ _ _ _ _ _ Hm Hb).
Qed.

(** ** Arithmetic of [int()] and of ray marching *)

Lemma py_int_nonneg (x : Q) : 0 <= Qfloor x -> py_int x = Qfloor x.
Proof.
  intros Hx. unfold py_int.
  destruct (Qle_bool 0 x) eqn:E; [reflexivity|].
  exfalso. assert (Hle : (0 <= x)%Q).
  { apply Qle_trans with (inject_Z (Qfloor x)); [|apply Qfloor_le].
    change 0%Q with (inject_Z 0). by rewrite <- Zle_Qle. }
  apply Qle_bool_iff in Hle. congruence.
Qed.

Lemma py_int_mono (x y : Q) : (x <= y)%Q -> py_int x <= py_int y.
Proof.
  intros Hxy. unfold py_int.
  destruct (Qle_bool 0 x) eqn:Ex; destruct (Qle_bool 0 y) eqn:Ey.
  - by apply Qfloor_resp_le.
  - apply Qle_bool_iff in Ex. exfalso.
    assert (Hy : (0 <= y)%Q) by (eapply Qle_trans; eauto).
    apply Qle_bool_iff in Hy. congruence.
  - apply Qle_bool_iff in Ey.
    assert (Hx : (x <= 0)%Q).
    { apply Qnot_lt_le. intros Hlt. apply Qlt_le_weak, Qle_bool_iff in Hlt.
      congruence. }
    transitivity 0.
    + apply Qceiling_resp_le in Hx. exact Hx.
    + apply Qfloor_resp_le in Ey. exact Ey.
  - by apply Qceiling_resp_le.
Qed.

Lemma advance_S (v step : Q) (n : nat) :
  VisibilitySpec.advance v step (S n) = VisibilitySpec.advance (v + step)%Q step n.
Proof. reflexivity. Qed.

Lemma advance_le (v step : Q) (n : nat) :
  (0 <= step)%Q -> (v <= VisibilitySpec.advance v step n)%Q.
Proof.
  intros Hs. revert v. induction n as [|n IH]; intros v; simpl.
  - apply Qle_refl.
  - eapply Qle_trans; [|apply IH].
    rewrite <- (Qplus_0_r v) at 1. by apply Qplus_le_r.
Qed.

Lemma advance_mono (v step : Q) (k n : nat) :
  (0 <= step)%Q -> (k <= n)%nat ->
  (VisibilitySpec.advance v step k <= VisibilitySpec.advance v step n)%Q.
Proof.
  intros Hs. revert v n. induction k as [|k IH]; intros v n Hkn.
  - by apply advance_le.
  - destruct n as [|n]; [lia|]. simpl. apply IH. lia.
Qed.

(** ** Ray casting *)

Lemma Qlt_bool_true (a b : Q) : Qlt_bool a b = true <-> (a < b)%Q.
Proof.
  unfold Qlt_bool. rewrite negb_true_iff. split.
  - intros E. apply Qnot_le_lt. intros Hle. apply Qle_bool_iff in Hle. congruence.
  - intros Hlt. destruct (Qle_bool b a) eqn:E; [|reflexivity].
    apply Qle_bool_iff in E. exfalso. eapply Qlt_not_le; eauto.
Qed.

Lemma Qlt_bool_false (a b : Q) : Qlt_bool a b = false <-> (b <= a)%Q.
Proof.
  unfold Qlt_bool. rewrite negb_false_iff. apply Qle_bool_iff.
Qed.

Lemma cast_ray_loop_frame (fuel : nat) (dx dy x y d maxd : Q) (g g' : Game.t) :
  Game._cast_ray_loop fuel dx dy x y d maxd g = Ok g' ->
  Game.level_map g' = Game.level_map g
  /\ Game.rooms g' = Game.rooms g
  /\ Game.player g' = Game.player g
  /\ Game.explored_tiles g' = Game.explored_tiles g.
Proof.
  revert x y d g. induction fuel as [|fuel IH]; intros x y d g; simpl.
  - discriminate.
  - destruct (Qlt_bool d maxd); [|intros [= <-]; auto].
    intros Hrun. inv_bind Hrun.
    destruct v; simpl in Hrun; [|injection Hrun as <-; auto].
    inv_bind Hrun.
    destruct (bool_decide (v = WALL)); [injection Hrun as <-; auto|].
    apply IH in Hrun. exact Hrun.
Qed.

Lemma ray_marks_step (m : LevelMap) (x y dx dy d maxd : Q) (tile : TileType) (c : cell) :
  (d < maxd)%Q ->
  in_bounds (py_int x) (py_int y) m = Ok true ->
  tile_at m (py_int x) (py_int y) = Ok tile -> tile <> WALL ->
  VisibilitySpec.ray_marks m x y dx dy d maxd c
  <-> c = (py_int x, py_int y)
      \/ VisibilitySpec.ray_marks m (x + dx * 0.1)%Q (y + dy * 0.1)%Q dx dy
           (d + 0.1)%Q maxd c.
Proof.
  intros Hd Hin Ht Hw. split.
  - intros (n & Hn & Hc & Hb & Htr). destruct n as [|n].
    + left. symmetry. exact Hc.
    + right. exists n. split; [exact Hn|]. split; [exact Hc|]. split.
      * intros k Hk. apply (Hb (S k)). lia.
      * intros k Hk. apply (Htr (S k)). lia.
  - intros [-> | (n & Hn & Hc & Hb & Htr)].
    + exists O. split; [exact Hd|]. split; [reflexivity|]. split.
      * intros k Hk. assert (k = O) as -> by lia. exact Hin.
      * intros k Hk. lia.
    + exists (S n). split; [exact Hn|]. split; [exact Hc|]. split.
      * intros [|k] Hk; [exact Hin|]. apply Hb. lia.
      * intros [|k] Hk; [exists tile; auto|]. apply Htr. lia.
Qed.

Lemma cast_ray_loop_spec (fuel : nat) (dx dy x y d maxd : Q) (g g' : Game.t) :
  Game._cast_ray_loop fuel dx dy x y d maxd g = Ok g' ->
  forall c : cell,
    c ∈ Game.visible_tiles g'
    <-> c ∈ Game.visible_tiles g
        \/ VisibilitySpec.ray_marks (Game.level_map g) x y dx dy d maxd c.
Proof.
  revert x y d g. induction fuel as [|fuel IH]; intros x y d g; simpl.
  - discriminate.
  - destruct (Qlt_bool d maxd) eqn:Eg.
    + apply Qlt_bool_true in Eg. intros Hrun c. inv_bind Hrun.
      destruct v; simpl in Hrun.
      * inv_bind Hrun. destruct (bool_decide (v = WALL)) eqn:Ew.
        -- apply bool_decide_eq_true in Ew. subst v. injection Hrun as <-.
           simpl. rewrite elem_of_union, elem_of_singleton. split.
           ++ intros [-> | Hc]; [right | by left].
              exists O. split; [exact Eg|]. split; [reflexivity|]. split.
              ** intros k Hk. assert (k = O) as -> by lia. exact E.
              ** intros k Hk. lia.
           ++ intros [Hc | (n & _ & Hc & _ & Htr)]; [by right|].
              destruct n as [|n]; [left; symmetry; exact Hc|].
              destruct (Htr O ltac:(lia)) as (tile & Ht & Hw).
              simpl in Ht. rewrite E0 in Ht. congruence.
        -- apply bool_decide_eq_false in Ew.
           rewrite (IH _ _ _ _ Hrun c). simpl.
           rewrite elem_of_union, elem_of_singleton.
           rewrite (ray_marks_step _ x y dx dy d maxd v c Eg E E0 Ew). tauto.
      * injection Hrun as <-. split; [by left|].
        intros [Hc | (n & _ & _ & Hb & _)]; [exact Hc|].
        specialize (Hb O ltac:(lia)). simpl in Hb. congruence.
    + apply Qlt_bool_false in Eg. intros [= <-] c. split; [by left|].
      intros [Hc | (n & Hn & _)]; [exact Hc|]. exfalso.
      eapply Qlt_not_le; [exact Hn|].
      eapply Qle_trans; [exact Eg|]. apply advance_le. discriminate.
Qed.

(** ** The two sources of visibility *)

Lemma same_level_refl (g : Game.t) : same_level g g.
Proof. repeat split. Qed.

Lemma same_level_trans (g1 g2 g3 : Game.t) :
  same_level g1 g2 -> same_level g2 g3 -> same_level g1 g3.
Proof.
  intros (A1 & A2 & A3 & A4) (B1 & B2 & B3 & B4).
  repeat split; congruence.
Qed.

Lemma elem_of_py_range (a b v : Z) : v ∈ py_range a b <-> a <= v < b.
Proof. unfold py_range. rewrite elem_of_seqZ. lia. Qed.

Lemma elem_of_py_range_step2 (a b v : Z) :
  v ∈ py_range_step a (b + 1) 2 <-> exists i, 0 <= i /\ v = a + 2 * i /\ v <= b.
Proof.
  unfold py_range_step. rewrite list_elem_of_fmap. split.
  - intros (i & -> & Hi). apply elem_of_seqZ in Hi. exists i.
    split; [lia|]. split; [lia|].
    assert (i < (b + 1 - a + 2 - 1) / 2) by lia.
    assert (2 * ((b + 1 - a + 2 - 1) / 2) <= b + 1 - a + 2 - 1)
      by (apply Z.mul_div_le; lia).
    lia.
  - intros (i & Hi & -> & Hb). exists i. split; [lia|].
    apply elem_of_seqZ. split; [lia|].
    assert (i + 1 <= (b + 1 - a + 2 - 1) / 2); [|lia].
    apply Z.div_le_lower_bound; lia.
Qed.

Lemma find_first_room (rooms : list Room.t) (gx gy : Z) (room : Room.t) :
  List.find (fun r => Game.room_contains r gx gy) rooms = Some room
  <-> VisibilitySpec.first_room_containing rooms gx gy room.
Proof.
  induction rooms as [|r rooms IH]; simpl.
  - split; [discriminate|]. intros (i & Hi & _). by destruct i.
  - destruct (Game.room_contains r gx gy) eqn:Er.
    + split.
      * intros [= <-]. exists O. split; [reflexivity|]. split; [exact Er|].
        intros j r' Hj. lia.
      * intros (i & Hi & Hc & Hfirst). destruct i as [|i].
        -- simpl in Hi. congruence.
        -- specialize (Hfirst O r ltac:(lia) eq_refl). congruence.
    + rewrite IH. split.
      * intros (i & Hi & Hc & Hfirst). exists (S i).
        split; [exact Hi|]. split; [exact Hc|].
        intros [|j] r' Hj Hr'; simpl in Hr'; [congruence|].
        apply (Hfirst j); [lia | exact Hr'].
      * intros (i & Hi & Hc & Hfirst). destruct i as [|i].
        -- simpl in Hi. congruence.
        -- exists i. split; [exact Hi|]. split; [exact Hc|].
           intros j r' Hj Hr'. apply (Hfirst (S j)); [lia | exact Hr'].
Qed.

Lemma light_row_spec (m : LevelMap) (y : Z) (xs : list Z) (g g' : Game.t) :
  Game.level_map g = m ->
  for_each xs
    (fun self x =>
       inb ← in_bounds x y (Game.level_map self);
       Ok (if (inb : bool)
           then Game.set_visible_tiles self ({[ (x, y) ]} ∪ Game.visible_tiles self)
           else self)) g = Ok g' ->
  same_level g g'
  /\ forall c : cell,
      c ∈ Game.visible_tiles g'
      <-> c ∈ Game.visible_tiles g
          \/ (c.2 = y /\ c.1 ∈ xs /\ in_bounds c.1 c.2 m = Ok true).
Proof.
  intros Hm. revert g Hm. induction xs as [|x xs IH]; intros g Hm; simpl.
  - intros [= <-]. split; [apply same_level_refl|].
    intros c. split; [by left|]. intros [Hc | (_ & Hx & _)]; [exact Hc|].
    by apply elem_of_nil in Hx.
  - intros Hrun. inv_bind Hrun. inv_bind E. injection E as <-.
    rewrite Hm in E0.
    assert (Hsl : same_level g (if v0 then Game.set_visible_tiles g
                     ({[ (x, y) ]} ∪ Game.visible_tiles g) else g)).
    { destruct v0; repeat split. }
    apply IH in Hrun; [|destruct v0; exact Hm].
    destruct Hrun as [Hsl' Hvis].
    split; [eapply same_level_trans; eauto|].
    intros [cx cy]. rewrite Hvis. simpl. rewrite elem_of_cons.
    destruct v0; simpl.
    + rewrite elem_of_union, elem_of_singleton. split.
      * intros [[[= -> ->] | Hc] | (Hy & Hx & Hb)]; [right| by left | right]; auto.
      * intros [Hc | (-> & [-> | Hx] & Hb)]; auto.
    + split.
      * intros [Hc | (Hy & Hx & Hb)]; auto.
      * intros [Hc | (-> & [-> | Hx] & Hb)]; auto. congruence.
Qed.

Lemma light_rows_spec (m : LevelMap) (xs ys : list Z) (g g' : Game.t) :
  Game.level_map g = m ->
  for_each ys
    (fun self y =>
       for_each xs
         (fun self x =>
            inb ← in_bounds x y (Game.level_map self);
            Ok (if (inb : bool)
                then Game.set_visible_tiles self ({[ (x, y) ]} ∪ Game.visible_tiles self)
                else self)) self) g = Ok g' ->
  same_level g g'
  /\ forall c : cell,
      c ∈ Game.visible_tiles g'
      <-> c ∈ Game.visible_tiles g
          \/ (c.2 ∈ ys /\ c.1 ∈ xs /\ in_bounds c.1 c.2 m = Ok true).
Proof.
  intros Hm. revert g Hm. induction ys as [|y ys IH]; intros g Hm; simpl.
  - intros [= <-]. split; [apply same_level_refl|].
    intros c. split; [by left|]. intros [Hc | (Hy & _)]; [exact Hc|].
    by apply elem_of_nil in Hy.
  - intros Hrun. inv_bind Hrun.
    destruct (light_row_spec m y xs g v Hm E) as [Hsl Hrow].
    assert (Hm' : Game.level_map v = m) by (destruct Hsl as [-> _]; exact Hm).
    destruct (IH v Hm' Hrun) as [Hsl' Hvis].
    split; [eapply same_level_trans; eauto|].
    intros c. rewrite Hvis, Hrow, elem_of_cons. split.
    + intros [[Hc | (Hy & Hx & Hb)] | (Hy & Hx & Hb)]; auto.
    + intros [Hc | ([Hy | Hy] & Hx & Hb)]; auto.
Qed.

Lemma light_room_spec (g g' : Game.t) :
  Game.light_room g = Ok g' ->
  same_level g g'
  /\ forall c : cell,
      c ∈ Game.visible_tiles g'
      <-> c ∈ Game.visible_tiles g \/ VisibilitySpec.lit_room_cells g c.
Proof.
  unfold Game.light_room, VisibilitySpec.lit_room_cells.
  destruct (Game._get_current_room g) as [room|] eqn:Eroom.
  - apply find_first_room in Eroom as Hfirst.
    destruct (Room.is_lit room) eqn:Elit.
    + intros Hrun.
      destruct (light_rows_spec _ _ _ _ _ eq_refl Hrun) as [Hsl Hvis].
      split; [exact Hsl|]. intros c. rewrite Hvis.
      rewrite !elem_of_py_range. split.
      * intros [Hc | (Hy & Hx & Hb)]; [by left|]. right. exists room. auto.
      * intros [Hc | (room' & Hfirst' & _ & Hx & Hy & Hb)]; [by left|].
        apply find_first_room in Hfirst'.
        unfold Game._get_current_room in Eroom.
        assert (room' = room) as -> by congruence. auto.
    + intros [= <-]. split; [apply same_level_refl|].
      intros c. split; [by left|].
      intros [Hc | (room' & Hfirst' & Hlit & _)]; [exact Hc|].
      apply find_first_room in Hfirst'.
      unfold Game._get_current_room in Eroom.
      assert (room' = room) as -> by congruence. congruence.
  - intros [= <-]. split; [apply same_level_refl|].
    intros c. split; [by left|].
    intros [Hc | (room' & Hfirst' & _)]; [exact Hc|].
    apply find_first_room in Hfirst'.
    unfold Game._get_current_room in Eroom. congruence.
Qed.

Section Flashlight.
Context `{MathLib}.

Lemma cast_rays_spec (angles : list Z) (g0 g g' : Game.t) :
  same_level g0 g ->
  for_each angles
    (fun self angle =>
       Game._cast_ray self
         (Player.x (Game.player self) / inject_Z TILE_SIZE)%Q
         (Player.y (Game.player self) / inject_Z TILE_SIZE)%Q
         (math_radians (inject_Z angle))
         (inject_Z (FLASHLIGHT_RANGE / TILE_SIZE))) g = Ok g' ->
  same_level g0 g'
  /\ forall c : cell,
      c ∈ Game.visible_tiles g'
      <-> c ∈ Game.visible_tiles g \/ exists a, a ∈ angles /\ player_ray g0 a c.
Proof.
  revert g. induction angles as [|a angles IH]; intros g Hsl; simpl.
  - intros [= <-]. split; [exact Hsl|].
    intros c. split; [by left|]. intros [Hc | (a & Ha & _)]; [exact Hc|].
    by apply elem_of_nil in Ha.
  - intros Hrun. inv_bind Hrun. unfold Game._cast_ray in E.
    pose proof (cast_ray_loop_frame _ _ _ _ _ _ _ _ _ E) as Hfr.
    pose proof (cast_ray_loop_spec _ _ _ _ _ _ _ _ _ E) as Hray.
    assert (Hsl1 : same_level g0 v) by (eapply same_level_trans; eauto).
    destruct (IH v Hsl1 Hrun) as [Hsl2 Hvis].
    split; [exact Hsl2|]. intros c. rewrite Hvis, Hray.
    destruct Hsl as (-> & _ & -> & _).
    change (inject_Z (FLASHLIGHT_RANGE / TILE_SIZE)) with 4%Q.
    fold (player_ray g0 a c). split.
    + intros [[Hc | Hr] | (a' & Ha' & Hr)]; [by left | right | right].
      * exists a. split; [apply elem_of_cons; by left | exact Hr].
      * exists a'. split; [apply elem_of_cons; by right | exact Hr].
    + intros [Hc | (a' & Ha' & Hr)]; [by left; left|].
      apply elem_of_cons in Ha' as [-> | Ha']; [left; by right|].
      right. exists a'. auto.
Qed.

Lemma flashlight_spec (g g' : Game.t) :
  Player.has_flashlight (Game.player g) = true ->
  Game._calculate_flashlight_visibility g = Ok g' ->
  same_level g g'
  /\ forall c : cell,
      c ∈ Game.visible_tiles g'
      <-> c ∈ Game.visible_tiles g \/ VisibilitySpec.flashlight_cells g c.
Proof.
  unfold Game._calculate_flashlight_visibility. intros -> Hrun. simpl in Hrun.
  destruct (cast_rays_spec _ g g g' (same_level_refl g) Hrun) as [Hsl Hvis].
  split; [exact Hsl|]. intros c. rewrite Hvis.
  unfold VisibilitySpec.flashlight_cells, VisibilitySpec.sampled_angle.
  unfold Game.ray_angles.
  change (inject_Z (FLASHLIGHT_ANGLE / 2)) with 30%Q.
  split; (intros [Hc | (a & Ha & Hr)]; [by left | right; exists a]).
  - apply elem_of_py_range_step2 in Ha. split; [exact Ha | exact Hr].
  - split; [by apply elem_of_py_range_step2 | exact Hr].
Qed.

End Flashlight.

(** ** Exploration memory *)

Lemma refresh_explored_lookup (g : Game.t) (c : cell) :
  Game.explored_tiles (Game.refresh_explored g) !! c
  = if bool_decide (c ∈ Game.visible_tiles g) then Some 1%float
    else Game.explored_tiles g !! c.
Proof.
  unfold Game.refresh_explored. simpl.
  set (P := fun (e : gmap cell float) (X : gset cell) =>
              e !! c = if bool_decide (c ∈ X) then Some 1%float
                       else Game.explored_tiles g !! c).
  change (P (set_fold (fun tile e => <[tile := 1%float]> e)
                      (Game.explored_tiles g) (Game.visible_tiles g))
            (Game.visible_tiles g)).
  apply set_fold_ind_L; unfold P.
  - rewrite bool_decide_eq_false_2; [reflexivity | set_solver].
  - intros x X e Hx IH. destruct (decide (x = c)) as [-> | Hne].
    + rewrite lookup_insert_eq. rewrite bool_decide_eq_true_2; [reflexivity | set_solver].
    + rewrite lookup_insert_ne by exact Hne. rewrite IH.
      destruct (bool_decide (c ∈ X)) eqn:Ec.
      * apply bool_decide_eq_true in Ec.
        rewrite bool_decide_eq_true_2; [reflexivity | set_solver].
      * apply bool_decide_eq_false in Ec.
        rewrite bool_decide_eq_false_2; [reflexivity | set_solver].
Qed.

Lemma update_fade_timers_lookup (g : Game.t) (c : cell) :
  Game.explored_tiles (Game._update_fade_timers g) !! c
  = Game.explored_tiles g !! c ≫= Game.fade_entry (Game.visible_tiles g) c.
Proof. unfold Game._update_fade_timers. simpl. apply map_lookup_imap. Qed.

(** ** Rectangular maps never raise *)

Lemma py_index_in_range {A : Type} (l : list A) (i : Z) :
  0 <= i < Z.of_nat (length l) -> exists a, py_index l i = Ok a /\ l !! Z.to_nat i = Some a.
Proof.
  intros Hi. unfold py_index.
  destruct (i <? 0) eqn:Eneg; [lia|].
  destruct ((0 <=? i) && (i <? Z.of_nat (length l))) eqn:Er.
  - destruct (l !! Z.to_nat i) as [a|] eqn:El; [eauto|].
    apply lookup_ge_None in El. lia.
  - apply andb_false_iff in Er as [Er | Er]; lia.
Qed.

Lemma in_bounds_total (m : LevelMap) (gx gy : Z) :
  rectangular m -> exists b, in_bounds gx gy m = Ok b.
Proof.
  intros (row0 & rest & -> & _). unfold in_bounds.
  destruct (0 <=? gx); [|eauto]. simpl.
  destruct (gx <? Z.of_nat (length row0)); eauto.
Qed.

Lemma in_bounds_true (m : LevelMap) (gx gy : Z) :
  in_bounds gx gy m = Ok true ->
  exists row0, m !! O = Some row0
               /\ 0 <= gx < Z.of_nat (length row0)
               /\ 0 <= gy < Z.of_nat (length m).
Proof.
  unfold in_bounds. destruct (0 <=? gx) eqn:E0; [|discriminate].
  intros Hb. inv_bind Hb.
  destruct (gx <? Z.of_nat (length v)) eqn:E1; [|discriminate].
  injection Hb as Hb. apply andb_true_iff in Hb as [E2 E3].
  exists v. split; [|lia].
  destruct m as [|row0 rest]; [discriminate|].
  destruct (py_index_in_range (row0 :: rest) 0) as (a & Ea & Hl);
    [simpl; lia|].
  simpl in Hl. simpl. congruence.
Qed.

Lemma tile_at_total (m : LevelMap) (gx gy : Z) :
  rectangular m -> in_bounds gx gy m = Ok true ->
  exists tile, tile_at m gx gy = Ok tile.
Proof.
  intros Hrect Hb. apply in_bounds_true in Hb as (row0' & Hr0 & Hx & Hy).
  destruct Hrect as (row0 & rest & -> & Hall). simpl in Hr0.
  injection Hr0 as <-. unfold tile_at.
  destruct (py_index_in_range (row0 :: rest) gy Hy) as (row & -> & Hrow).
  simpl.
  assert (Hlen : length row = length row0).
  { destruct (Z.to_nat gy) as [|n] eqn:En; simpl in Hrow.
    - congruence.
    - rewrite Forall_forall in Hall. apply Hall.
      apply list_elem_of_lookup. eauto. }
  destruct (py_index_in_range row gx) as (tile & -> & _); [lia | eauto].
Qed.

Lemma for_each_total {A S : Type} (Inv : S -> Prop) (l : list A)
  (body : S -> A -> outcome S) (s : S) :
  (forall s a, Inv s -> exists s', body s a = Ok s' /\ Inv s') ->
  Inv s -> exists s', for_each l body s = Ok s' /\ Inv s'.
Proof.
  intros Hbody. revert s. induction l as [|a l IH]; intros s Hs; simpl.
  - eauto.
  - destruct (Hbody s a Hs) as (s1 & -> & Hs1). simpl. by apply IH.
Qed.

Lemma light_room_total (g : Game.t) :
  rectangular (Game.level_map g) -> exists g', Game.light_room g = Ok g'.
Proof.
  intros Hrect. unfold Game.light_room.
  destruct (Game._get_current_room g) as [room|]; [|eauto].
  destruct (Room.is_lit room); [|eauto].
  assert (Hloop : forall (l : list Z) (body : Game.t -> Z -> outcome Game.t),
             (forall s a, rectangular (Game.level_map s) ->
                exists s', body s a = Ok s' /\ rectangular (Game.level_map s')) ->
             exists g', for_each l body g = Ok g').
  { intros l body Hb.
    destruct (for_each_total (fun s : Game.t => rectangular (Game.level_map s))
                l body g Hb Hrect) as (g' & Hg' & _).
    eauto. }
  apply Hloop. intros s y Hs.
  apply (for_each_total (fun s : Game.t => rectangular (Game.level_map s)));
    [|exact Hs].
  clear s Hs. intros s x Hs.
  destruct (in_bounds_total _ x y Hs) as (b & ->). simpl.
  eexists. split; [reflexivity|]. by destruct b.
Qed.

Lemma cast_ray_loop_total (fuel : nat) (dx dy x y d maxd : Q) (g : Game.t) :
  rectangular (Game.level_map g) ->
  (maxd <= d + inject_Z (Z.of_nat fuel) * 0.1)%Q ->
  exists g', Game._cast_ray_loop (S fuel) dx dy x y d maxd g = Ok g'.
Proof.
  revert x y d g. induction fuel as [|fuel IH]; intros x y d g Hrect Hfuel.
  - simpl. assert (E : Qlt_bool d maxd = false).
    { apply Qlt_bool_false. eapply Qle_trans; [exact Hfuel|].
      rewrite Qmult_0_l, Qplus_0_r. apply Qle_refl. }
    rewrite E. eauto.
  - cbn [Game._cast_ray_loop]. destruct (Qlt_bool d maxd); [|eauto].
    destruct (in_bounds_total _ (py_int x) (py_int y) Hrect) as (b & Eb).
    rewrite Eb. cbn [mbind outcome_bind]. destruct b; cbn [negb]; [|eauto].
    destruct (tile_at_total _ _ _ Hrect Eb) as (tile & Et).
    change (Game.level_map g)
      with (Game.level_map
              (Game.set_visible_tiles g
                 ({[ (py_int x, py_int y) ]} ∪ Game.visible_tiles g))) in Et.
    rewrite Et. cbn [mbind outcome_bind].
    destruct (bool_decide (tile = WALL)); [eauto|].
    apply IH; [exact Hrect|].
    assert (Heq : (d + inject_Z (Z.of_nat (S fuel)) * 0.1
                   == d + 0.1 + inject_Z (Z.of_nat fuel) * 0.1)%Q).
    { rewrite Nat2Z.inj_succ, <- Z.add_1_r, inject_Z_plus. ring. }
    rewrite <- Heq. exact Hfuel.
Qed.

(** ** The per-tick visibility update (C5, C10) *)

Section Visibility.
Context `{MathLib}.

Lemma update_visibility_inv (g g' : Game.t) :
  Player.has_flashlight (Game.player g) = true ->
  Game._update_visibility g = Ok g' ->
  Game.level_map g' = Game.level_map g
  /\ (forall c : cell,
        c ∈ Game.visible_tiles g'
        <-> VisibilitySpec.lit_room_cells g c \/ VisibilitySpec.flashlight_cells g c)
  /\ (forall c : cell,
        Game.explored_tiles g' !! c
        = if bool_decide (c ∈ Game.visible_tiles g') then Some 1%float
          else Game.explored_tiles g !! c
               ≫= Game.fade_entry (Game.visible_tiles g') c).
Proof.
  unfold Game._update_visibility. intros Hfl Hrun.
  inv_bind Hrun. inv_bind Hrun. injection Hrun as <-.
  destruct (light_room_spec _ _ E) as [Hsl1 Hlit].
  assert (Hfl1 : Player.has_flashlight (Game.player v) = true).
  { destruct Hsl1 as (_ & _ & -> & _). exact Hfl. }
  destruct (flashlight_spec _ _ Hfl1 E0) as [Hsl2 Hray].
  split; [|split].
  - simpl. destruct Hsl2 as (-> & _), Hsl1 as (-> & _). reflexivity.
  - intros c. simpl. rewrite Hray, Hlit. simpl.
    assert (Hsame : VisibilitySpec.flashlight_cells v c
                    <-> VisibilitySpec.flashlight_cells g c).
    { unfold VisibilitySpec.flashlight_cells.
      destruct Hsl1 as (-> & _ & -> & _). reflexivity. }
    rewrite Hsame.
    change (VisibilitySpec.lit_room_cells (Game.set_visible_tiles g ∅) c)
      with (VisibilitySpec.lit_room_cells g c).
    split; [intros [[Hc | Hc] | Hc] | intros [Hc | Hc]]; auto.
    by apply not_elem_of_empty in Hc.
  - intros c. rewrite refresh_explored_lookup.
    change (Game.visible_tiles (Game._update_fade_timers v0))
      with (Game.visible_tiles v0).
    change (Game.visible_tiles (Game.refresh_explored (Game._update_fade_timers v0)))
      with (Game.visible_tiles v0).
    rewrite update_fade_timers_lookup.
    destruct Hsl2 as (_ & _ & _ & ->), Hsl1 as (_ & _ & _ & ->). reflexivity.
Qed.


Lemma update_visibility_total (g : Game.t) :
  rectangular (Game.level_map g) ->
  exists g', Game._update_visibility g = Ok g'.
Proof.
  intros Hrect. unfold Game._update_visibility.
  destruct (light_room_total (Game.set_visible_tiles g ∅) Hrect) as (g1 & E1).
  rewrite E1. cbn [mbind outcome_bind].
  destruct (light_room_spec _ _ E1) as [(Hm1 & _) _].
  assert (Hrect1 : rectangular (Game.level_map g1)) by (rewrite Hm1; exact Hrect).
  unfold Game._calculate_flashlight_visibility.
  destruct (negb (Player.has_flashlight (Game.player g1))).
  - cbn [mbind outcome_bind]. eauto.
  - edestruct (for_each_total (fun s : Game.t => rectangular (Game.level_map s))
                 (Game.ray_angles (Player.angle (Game.player g1))))
      as (g2 & E2 & _); [| exact Hrect1 | rewrite E2; cbn [mbind outcome_bind]; eauto].
    intros s a Hs. unfold Game._cast_ray.
    change (Game.ray_fuel (inject_Z (FLASHLIGHT_RANGE / TILE_SIZE))) with 41%nat.
    change (inject_Z (FLASHLIGHT_RANGE / TILE_SIZE)) with 4%Q.
    match goal with
    | |- exists s', Game._cast_ray_loop _ ?dx ?dy ?x ?y _ _ _ = _ /\ _ =>
        destruct (cast_ray_loop_total 40 dx dy x y 0 4 s Hs) as (s' & Es');
          [vm_compute; discriminate|]
    end.
    exists s'. split; [exact Es'|].
    apply cast_ray_loop_frame in Es' as (-> & _). exact Hs.
Qed.

Lemma ray_angles_first (heading : Q) :
  VisibilitySpec.sampled_angle heading (py_int (heading - 30)%Q).
Proof.
  exists 0. split; [lia|]. split; [lia|].
  apply py_int_mono. unfold Qminus.
  apply Qplus_le_r. discriminate.
Qed.

(** C10.  On a rectangular map, with the flashlight in hand, the update
    returns; if the player's grid cell is on the map, that cell is in the
    visible set afterwards (the first ray marks its starting cell before it
    tests for a wall), and its exploration strength is exactly 1.0. *)
Theorem player_cell_visible_and_fresh (g : Game.t) :
  rectangular (Game.level_map g) ->
  Player.has_flashlight (Game.player g) = true ->
  in_bounds (grid_of (Player.x (Game.player g)))
            (grid_of (Player.y (Game.player g))) (Game.level_map g) = Ok true ->
  exists g',
    Game._update_visibility g = Ok g'
    /\ (grid_of (Player.x (Game.player g)), grid_of (Player.y (Game.player g)))
         ∈ Game.visible_tiles g'
    /\ Game.explored_tiles g'
         !! (grid_of (Player.x (Game.player g)), grid_of (Player.y (Game.player g)))
       = Some 1%float.
Proof.
  intros Hrect Hfl Hin.
  destruct (update_visibility_total g Hrect) as (g' & Hrun).
  exists g'. split; [exact Hrun|].
  destruct (update_visibility_inv g g' Hfl Hrun) as (_ & Hvis & Hexp).
  assert (Hc : (grid_of (Player.x (Game.player g)),
                grid_of (Player.y (Game.player g))) ∈ Game.visible_tiles g').
  { apply Hvis. right.
    exists (py_int (Player.angle (Game.player g) - 30)%Q).
    split; [apply ray_angles_first|].
    destruct (in_bounds_true _ _ _ Hin) as (row0 & _ & Hx & Hy).
    assert (Ex : py_int (Player.x (Game.player g) / inject_Z TILE_SIZE)
                 = grid_of (Player.x (Game.player g)))
      by (apply py_int_nonneg; unfold grid_of in Hx; lia).
    assert (Ey : py_int (Player.y (Game.player g) / inject_Z TILE_SIZE)
                 = grid_of (Player.y (Game.player g)))
      by (apply py_int_nonneg; unfold grid_of in Hy; lia).
    exists O. split; [reflexivity|]. split.
    - unfold VisibilitySpec.ray_cell. simpl. by rewrite Ex, Ey.
    - split.
      + intros k Hk. assert (k = O) as -> by lia.
        unfold VisibilitySpec.ray_cell. simpl. rewrite Ex, Ey. exact Hin.
      + intros k Hk. lia. }
  split; [exact Hc|].
  rewrite Hexp. by rewrite bool_decide_eq_true_2.
Qed.

End Visibility.


Lemma player_cell_visible_and_fresh_witness :
  exists g',
    @Game._update_visibility Examples.axis_math Examples.corridor_game = Ok g'
    /\ (2, 1) ∈ Game.visible_tiles g'
    /\ Game.explored_tiles g' !! (2, 1) = Some 1%float.
Proof.
  apply (@player_cell_visible_and_fresh Examples.axis_math Examples.corridor_game).
  - exists [WALL; WALL; WALL; WALL; WALL; WALL],
      [ [WALL; FLOOR; FLOOR; FLOOR; FLOOR; WALL];
        [WALL; WALL; WALL; WALL; WALL; WALL] ].
    split; [reflexivity|]. repeat constructor.
  - reflexivity.
  - reflexivity.
Defined.

(** ** The decay of exploration memory (C6) *)

(** One tick of the update, for a cell outside the new visible set: the
    stored strength loses [FADE_RATE], and the entry goes once the result is
    not positive.  A cell inside the visible set is stored with 1.0. *)
Lemma exploration_tick `{MathLib} (g g' : Game.t) (c : cell) :
  Player.has_flashlight (Game.player g) = true ->
  Game._update_visibility g = Ok g' ->
  Game.explored_tiles g' !! c
  = if bool_decide (c ∈ Game.visible_tiles g') then Some 1%float
    else v ← Game.explored_tiles g !! c;
         let v' := py_fmax0 (PrimFloat.sub v FADE_RATE) in
         if PrimFloat.leb v' 0%float then None else Some v'.
Proof.
  intros Hfl Hrun.
  destruct (update_visibility_inv g g' Hfl Hrun) as (_ & _ & Hexp).
  rewrite Hexp. destruct (bool_decide (c ∈ Game.visible_tiles g')) eqn:Ec;
    [reflexivity|].
  destruct (Game.explored_tiles g !! c) as [v|]; [|reflexivity].
  simpl. unfold Game.fade_entry. by rewrite Ec.
Qed.

(** C6 on the code: a cell stored with strength 1.0 and not seen for 300
    ticks is still in the map, with the residue that 300 binary64
    subtractions of [1.0 / 300] leave ([0x1.149p-48], about [3.84e-15]); it
    is forgotten one tick later.
    After two ticks already the stored value is not the binary64 value of
    [1.0 - 2 * FADE_RATE]. *)
Theorem fade_residue_after_300_ticks :
  Game.explored_tiles (Examples.unseen_ticks 300 Examples.remembering_game)
    !! (4, 1) = Some 0x1.149p-48%float
  /\ Game.explored_tiles (Examples.unseen_ticks 301 Examples.remembering_game)
       !! (4, 1) = None
  /\ Game.explored_tiles (Examples.unseen_ticks 2 Examples.remembering_game)
       !! (4, 1) = Some 0x1.fc962fc962fcap-1%float
  /\ PrimFloat.sub 1%float (PrimFloat.mul 2%float FADE_RATE)
     = 0x1.fc962fc962fc9p-1%float.
Proof. repeat split; vm_compute; reflexivity. Qed.

(** ** The entity (C7, C9) *)

Section EntityProofs.
Context `{MathLib}.

Lemma spawn_loop_inv (n : nat) (px py : Q) (vis : gset cell) (m : LevelMap)
  (r r' : Random) (sx sy : Q) :
  Entity.spawn_loop n px py vis m r = Ok (Some (sx, sy), r') ->
  in_bounds (grid_of sx) (grid_of sy) m = Ok true
  /\ tile_at m (grid_of sx) (grid_of sy) = Ok FLOOR
  /\ ((grid_of sx, grid_of sy) ∉ vis)
  /\ exists (distance : Z) (a : Q),
       120 <= distance <= 180
       /\ sx = (px + math_cos a * inject_Z distance)%Q
       /\ sy = (py + math_sin a * inject_Z distance)%Q.
Proof.
  revert r. induction n as [|n IH]; intros r Hrun;
    cbn [Entity.spawn_loop] in Hrun.
  - discriminate.
  - inv_bind Hrun. destruct v as [distance r1].
    assert (Hd : 120 <= distance <= 180).
    { by apply randint_bounds in E. }
    destruct (uniform 0 (2 * math_pi) r1) as [a r2] eqn:Eu.
    inv_bind Hrun. inv_bind Hrun.
    destruct (v0 && negb (bool_decide (_ ∈ vis))) eqn:Eacc.
    + injection Hrun as <- <- <-.
      apply andb_true_iff in Eacc as [-> Evis].
      apply negb_true_iff, bool_decide_eq_false in Evis.
      destruct v; [|discriminate].
      inv_bind E1. injection E1 as E1. apply bool_decide_eq_true in E1. subst v.
      split; [exact E0|]. split; [exact E2|]. split; [exact Evis|].
      exists distance, a. auto.
    + apply IH in Hrun. exact Hrun.
Qed.

Lemma wander_inv (e e' : Entity.t) (m : LevelMap) (r r' : Random) :
  Entity.wander e m r = Ok (e', r') ->
  Entity.spawn_timer e' = Entity.spawn_timer e
  /\ Entity.visibility_timer e' = Entity.visibility_timer e - 1
  /\ Entity.visible e'
     = (if Entity.visibility_timer e - 1 <=? 0 then false else Entity.visible e)
  /\ ((Entity.x e' = Entity.x e /\ Entity.y e' = Entity.y e)
      \/ (Entity._can_move_to (Entity.x e') (Entity.y e') m = Ok true
          /\ Entity.x e'
             = (Entity.x e + math_cos (math_radians (Entity.angle e')) * 1)%Q
          /\ Entity.y e'
             = (Entity.y e + math_sin (math_radians (Entity.angle e')) * 1)%Q)).
Proof.
  unfold Entity.wander. intros Hrun.
  destruct (if (Entity.move_timer e + 1) mod 60 =? 0 then uniform 0 360 r
            else (Entity.target_angle e, r)) as [target r1].
  cbv zeta in Hrun. inv_bind Hrun. destruct v.
  - injection Hrun as <- <-. simpl. repeat split. right. auto.
  - destruct (uniform 0 360 r1) as [t' r2]. injection Hrun as <- <-.
    simpl. repeat split. left. auto.
Qed.

(** C7, as the code has it.  On the tick the entity goes from hidden to
    visible, the spawn position that was accepted maps to a cell of the map
    that holds a floor tile and is not in that tick's visible set.  The
    same call of [update] then lets the entity take its first step: at the
    end of the tick it stands on the spawn position, or one accepted step
    of length 1 along its heading away from it. *)
Theorem spawn_position_unseen_floor
  (e e' : Entity.t) (px py : Q) (level : LevelType) (vis : gset cell)
  (m : LevelMap) (r r' : Random) :
  Entity.visible e = false ->
  Entity.update e px py level vis m r = Ok (e', r') ->
  Entity.visible e' = true ->
  exists sx sy : Q,
    in_bounds (grid_of sx) (grid_of sy) m = Ok true
    /\ tile_at m (grid_of sx) (grid_of sy) = Ok FLOOR
    /\ ((grid_of sx, grid_of sy) ∉ vis)
    /\ ((Entity.x e' = sx /\ Entity.y e' = sy)
        \/ (Entity._can_move_to (Entity.x e') (Entity.y e') m = Ok true
            /\ Entity.x e' = (sx + math_cos (math_radians (Entity.angle e')) * 1)%Q
            /\ Entity.y e' = (sy + math_sin (math_radians (Entity.angle e')) * 1)%Q)).
Proof.
  unfold Entity.update. intros Hhid Hrun Hvis.
  destruct (bool_decide (level <> LEVEL_0)).
  { injection Hrun as <- <-. discriminate. }
  cbv zeta in Hrun. cbn [Entity.spawn_timer Entity.visible] in Hrun.
  rewrite Hhid in Hrun. cbn [negb] in Hrun. rewrite andb_true_r in Hrun.
  destruct (Entity.spawn_timer e - 1 <=? 0).
  - inv_bind Hrun. destruct v as [e1 r1]. unfold Entity.try_spawn in E.
    inv_bind E. destruct v as [[[sx sy]|] r2].
    + apply spawn_loop_inv in E0 as (Hb & Hf & Hv & _).
      destruct (uniform 0 360 r2) as [a r3].
      inv_bind E. destruct v as [vf r4]. inv_bind E. destruct v as [ns r5].
      injection E as <- <-. cbn [Entity.visible] in Hrun.
      apply wander_inv in Hrun as (_ & _ & _ & Hpos). simpl in Hpos.
      exists sx, sy. auto.
    + injection E as <- <-. cbn [Entity.visible] in Hrun.
      try rewrite Hhid in Hrun.
      injection Hrun as <- <-. simpl in Hvis. congruence.
  - cbn [mbind outcome_bind] in Hrun. cbn [Entity.visible] in Hrun.
    try rewrite Hhid in Hrun. injection Hrun as <- <-. simpl in Hvis. congruence.
Qed.

(** C9, as the code has it.  In the standard biome the spawn countdown
    loses one on every tick, whether the entity is hidden or visible.
    While visible the visible-duration countdown loses one per tick, and
    the entity is hidden again at the end of the tick on which it reaches
    zero; that tick draws no new spawn countdown.  The next spawn countdown
    (1200 to 2400 ticks) is drawn on the tick the entity appears. *)
Theorem spawn_countdown_runs_every_tick
  (e e' : Entity.t) (px py : Q) (vis : gset cell) (m : LevelMap) (r r' : Random) :
  Entity.update e px py LEVEL_0 vis m r = Ok (e', r') ->
  (Entity.visible e = true ->
     Entity.spawn_timer e' = Entity.spawn_timer e - 1
     /\ Entity.visibility_timer e' = Entity.visibility_timer e - 1
     /\ Entity.visible e'
        = (if Entity.visibility_timer e - 1 <=? 0 then false else true))
  /\ (Entity.visible e = false -> Entity.visible e' = true ->
        Entity.spawn_timer e - 1 <= 0
        /\ 1200 <= Entity.spawn_timer e' <= 2400
        /\ 119 <= Entity.visibility_timer e' <= 299)
  /\ (Entity.visible e = false -> Entity.visible e' = false ->
        (0 < Entity.spawn_timer e - 1
         /\ Entity.spawn_timer e' = Entity.spawn_timer e - 1)
        \/ (Entity.spawn_timer e - 1 <= 0 /\ Entity.spawn_timer e' = 60)).
Proof.
  unfold Entity.update. intros Hrun. simpl in Hrun.
  destruct (Entity.visible e) eqn:Ev.
  - rewrite andb_false_r in Hrun. cbn [mbind outcome_bind] in Hrun.
    apply wander_inv in Hrun as (Hs & Ht & Hv & _). simpl in Hs, Ht, Hv.
    split; [|split]; [auto | discriminate | discriminate].
  - cbn [negb] in Hrun. rewrite andb_true_r in Hrun.
    split; [discriminate|].
    destruct (Entity.spawn_timer e - 1 <=? 0) eqn:Et.
    + inv_bind Hrun. destruct v as [e1 r1]. unfold Entity.try_spawn in E.
      inv_bind E. destruct v as [[[sx sy]|] r2].
      * destruct (uniform 0 360 r2) as [a r3].
        inv_bind E. destruct v as [vf r4]. inv_bind E. destruct v as [ns r5].
        injection E as <- <-. cbn [Entity.visible] in Hrun.
        assert (Hvf : 120 <= vf <= 300).
        { by apply randint_bounds in E1. }
        assert (Hns : 1200 <= ns <= 2400).
        { by apply randint_bounds in E2. }
        apply wander_inv in Hrun as (Hs & Hvt & Hv & _). simpl in Hs, Hvt, Hv.
        split.
        -- intros _ _. split; [lia|]. split; lia.
        -- intros _ Hhid. rewrite Hv in Hhid.
           destruct (vf - 1 <=? 0) eqn:Evf; [lia | discriminate].
      * injection E as <- <-. cbn [Entity.visible] in Hrun.
        try rewrite Ev in Hrun.
        injection Hrun as <- <-. simpl.
        split; [congruence|]. intros _ _. right. split; [lia | reflexivity].
    + cbn [mbind outcome_bind Entity.visible] in Hrun.
      try rewrite Ev in Hrun.
      injection Hrun as <- <-. simpl.
      split; [congruence|]. intros _ _. left. split; [lia | reflexivity].
Qed.

End EntityProofs.

Lemma spawn_position_unseen_floor_witness :
  exists e' r',
    @Entity.update Examples.axis_math Examples.hidden_entity 30 50 LEVEL_0
      Examples.lit_room_tiles Examples.room_and_corridor
      Examples.spawn_east_facing_west = Ok (e', r')
    /\ exists sx sy : Q,
        in_bounds (grid_of sx) (grid_of sy) Examples.room_and_corridor = Ok true
        /\ tile_at Examples.room_and_corridor (grid_of sx) (grid_of sy) = Ok FLOOR
        /\ ((grid_of sx, grid_of sy) ∉ Examples.lit_room_tiles)
        /\ ((Entity.x e' = sx /\ Entity.y e' = sy)
            \/ (Entity._can_move_to (Entity.x e') (Entity.y e')
                  Examples.room_and_corridor = Ok true
                /\ Entity.x e'
                   = (sx + @math_cos Examples.axis_math
                             (@math_radians Examples.axis_math (Entity.angle e')) * 1)%Q
                /\ Entity.y e'
                   = (sy + @math_sin Examples.axis_math
                             (@math_radians Examples.axis_math (Entity.angle e')) * 1)%Q)).
Proof.
  eexists. eexists. split.
  - vm_compute. reflexivity.
  - eapply (@spawn_position_unseen_floor Examples.axis_math Examples.hidden_entity
              _ 30 50 LEVEL_0 Examples.lit_room_tiles Examples.room_and_corridor
              Examples.spawn_east_facing_west _).
    + reflexivity.
    + vm_compute. reflexivity.
    + reflexivity.
Defined.

(** C7 as stated fails.  The entity appears on the corridor tile [(8, 2)],
    just east of the lit room the player stands in, facing west; its first
    step, taken in the same call of [update], brings it to [(159, 50)], in
    tile [(7, 2)] of the lit room, which is in the visible set. *)
Lemma spawned_entity_steps_into_view_counterexample :
  exists e' r',
    @Entity.update Examples.axis_math Examples.hidden_entity 30 50 LEVEL_0
      Examples.lit_room_tiles Examples.room_and_corridor
      Examples.spawn_east_facing_west = Ok (e', r')
    /\ Entity.visible Examples.hidden_entity = false
    /\ Entity.visible e' = true
    /\ (grid_of (Entity.x e'), grid_of (Entity.y e')) = (7, 2)
    /\ (7, 2) ∈ Examples.lit_room_tiles.
Proof.
  eexists. eexists. split; [vm_compute; reflexivity|].
  split; [reflexivity|]. split; [reflexivity|]. split; [reflexivity|].
  refine (bool_decide_unpack _ _). vm_compute. exact I.
Qed.

Lemma spawn_countdown_runs_every_tick_witness :
  exists e' r',
    @Entity.update Examples.axis_math Examples.hidden_entity 30 50 LEVEL_0
      Examples.lit_room_tiles Examples.room_and_corridor
      Examples.spawn_east_facing_west = Ok (e', r')
    /\ (Entity.visible Examples.hidden_entity = true ->
          Entity.spawn_timer e' = Entity.spawn_timer Examples.hidden_entity - 1
          /\ Entity.visibility_timer e'
             = Entity.visibility_timer Examples.hidden_entity - 1
          /\ Entity.visible e'
             = (if Entity.visibility_timer Examples.hidden_entity - 1 <=? 0
                then false else true))
    /\ (Entity.visible Examples.hidden_entity = false ->
        Entity.visible e' = true ->
          Entity.spawn_timer Examples.hidden_entity - 1 <= 0
          /\ 1200 <= Entity.spawn_timer e' <= 2400
          /\ 119 <= Entity.visibility_timer e' <= 299)
    /\ (Entity.visible Examples.hidden_entity = false ->
        Entity.visible e' = false ->
          (0 < Entity.spawn_timer Examples.hidden_entity - 1
           /\ Entity.spawn_timer e' = Entity.spawn_timer Examples.hidden_entity - 1)
          \/ (Entity.spawn_timer Examples.hidden_entity - 1 <= 0
              /\ Entity.spawn_timer e' = 60)).
Proof.
  eexists. eexists. split.
  - vm_compute. reflexivity.
  - eapply (@spawn_countdown_runs_every_tick Examples.axis_math
              Examples.hidden_entity _ 30 50 Examples.lit_room_tiles
              Examples.room_and_corridor Examples.spawn_east_facing_west _).
    vm_compute. reflexivity.
Defined.

(** C9 as stated fails: the spawn countdown of a visible entity goes down
    too (here from 1000 to 999 while the entity stays visible). *)
Lemma spawn_countdown_while_visible_counterexample :
  exists e' r',
    @Entity.update Examples.axis_math Examples.visible_entity 30 50 LEVEL_0
      Examples.lit_room_tiles Examples.room_and_corridor
      Examples.spawn_east_facing_west = Ok (e', r')
    /\ Entity.visible Examples.visible_entity = true
    /\ Entity.visible e' = true
    /\ Entity.spawn_timer Examples.visible_entity = 1000
    /\ Entity.spawn_timer e' = 999.
Proof.
  eexists. eexists. split; [vm_compute; reflexivity|]. repeat split.
Qed.

Lemma stamina_bounds_and_hysteresis_witness :
  exists p1,
    Player.move (Player.init 40 30) 2 0 Examples.corridor true = Ok p1
    /\ (0 <= Player.stamina p1 <= MAX_STAMINA)%Q
    /\ forall (dx dy : Q) (pressed : bool) (p' : Player.t),
        Player.move p1 dx dy Examples.corridor pressed = Ok p' ->
        (0 <= Player.stamina p' <= MAX_STAMINA)%Q
        /\ ((Player.stamina p1 <= 0)%Q ->
            Player.can_sprint p' = false /\ Player.is_sprinting p' = false)
        /\ (Player.can_sprint p1 = false -> Player.can_sprint p' = true ->
            (MAX_STAMINA <= Player.stamina p1)%Q)
        /\ (Player.can_sprint p1 = true -> Player.can_sprint p' = false ->
            (Player.stamina p1 <= 0)%Q).
Proof.
  eexists. split.
  - vm_compute. reflexivity.
  - apply (stamina_bounds_and_hysteresis Examples.corridor).
    apply (Player.reach_move _ (Player.init 40 30) 2 0 true);
      [apply Player.reach_init|].
    vm_compute. reflexivity.
Defined.

(** ** Painting the grid *)

Lemma grid_dims_row (W H : Z) (g : LevelMap) (i : nat) (row : list TileType) :
  grid_dims W H g -> g !! i = Some row -> Z.of_nat (length row) = W.
Proof.
  intros [_ Hrows] Hi. rewrite Forall_forall in Hrows. apply Hrows.
  apply list_elem_of_lookup. eauto.
Qed.

Lemma grid_dims_grid_set (W H : Z) (g : LevelMap) (x y : Z) (tile : TileType) :
  grid_dims W H g -> grid_dims W H (grid_set g x y tile).
Proof.
  intros [Hlen Hrows]. unfold grid_set.
  destruct (g !! Z.to_nat y) as [row|] eqn:Erow; [|by split].
  split.
  - by rewrite length_insert.
  - apply Forall_insert; [exact Hrows|]. rewrite length_insert.
    eapply grid_dims_row; [split; eauto | exact Erow].
Qed.

Lemma cell_tile_grid_set (W H : Z) (g : LevelMap) (x y : Z) (tile : TileType)
  (c : cell) :
  grid_dims W H g -> 0 <= x < W -> 0 <= y < H ->
  cell_tile (grid_set g x y tile) c
  = if decide (c = (x, y)) then Some tile else cell_tile g c.
Proof.
  intros Hdims Hx Hy. destruct c as [cx cy]. unfold cell_tile, grid_set. simpl.
  destruct (g !! Z.to_nat y) as [row|] eqn:Erow.
  2:{ apply lookup_ge_None in Erow. destruct Hdims as [Hlen _]. lia. }
  pose proof (grid_dims_row _ _ _ _ _ Hdims Erow) as Hrow.
  destruct ((0 <=? cx) && (0 <=? cy)) eqn:Epos.
  - apply andb_true_iff in Epos as [Ecx Ecy].
    destruct (decide (Z.to_nat cy = Z.to_nat y)) as [Ey | Ey].
    + rewrite Ey, list_lookup_insert_eq by (apply lookup_lt_Some in Erow; exact Erow).
      simpl. destruct (decide (Z.to_nat cx = Z.to_nat x)) as [Ex | Ex].
      * rewrite Ex, list_lookup_insert_eq by lia.
        rewrite decide_True; [reflexivity | f_equal; lia].
      * rewrite list_lookup_insert_ne by congruence.
        rewrite decide_False by (intros [= -> ->]; congruence).
        rewrite Erow. reflexivity.
    + rewrite list_lookup_insert_ne by congruence.
      rewrite decide_False by (intros [= -> ->]; congruence). reflexivity.
  - rewrite decide_False; [reflexivity|].
    intros [= -> ->]. apply andb_false_iff in Epos as [E | E]; lia.
Qed.

Lemma paint_ok (self : BackroomsGenerator.t) (x y : Z) (tile : TileType) :
  grid_dims (BackroomsGenerator.width self) (BackroomsGenerator.height self)
            (BackroomsGenerator.grid self) ->
  0 <= x < BackroomsGenerator.width self ->
  0 <= y < BackroomsGenerator.height self ->
  BackroomsGenerator.paint self x y tile
  = Ok (BackroomsGenerator.set_grid self
          (grid_set (BackroomsGenerator.grid self) x y tile)).
Proof.
  intros Hdims Hx Hy. unfold BackroomsGenerator.paint, grid_set.
  destruct Hdims as [Hlen Hrows].
  destruct (py_index_in_range (BackroomsGenerator.grid self) y) as (row & -> & Erow);
    [lia|].
  rewrite Erow. cbn [mbind outcome_bind].
  assert (Hrow : Z.of_nat (length row) = BackroomsGenerator.width self).
  { eapply grid_dims_row; [split; eauto | exact Erow]. }
  unfold py_assign.
  destruct (x <? 0) eqn:E1; [lia|].
  destruct ((0 <=? x) && (x <? Z.of_nat (length row))) eqn:E2.
  2:{ apply andb_false_iff in E2 as [E2 | E2]; lia. }
  cbn [mbind outcome_bind].
  destruct (y <? 0) eqn:E3; [lia|].
  destruct ((0 <=? y) && (y <? Z.of_nat (length (BackroomsGenerator.grid self))))
    eqn:E4.
  2:{ apply andb_false_iff in E4 as [E4 | E4]; lia. }
  reflexivity.
Qed.

Lemma same_plan_refl (self : BackroomsGenerator.t) : same_plan self self.
Proof. repeat split. Qed.

Lemma same_plan_trans (s1 s2 s3 : BackroomsGenerator.t) :
  same_plan s1 s2 -> same_plan s2 s3 -> same_plan s1 s3.
Proof.
  intros (A1 & A2 & A3 & A4) (B1 & B2 & B3 & B4). repeat split; congruence.
Qed.

Lemma same_plan_sym (s1 s2 : BackroomsGenerator.t) :
  same_plan s1 s2 -> same_plan s2 s1.
Proof. intros (A1 & A2 & A3 & A4). repeat split; congruence. Qed.

Lemma painted_refl (P : cell -> Prop) (tile : TileType) (self : BackroomsGenerator.t) :
  grid_dims (BackroomsGenerator.width self) (BackroomsGenerator.height self)
            (BackroomsGenerator.grid self) ->
  painted P tile self self.
Proof. intros Hd. split; [apply same_plan_refl|]. split; [exact Hd|]. by left. Qed.

Lemma painted_trans (P : cell -> Prop) (tile : TileType)
  (s1 s2 s3 : BackroomsGenerator.t) :
  painted P tile s1 s2 -> painted P tile s2 s3 -> painted P tile s1 s3.
Proof.
  intros (Hp1 & _ & Hc1) (Hp2 & Hd2 & Hc2).
  split; [eapply same_plan_trans; eauto|]. split; [exact Hd2|].
  intros c. destruct (Hc2 c) as [-> | ?]; [apply Hc1 | by right].
Qed.

Lemma painted_weaken (P Q : cell -> Prop) (tile : TileType)
  (s1 s2 : BackroomsGenerator.t) :
  (forall c, P c -> Q c) -> painted P tile s1 s2 -> painted Q tile s1 s2.
Proof.
  intros HPQ (Hp & Hd & Hc). split; [exact Hp|]. split; [exact Hd|].
  intros c. destruct (Hc c) as [-> | [HP ->]]; [by left | right; auto].
Qed.

Lemma painted_repainted (P : cell -> Prop) (tile : TileType)
  (s1 s2 : BackroomsGenerator.t) :
  painted P tile s1 s2 -> repainted P s1 s2.
Proof.
  intros (Hp & Hd & Hc). split; [exact Hp|]. split; [exact Hd|].
  intros c. destruct (Hc c) as [-> | [HP _]]; auto.
Qed.

Lemma repainted_refl (P : cell -> Prop) (self : BackroomsGenerator.t) :
  grid_dims (BackroomsGenerator.width self) (BackroomsGenerator.height self)
            (BackroomsGenerator.grid self) ->
  repainted P self self.
Proof. intros Hd. split; [apply same_plan_refl|]. split; [exact Hd|]. by left. Qed.

Lemma repainted_trans (P : cell -> Prop) (s1 s2 s3 : BackroomsGenerator.t) :
  repainted P s1 s2 -> repainted P s2 s3 -> repainted P s1 s3.
Proof.
  intros (Hp1 & _ & Hc1) (Hp2 & Hd2 & Hc2).
  split; [eapply same_plan_trans; eauto|]. split; [exact Hd2|].
  intros c. destruct (Hc2 c) as [-> | ?]; [apply Hc1 | by right].
Qed.

Lemma repainted_weaken (P Q : cell -> Prop) (s1 s2 : BackroomsGenerator.t) :
  (forall c, P c -> Q c) -> repainted P s1 s2 -> repainted Q s1 s2.
Proof.
  intros HPQ (Hp & Hd & Hc). split; [exact Hp|]. split; [exact Hd|].
  intros c. destruct (Hc c) as [-> | HP]; [by left | right; auto].
Qed.

(** A painted state after one assignment. *)
Lemma paint_painted (P : cell -> Prop) (self : BackroomsGenerator.t)
  (x y : Z) (tile : TileType) :
  grid_dims (BackroomsGenerator.width self) (BackroomsGenerator.height self)
            (BackroomsGenerator.grid self) ->
  0 <= x < BackroomsGenerator.width self ->
  0 <= y < BackroomsGenerator.height self ->
  P (x, y) ->
  exists self',
    BackroomsGenerator.paint self x y tile = Ok self'
    /\ painted P tile self self'
    /\ cell_tile (BackroomsGenerator.grid self') (x, y) = Some tile.
Proof.
  intros Hd Hx Hy HP. rewrite (paint_ok _ _ _ _ Hd Hx Hy).
  eexists. split; [reflexivity|]. split; [split; [|split]|].
  - repeat split.
  - simpl. by apply grid_dims_grid_set.
  - intros c. simpl. rewrite (cell_tile_grid_set _ _ _ _ _ _ _ Hd Hx Hy).
    destruct (decide (c = (x, y))) as [-> | _]; [right; auto | by left].
  - simpl. rewrite (cell_tile_grid_set _ _ _ _ _ _ _ Hd Hx Hy).
    by rewrite decide_True.
Qed.

(** A [for] loop that paints the cell [(px a, py a)] when [cond] holds. *)
Lemma paint_loop {A : Type} (cond : BackroomsGenerator.t -> A -> bool)
  (px py : A -> Z) (tile : TileType) (P : cell -> Prop) (l : list A)
  (self : BackroomsGenerator.t) :
  grid_dims (BackroomsGenerator.width self) (BackroomsGenerator.height self)
            (BackroomsGenerator.grid self) ->
  (forall s a, same_plan self s -> cond s a = cond self a) ->
  (forall a, a ∈ l -> cond self a = true ->
     0 <= px a < BackroomsGenerator.width self
     /\ 0 <= py a < BackroomsGenerator.height self
     /\ P (px a, py a)) ->
  exists self',
    for_each l
      (fun s a => if cond s a then BackroomsGenerator.paint s (px a) (py a) tile
                  else Ok s) self = Ok self'
    /\ painted P tile self self'
    /\ forall a, a ∈ l -> cond self a = true ->
         cell_tile (BackroomsGenerator.grid self') (px a, py a) = Some tile.
Proof.
  revert self. induction l as [|a l IH]; intros self Hd Hcond Hrange.
  - exists self. split; [reflexivity|]. split; [by apply painted_refl|].
    intros a Ha. by apply elem_of_nil in Ha.
  - cbn [for_each].
    assert (Hstep : exists s1,
               (if cond self a
                then BackroomsGenerator.paint self (px a) (py a) tile
                else Ok self) = Ok s1
               /\ painted P tile self s1
               /\ (cond self a = true ->
                   cell_tile (BackroomsGenerator.grid s1) (px a, py a) = Some tile)).
    { destruct (cond self a) eqn:Ec.
      - destruct (Hrange a (list_elem_of_here _ _) Ec) as (Hx & Hy & HP).
        destruct (paint_painted P self _ _ tile Hd Hx Hy HP) as (s1 & E1 & Hp1 & Ht1).
        exists s1. auto.
      - exists self. split; [reflexivity|]. split; [by apply painted_refl|].
        discriminate. }
    destruct Hstep as (s1 & -> & Hp1 & Ht1). cbn [mbind outcome_bind].
    pose proof Hp1 as (Hsp1 & Hd1 & Hc1).
    destruct (IH s1) as (self' & Hrun & Hp' & Ht').
    + exact Hd1.
    + intros s a' Hs. rewrite (Hcond s1 a' Hsp1).
      apply Hcond. eapply same_plan_trans; eauto.
    + intros a' Ha' Hc'. rewrite (Hcond s1 a' Hsp1) in Hc'.
      destruct Hsp1 as (-> & -> & _).
      apply Hrange; [by apply list_elem_of_further | exact Hc'].
    + exists self'. split; [exact Hrun|].
      split; [eapply painted_trans; eauto|].
      intros a' Ha' Hc'. apply elem_of_cons in Ha' as [-> | Ha'].
      * destruct Hp' as (_ & _ & Hc2).
        destruct (Hc2 (px a, py a)) as [-> | [_ ->]]; [by apply Ht1 | reflexivity].
      * apply Ht'; [exact Ha'|]. by rewrite (Hcond s1 a' Hsp1).
Qed.

(** Two nested [for] loops, over the rows [ys] and the columns [xs]. *)
Lemma paint_loop2 (cond : BackroomsGenerator.t -> Z -> Z -> bool)
  (tile : TileType) (P : cell -> Prop) (xs ys : list Z)
  (self : BackroomsGenerator.t) :
  grid_dims (BackroomsGenerator.width self) (BackroomsGenerator.height self)
            (BackroomsGenerator.grid self) ->
  (forall s x y, same_plan self s -> cond s x y = cond self x y) ->
  (forall x y, x ∈ xs -> y ∈ ys -> cond self x y = true ->
     0 <= x < BackroomsGenerator.width self
     /\ 0 <= y < BackroomsGenerator.height self
     /\ P (x, y)) ->
  exists self',
    for_each ys
      (fun s y =>
         for_each xs
           (fun s x => if cond s x y then BackroomsGenerator.paint s x y tile
                       else Ok s) s) self = Ok self'
    /\ painted P tile self self'
    /\ forall x y, x ∈ xs -> y ∈ ys -> cond self x y = true ->
         cell_tile (BackroomsGenerator.grid self') (x, y) = Some tile.
Proof.
  revert self. induction ys as [|y ys IH]; intros self Hd Hcond Hrange.
  - exists self. split; [reflexivity|]. split; [by apply painted_refl|].
    intros x y _ Hy. by apply elem_of_nil in Hy.
  - cbn [for_each].
    destruct (paint_loop (fun s x => cond s x y) (fun x => x) (fun _ => y)
                tile P xs self Hd) as (s1 & E1 & Hp1 & Ht1).
    { intros s x Hs. by apply Hcond. }
    { intros x Hx Hc. apply Hrange; [exact Hx | apply list_elem_of_here | exact Hc]. }
    rewrite E1. cbn [mbind outcome_bind].
    pose proof Hp1 as (Hsp1 & Hd1 & Hc1).
    destruct (IH s1) as (self' & Hrun & Hp' & Ht').
    + exact Hd1.
    + intros s x y' Hs. rewrite (Hcond s1 x y' Hsp1).
      apply Hcond. eapply same_plan_trans; eauto.
    + intros x y' Hx Hy' Hc'. rewrite (Hcond s1 x y' Hsp1) in Hc'.
      destruct Hsp1 as (-> & -> & _).
      apply Hrange; [exact Hx | by apply list_elem_of_further | exact Hc'].
    + exists self'. split; [exact Hrun|].
      split; [eapply painted_trans; eauto|].
      intros x y' Hx Hy' Hc'. apply elem_of_cons in Hy' as [-> | Hy'].
      * destruct Hp' as (_ & _ & Hc2).
        destruct (Hc2 (x, y)) as [-> | [_ ->]]; [by apply Ht1 | reflexivity].
      * apply Ht'; [exact Hx | exact Hy' |]. by rewrite (Hcond s1 x y' Hsp1).
Qed.

Lemma inside_same_plan (self s : BackroomsGenerator.t) (x y : Z) :
  same_plan self s ->
  BackroomsGenerator.inside s x y = BackroomsGenerator.inside self x y.
Proof. intros (Hw & Hh & _). unfold BackroomsGenerator.inside. by rewrite Hw, Hh. Qed.

Lemma inside_true (self : BackroomsGenerator.t) (x y : Z) :
  BackroomsGenerator.inside self x y = true
  <-> 0 <= x < BackroomsGenerator.width self
      /\ 0 <= y < BackroomsGenerator.height self.
Proof. unfold BackroomsGenerator.inside. rewrite !andb_true_iff. lia. Qed.

Lemma carve_room_spec (self : BackroomsGenerator.t) (room : Room.t) :
  grid_dims (BackroomsGenerator.width self) (BackroomsGenerator.height self)
            (BackroomsGenerator.grid self) ->
  room_fits (BackroomsGenerator.width self) (BackroomsGenerator.height self) room ->
  exists self',
    BackroomsGenerator._carve_room self room = Ok self'
    /\ painted (in_room room) FLOOR self self'
    /\ forall c, in_room room c -> is_floor (BackroomsGenerator.grid self') c.
Proof.
  intros Hd Hfit. unfold BackroomsGenerator._carve_room.
  destruct (paint_loop2 (fun s x y => BackroomsGenerator.inside s x y) FLOOR
              (in_room room)
              (py_range (Room.x room) (Room.x room + Room.width room))
              (py_range (Room.y room) (Room.y room + Room.height room))
              self Hd) as (self' & E & Hp & Ht).
  - intros s x y Hs. by apply inside_same_plan.
  - intros x y Hx Hy Hin. apply elem_of_py_range in Hx, Hy.
    apply inside_true in Hin. split; [tauto|]. split; [tauto|]. by split.
  - exists self'. split; [exact E|]. split; [exact Hp|].
    intros [cx cy] [Hx Hy]. simpl in Hx, Hy. apply Ht.
    + by apply elem_of_py_range.
    + by apply elem_of_py_range.
    + apply inside_true. destruct Hfit as (? & ? & ? & ? & _). lia.
Qed.

Lemma carve_row_spec (self : BackroomsGenerator.t) (xa xb y : Z) :
  grid_dims (BackroomsGenerator.width self) (BackroomsGenerator.height self)
            (BackroomsGenerator.grid self) ->
  exists self',
    BackroomsGenerator.carve_row self xa xb y = Ok self'
    /\ painted (fun _ => True) FLOOR self self'
    /\ forall x, Z.min xa xb <= x <= Z.max xa xb ->
                 BackroomsGenerator.inside self x y = true ->
                 is_floor (BackroomsGenerator.grid self') (x, y).
Proof.
  intros Hd. unfold BackroomsGenerator.carve_row.
  destruct (paint_loop (fun s x => BackroomsGenerator.inside s x y)
              (fun x => x) (fun _ => y) FLOOR (fun _ => True)
              (py_range (Z.min xa xb) (Z.max xa xb + 1)) self Hd)
    as (self' & E & Hp & Ht).
  - intros s x Hs. by apply inside_same_plan.
  - intros x _ Hin. apply inside_true in Hin. tauto.
  - exists self'. split; [exact E|]. split; [exact Hp|].
    intros x Hx Hin. apply Ht; [|exact Hin]. apply elem_of_py_range. lia.
Qed.

Lemma carve_column_spec (self : BackroomsGenerator.t) (x ya yb : Z) :
  grid_dims (BackroomsGenerator.width self) (BackroomsGenerator.height self)
            (BackroomsGenerator.grid self) ->
  exists self',
    BackroomsGenerator.carve_column self x ya yb = Ok self'
    /\ painted (fun _ => True) FLOOR self self'
    /\ forall y, Z.min ya yb <= y <= Z.max ya yb ->
                 BackroomsGenerator.inside self x y = true ->
                 is_floor (BackroomsGenerator.grid self') (x, y).
Proof.
  intros Hd. unfold BackroomsGenerator.carve_column.
  destruct (paint_loop (fun s y => BackroomsGenerator.inside s x y)
              (fun _ => x) (fun y => y) FLOOR (fun _ => True)
              (py_range (Z.min ya yb) (Z.max ya yb + 1)) self Hd)
    as (self' & E & Hp & Ht).
  - intros s y Hs. by apply inside_same_plan.
  - intros y _ Hin. apply inside_true in Hin. tauto.
  - exists self'. split; [exact E|]. split; [exact Hp|].
    intros y Hy Hin. apply Ht; [|exact Hin]. apply elem_of_py_range. lia.
Qed.

(** ** Reachability over floor tiles *)

Lemma adjacent_sym (a b : cell) : adjacent a b -> adjacent b a.
Proof. unfold adjacent. intros [[? [?|?]] | [? [?|?]]]; [left|left|right|right]; split; auto. Qed.

Lemma floor_path_floor_r (g : LevelMap) (a b : cell) :
  floor_path g a b -> is_floor g b.
Proof. by intros [c Hc | a' b' c _ _ Hc]. Qed.

Lemma floor_path_floor_l (g : LevelMap) (a b : cell) :
  floor_path g a b -> is_floor g a.
Proof. induction 1; auto. Qed.

Lemma floor_path_trans (g : LevelMap) (a b c : cell) :
  floor_path g a b -> floor_path g b c -> floor_path g a c.
Proof.
  intros Hab Hbc. revert Hab.
  induction Hbc as [c Hc | b b' c _ IH Hadj Hc]; intros Hab; [exact Hab|].
  apply path_step with b'; auto.
Qed.

Lemma floor_path_sym (g : LevelMap) (a b : cell) :
  floor_path g a b -> floor_path g b a.
Proof.
  induction 1 as [c Hc | a b c Hab IH Hadj Hc]; [by constructor|].
  apply floor_path_trans with b; [|exact IH].
  eapply path_step; [by constructor | by apply adjacent_sym |].
  by apply floor_path_floor_r in Hab.
Qed.

Lemma floor_path_mono (g g' : LevelMap) (a b : cell) :
  (forall c, is_floor g c -> is_floor g' c) ->
  floor_path g a b -> floor_path g' a b.
Proof.
  intros Hm. induction 1 as [c Hc | a b c _ IH Hadj Hc].
  - constructor. by apply Hm.
  - apply path_step with b; auto.
Qed.

Lemma painted_floor_mono (P : cell -> Prop) (s s' : BackroomsGenerator.t) (c : cell) :
  painted P FLOOR s s' ->
  is_floor (BackroomsGenerator.grid s) c -> is_floor (BackroomsGenerator.grid s') c.
Proof.
  intros (_ & _ & Hc) Hf. unfold is_floor in *.
  destruct (Hc c) as [-> | [_ ->]]; auto.
Qed.

Lemma floor_row_east (g : LevelMap) (n : nat) (x y : Z) :
  (forall i, 0 <= i <= Z.of_nat n -> is_floor g (x + i, y)) ->
  floor_path g (x, y) (x + Z.of_nat n, y).
Proof.
  induction n as [|n IH]; intros Hrow.
  - rewrite Z.add_0_r. constructor. specialize (Hrow 0 ltac:(lia)).
    by rewrite Z.add_0_r in Hrow.
  - eapply path_step.
    + apply IH. intros i Hi. apply Hrow. lia.
    + right. simpl. split; [reflexivity|]. right. lia.
    + apply Hrow. lia.
Qed.

Lemma floor_column_south (g : LevelMap) (n : nat) (x y : Z) :
  (forall i, 0 <= i <= Z.of_nat n -> is_floor g (x, y + i)) ->
  floor_path g (x, y) (x, y + Z.of_nat n).
Proof.
  induction n as [|n IH]; intros Hcol.
  - rewrite Z.add_0_r. constructor. specialize (Hcol 0 ltac:(lia)).
    by rewrite Z.add_0_r in Hcol.
  - eapply path_step.
    + apply IH. intros i Hi. apply Hcol. lia.
    + left. simpl. split; [reflexivity|]. right. lia.
    + apply Hcol. lia.
Qed.

Lemma floor_row (g : LevelMap) (xa xb y : Z) :
  (forall x, Z.min xa xb <= x <= Z.max xa xb -> is_floor g (x, y)) ->
  floor_path g (xa, y) (xb, y).
Proof.
  intros Hrow. destruct (Z.le_ge_cases xa xb) as [Hle | Hle].
  - replace xb with (xa + Z.of_nat (Z.to_nat (xb - xa))) by lia.
    apply floor_row_east. intros i Hi. apply Hrow. lia.
  - apply floor_path_sym.
    replace xa with (xb + Z.of_nat (Z.to_nat (xa - xb))) by lia.
    apply floor_row_east. intros i Hi. apply Hrow. lia.
Qed.

Lemma floor_column (g : LevelMap) (x ya yb : Z) :
  (forall y, Z.min ya yb <= y <= Z.max ya yb -> is_floor g (x, y)) ->
  floor_path g (x, ya) (x, yb).
Proof.
  intros Hcol. destruct (Z.le_ge_cases ya yb) as [Hle | Hle].
  - replace yb with (ya + Z.of_nat (Z.to_nat (yb - ya))) by lia.
    apply floor_column_south. intros i Hi. apply Hcol. lia.
  - apply floor_path_sym.
    replace ya with (yb + Z.of_nat (Z.to_nat (ya - yb))) by lia.
    apply floor_column_south. intros i Hi. apply Hcol. lia.
Qed.

(** ** Corridors *)

Lemma choice_ok {A : Type} (l : list A) (r : Random) :
  l <> [] ->
  exists a, choice l r = Ok (a, (next_draw r).2) /\ a ∈ l.
Proof.
  intros Hl. unfold choice. destruct l as [|a0 l0] eqn:El; [congruence|].
  rewrite <- El. clear Hl.
  assert (Hlen : 0 < Z.of_nat (length l)) by (subst l; simpl; lia).
  simpl. pose proof (Z.mod_pos_bound (draws r (cursor r)) _ Hlen) as Hm.
  destruct (py_index_in_range l _ Hm) as (a & -> & Ha).
  exists a. split; [reflexivity|]. apply list_elem_of_lookup. eauto.
Qed.

Lemma choice_elem {A : Type} (l : list A) (r r' : Random) (a : A) :
  choice l r = Ok (a, r') -> a ∈ l.
Proof.
  intros E. destruct l as [|a0 l0] eqn:El; [discriminate|].
  destruct (choice_ok (a0 :: l0) r ltac:(discriminate)) as (a' & E' & Ha').
  congruence.
Qed.

Lemma create_corridor_spec (self : BackroomsGenerator.t) (start finish : Z * Z)
  (r : Random) :
  grid_dims (BackroomsGenerator.width self) (BackroomsGenerator.height self)
            (BackroomsGenerator.grid self) ->
  BackroomsGenerator.inside self start.1 start.2 = true ->
  BackroomsGenerator.inside self finish.1 finish.2 = true ->
  exists self' r',
    BackroomsGenerator._create_corridor self start finish r = Ok (self', r')
    /\ painted (fun _ => True) FLOOR self self'
    /\ floor_path (BackroomsGenerator.grid self') start finish.
Proof.
  destruct start as [x1 y1], finish as [x2 y2]. cbn [fst snd].
  intros Hd Hs Hf. unfold BackroomsGenerator._create_corridor.
  destruct (choice_ok [true; false] r ltac:(discriminate)) as (b & -> & _).
  cbn [mbind outcome_bind].
  apply inside_true in Hs as Hs', Hf as Hf'.
  destruct b.
  - destruct (carve_row_spec self x1 x2 y1 Hd) as (s1 & -> & Hp1 & Hrow).
    cbn [mbind outcome_bind]. pose proof Hp1 as (Hsp1 & Hd1 & _).
    destruct (carve_column_spec s1 x2 y1 y2 Hd1) as (s2 & -> & Hp2 & Hcol).
    cbn [mbind outcome_bind]. eexists _, _. split; [reflexivity|].
    split; [eapply painted_trans; eauto|].
    apply floor_path_trans with (x2, y1).
    + apply floor_row. intros x Hx. apply (painted_floor_mono _ _ _ _ Hp2).
      apply Hrow; [exact Hx|]. apply inside_true. lia.
    + apply floor_column. intros y Hy. apply Hcol; [exact Hy|].
      rewrite (inside_same_plan _ _ _ _ Hsp1). apply inside_true. lia.
  - destruct (carve_column_spec self x1 y1 y2 Hd) as (s1 & -> & Hp1 & Hcol).
    cbn [mbind outcome_bind]. pose proof Hp1 as (Hsp1 & Hd1 & _).
    destruct (carve_row_spec s1 x1 x2 y2 Hd1) as (s2 & -> & Hp2 & Hrow).
    cbn [mbind outcome_bind]. eexists _, _. split; [reflexivity|].
    split; [eapply painted_trans; eauto|].
    apply floor_path_trans with (x1, y2).
    + apply floor_column. intros y Hy. apply (painted_floor_mono _ _ _ _ Hp2).
      apply Hcol; [exact Hy|]. apply inside_true. lia.
    + apply floor_row. intros x Hx. apply Hrow; [exact Hx|].
      rewrite (inside_same_plan _ _ _ _ Hsp1). apply inside_true. lia.
Qed.

(** ** Room placement *)

Lemma overlaps_sym (a b : Room.t) : Room.overlaps a b = Room.overlaps b a.
Proof.
  unfold Room.overlaps. f_equal.
  destruct (Room.x a + Room.width a <=? Room.x b),
    (Room.x b + Room.width b <=? Room.x a),
    (Room.y a + Room.height a <=? Room.y b),
    (Room.y b + Room.height b <=? Room.y a); reflexivity.
Qed.

Lemma overlaps_false_disjoint (a b : Room.t) (c : cell) :
  Room.overlaps a b = false -> in_room a c -> in_room b c -> False.
Proof.
  unfold Room.overlaps, in_room. rewrite negb_false_iff, !orb_true_iff.
  intros [[[H | H] | H] | H] [? ?] [? ?]; lia.
Qed.

Lemma size_ranges_bounds (room_type : RoomType) (a b c d : Z) :
  BackroomsGenerator.size_ranges room_type = (a, b, c, d) ->
  4 <= a <= b /\ b <= 45 /\ 3 <= c <= d /\ d <= 20.
Proof. destruct room_type; intros [= <- <- <- <-]; lia. Qed.

Lemma size_ranges_level_0 (room_type : RoomType) (a b c d : Z) :
  BackroomsGenerator.is_pool_type room_type = false ->
  BackroomsGenerator.size_ranges room_type = (a, b, c, d) ->
  b <= 40 /\ d <= 16.
Proof. destruct room_type; intros Hp [= <- <- <- <-]; try lia; discriminate. Qed.

Lemma placed_painted_floor (P : cell -> Prop) (s s' : BackroomsGenerator.t) :
  placed s -> painted P FLOOR s s' -> placed s'.
Proof.
  intros [Hd Hf Hdis Hb] Hp. pose proof Hp as ((Hw & Hh & _ & Hr) & Hd' & _).
  split.
  - exact Hd'.
  - by rewrite Hw, Hh, Hr.
  - by rewrite Hr.
  - intros room c Hroom Hbor. rewrite Hr in Hroom.
    eapply painted_floor_mono; eauto.
Qed.

Lemma pairwise_disjoint_snoc (rooms : list Room.t) (new_room : Room.t) :
  pairwise_disjoint rooms ->
  existsb (Room.overlaps new_room) rooms = false ->
  pairwise_disjoint (rooms ++ [new_room]).
Proof.
  intros Hdis Hnew.
  assert (Hold : forall r, r ∈ rooms -> Room.overlaps new_room r = false).
  { intros r Hr. destruct (Room.overlaps new_room r) eqn:E; [|reflexivity].
    assert (existsb (Room.overlaps new_room) rooms = true); [|congruence].
    apply existsb_exists. exists r. split; [by apply list_elem_of_In | exact E]. }
  intros i j ri rj Hij Hi Hj.
  destruct (decide (i < length rooms)%nat) as [Hil | Hil];
    destruct (decide (j < length rooms)%nat) as [Hjl | Hjl].
  - rewrite lookup_app_l in Hi, Hj by lia. eapply Hdis; eauto.
  - rewrite lookup_app_l in Hi by lia. rewrite lookup_app_r in Hj by lia.
    destruct (j - length rooms)%nat; simpl in Hj; [|by destruct n].
    injection Hj as <-. rewrite overlaps_sym. apply Hold.
    apply list_elem_of_lookup. eauto.
  - rewrite lookup_app_r in Hi by lia. rewrite lookup_app_l in Hj by lia.
    destruct (i - length rooms)%nat; simpl in Hi; [|by destruct n].
    injection Hi as <-. apply Hold. apply list_elem_of_lookup. eauto.
  - rewrite lookup_app_r in Hi, Hj by lia.
    destruct (i - length rooms)%nat eqn:Ei; simpl in Hi; [|by destruct n].
    destruct (j - length rooms)%nat eqn:Ej; simpl in Hj; [|by destruct n].
    lia.
Qed.

(** One placement attempt keeps the state well formed, and leaves the
    rooms already placed where they are. *)
Lemma place_room_inv (self self' : BackroomsGenerator.t) (room_type : RoomType)
  (lit_chance : Q) (r r' : Random) :
  placed self ->
  BackroomsGenerator.place_room self room_type lit_chance r = Ok (self', r') ->
  placed self'
  /\ BackroomsGenerator.width self' = BackroomsGenerator.width self
  /\ BackroomsGenerator.height self' = BackroomsGenerator.height self
  /\ BackroomsGenerator.level_type self' = BackroomsGenerator.level_type self
  /\ (BackroomsGenerator.rooms self' = BackroomsGenerator.rooms self
      \/ exists new_room,
           BackroomsGenerator.rooms self'
           = BackroomsGenerator.rooms self ++ [new_room]).
Proof.
  intros Hpl Hrun. unfold BackroomsGenerator.place_room in Hrun.
  inv_bind Hrun. destruct v as [[w h] r1].
  unfold BackroomsGenerator._get_room_size in E.
  destruct (BackroomsGenerator.size_ranges room_type) as [[[min_w max_w] min_h] max_h]
    eqn:Esz.
  apply size_ranges_bounds in Esz.
  inv_bind E. destruct v as [w' r0]. inv_bind E. destruct v as [h' r0'].
  injection E as <- <- <-.
  apply randint_bounds in E0, E1.
  inv_bind Hrun. destruct v as [x r2]. inv_bind Hrun. destruct v as [y r3].
  apply randint_bounds in E, E2.
  destruct (random r3) as [u r4].
  set (new_room := {| Room.x := x; Room.y := y; Room.width := w';
                      Room.height := h'; Room.room_type := room_type;
                      Room.is_lit := Qlt_bool u lit_chance;
                      Room.connections := [] |}) in *.
  destruct (existsb (Room.overlaps new_room) (BackroomsGenerator.rooms self))
    eqn:Eov; cbn [negb] in Hrun.
  { injection Hrun as <- <-. auto 6. }
  destruct Hpl as [Hd Hf Hdis Hb].
  assert (Hfit : room_fits (BackroomsGenerator.width self)
                           (BackroomsGenerator.height self) new_room).
  { unfold room_fits. simpl. lia. }
  set (s1 := BackroomsGenerator.set_rooms self
               (BackroomsGenerator.rooms self ++ [new_room])) in *.
  destruct (carve_room_spec s1 new_room Hd Hfit) as (s2 & Ecarve & Hp & Hfloor).
  rewrite Ecarve in Hrun. cbn [mbind outcome_bind] in Hrun.
  injection Hrun as <- <-.
  pose proof Hp as ((Hw & Hh & Hl & Hr) & Hd2 & _).
  split; [|simpl in *; split; [auto|split; [auto|split; [auto|right; eauto]]]].
  split.
  - exact Hd2.
  - rewrite Hw, Hh, Hr. simpl. apply Forall_app. split; [exact Hf|].
    by apply Forall_singleton.
  - rewrite Hr. simpl. by apply pairwise_disjoint_snoc.
  - intros room c Hroom Hbor. rewrite Hr in Hroom. simpl in Hroom.
    apply elem_of_app in Hroom as [Hroom | Hroom].
    + eapply painted_floor_mono; [exact Hp|]. simpl. eapply Hb; eauto.
    + apply list_elem_of_singleton in Hroom. subst room.
      apply Hfloor. by destruct Hbor.
Qed.

Lemma place_room_dims (self self' : BackroomsGenerator.t) (room_type : RoomType)
  (lit_chance : Q) (r r' : Random) :
  BackroomsGenerator.place_room self room_type lit_chance r = Ok (self', r') ->
  6 <= BackroomsGenerator.width self /\ 5 <= BackroomsGenerator.height self.
Proof.
  intros Hrun. unfold BackroomsGenerator.place_room in Hrun.
  inv_bind Hrun. destruct v as [[w h] r1].
  unfold BackroomsGenerator._get_room_size in E.
  destruct (BackroomsGenerator.size_ranges room_type) as [[[min_w max_w] min_h] max_h]
    eqn:Esz.
  apply size_ranges_bounds in Esz.
  inv_bind E. destruct v as [w' r0]. inv_bind E. destruct v as [h' r0'].
  injection E as <- <- <-.
  apply randint_bounds in E0, E1.
  inv_bind Hrun. destruct v as [x r2]. inv_bind Hrun. destruct v as [y r3].
  apply randint_bounds in E, E2. lia.
Qed.

(** The state a generator starts from. *)
Lemma placed_init (W H : Z) (level : LevelType) :
  0 <= W -> 0 <= H -> placed (BackroomsGenerator.init W H level).
Proof.
  intros HW HH. split; simpl.
  - split.
    + rewrite length_replicate. lia.
    + apply Forall_replicate. rewrite length_replicate. lia.
  - constructor.
  - intros i j ri rj _ Hi. by destruct i.
  - intros room c Hroom. by apply elem_of_nil in Hroom.
Qed.

Lemma grows_refl (self : BackroomsGenerator.t) : grows self self.
Proof. by repeat split. Qed.

Lemma grows_trans (s1 s2 s3 : BackroomsGenerator.t) :
  grows s1 s2 -> grows s2 s3 -> grows s1 s3.
Proof.
  intros (A1 & A2 & A3 & A4) (B1 & B2 & B3 & B4).
  repeat split; try congruence. by etransitivity.
Qed.

Lemma place_room_grows (self self' : BackroomsGenerator.t) (room_type : RoomType)
  (lit_chance : Q) (r r' : Random) :
  placed_if_roomy self ->
  BackroomsGenerator.place_room self room_type lit_chance r = Ok (self', r') ->
  placed self' /\ grows self self'
  /\ (length (BackroomsGenerator.rooms self')
      <= S (length (BackroomsGenerator.rooms self)))%nat.
Proof.
  intros Hpl Hrun. destruct (place_room_dims _ _ _ _ _ _ Hrun) as [HW HH].
  destruct (place_room_inv _ _ _ _ _ _ (Hpl HW HH) Hrun)
    as (Hpl' & Hw & Hh & Hl & Hr).
  split; [exact Hpl'|]. split.
  - repeat split; auto. destruct Hr as [-> | [new_room ->]];
      [reflexivity | by apply prefix_app_r].
  - destruct Hr as [-> | [new_room ->]]; [lia|]. rewrite length_app. simpl. lia.
Qed.

Lemma generate_rooms_loop_inv (fuel : nat) (attempts n : Z)
  (self self' : BackroomsGenerator.t) (r r' : Random) :
  placed_if_roomy self ->
  Z.of_nat (length (BackroomsGenerator.rooms self)) <= 20 ->
  BackroomsGenerator._generate_rooms_loop fuel attempts self r = Ok (n, self', r') ->
  placed_if_roomy self' /\ grows self self'
  /\ Z.of_nat (length (BackroomsGenerator.rooms self')) <= 20
  /\ attempts <= n /\ (attempts <= 150 -> n <= 150)
  /\ (Z.of_nat (length (BackroomsGenerator.rooms self)) < 20 -> attempts < 150 ->
      placed self').
Proof.
  revert attempts self r. induction fuel as [|fuel IH];
    intros attempts self r Hpl Hlen Hrun; cbn [BackroomsGenerator._generate_rooms_loop] in Hrun.
  - discriminate.
  - destruct ((Z.of_nat (length (BackroomsGenerator.rooms self)) <? 20)
              && (attempts <? 150)) eqn:Eg.
    + inv_bind Hrun. destruct v as [room_type r1].
      destruct (BackroomsGenerator.is_pool_type room_type).
      * destruct (IH _ _ _ Hpl Hlen Hrun) as (H1 & H2 & H3 & H4 & H5 & H6). auto 7.
      * inv_bind Hrun. destruct v as [s1 r2].
        destruct (place_room_grows _ _ _ _ _ _ Hpl E0) as (Hpl1 & Hg1 & Hl1).
        apply andb_true_iff in Eg as [Eg Ea].
        destruct (IH _ s1 _ (fun _ _ => Hpl1) ltac:(lia) Hrun)
          as (H1 & H2 & H3 & H4 & H5 & H6).
        split; [exact H1|]. split; [eapply grows_trans; eauto|].
        split; [exact H3|]. split; [lia|]. split; [lia|]. intros _ _. apply H1.
        -- destruct H2 as (-> & _). destruct Hg1 as (-> & _).
           apply (place_room_dims _ _ _ _ _ _ E0).
        -- destruct H2 as (_ & -> & _). destruct Hg1 as (_ & -> & _).
           apply (place_room_dims _ _ _ _ _ _ E0).
    + injection Hrun as <- <- <-. split; [exact Hpl|]. split; [apply grows_refl|].
      split; [exact Hlen|]. split; [lia|]. split; [auto|]. intros H1 H2.
      apply andb_false_iff in Eg as [Eg | Eg]; lia.
Qed.

Lemma generate_pool_rooms_loop_inv (fuel : nat) (attempts n : Z)
  (self self' : BackroomsGenerator.t) (r r' : Random) :
  placed_if_roomy self ->
  Z.of_nat (length (BackroomsGenerator.rooms self)) <= 15 ->
  BackroomsGenerator._generate_pool_rooms_loop fuel attempts self r
  = Ok (n, self', r') ->
  placed_if_roomy self' /\ grows self self'
  /\ Z.of_nat (length (BackroomsGenerator.rooms self')) <= 15
  /\ attempts <= n /\ (attempts <= 150 -> n <= 150)
  /\ (Z.of_nat (length (BackroomsGenerator.rooms self)) < 15 -> attempts < 150 ->
      placed self').
Proof.
  revert attempts self r. induction fuel as [|fuel IH];
    intros attempts self r Hpl Hlen Hrun;
    cbn [BackroomsGenerator._generate_pool_rooms_loop] in Hrun.
  - discriminate.
  - destruct ((Z.of_nat (length (BackroomsGenerator.rooms self)) <? 15)
              && (attempts <? 150)) eqn:Eg.
    + inv_bind Hrun. destruct v as [room_type r1].
      inv_bind Hrun. destruct v as [s1 r2].
      destruct (place_room_grows _ _ _ _ _ _ Hpl E0) as (Hpl1 & Hg1 & Hl1).
      apply andb_true_iff in Eg as [Eg Ea].
      destruct (IH _ s1 _ (fun _ _ => Hpl1) ltac:(lia) Hrun)
        as (H1 & H2 & H3 & H4 & H5 & H6).
      split; [exact H1|]. split; [eapply grows_trans; eauto|].
      split; [exact H3|]. split; [lia|]. split; [lia|]. intros _ _. apply H1.
      * destruct H2 as (-> & _). destruct Hg1 as (-> & _).
        apply (place_room_dims _ _ _ _ _ _ E0).
      * destruct H2 as (_ & -> & _). destruct Hg1 as (_ & -> & _).
        apply (place_room_dims _ _ _ _ _ _ E0).
    + injection Hrun as <- <- <-. split; [exact Hpl|]. split; [apply grows_refl|].
      split; [exact Hlen|]. split; [lia|]. split; [auto|]. intros H1 H2.
      apply andb_false_iff in Eg as [Eg | Eg]; lia.
Qed.

(** ** Connecting the rooms *)

Lemma for_each_inv {A S : Type} (Inv : S -> Prop) (l : list A)
  (body : S -> A -> outcome S) (s s' : S) :
  (forall s a s', a ∈ l -> Inv s -> body s a = Ok s' -> Inv s') ->
  Inv s -> for_each l body s = Ok s' -> Inv s'.
Proof.
  revert s. induction l as [|a l IH]; intros s Hbody Hs Hrun; simpl in Hrun.
  - by injection Hrun as <-.
  - inv_bind Hrun. apply (IH v); [| |exact Hrun].
    + intros s1 a1 s2 Ha1. apply Hbody. by apply list_elem_of_further.
    + eapply Hbody; [apply list_elem_of_here | exact Hs | exact E].
Qed.

Lemma py_index_nonneg {A : Type} (l : list A) (i : Z) (a : A) :
  0 <= i -> py_index l i = Ok a -> l !! Z.to_nat i = Some a.
Proof.
  intros Hi. unfold py_index. destruct (i <? 0) eqn:E; [lia|].
  destruct ((0 <=? i) && (i <? Z.of_nat (length l))); [|discriminate].
  destruct (l !! Z.to_nat i); [by intros [= ->] | discriminate].
Qed.

Lemma half_bounds (n : Z) : 0 <= n -> 0 <= n / 2 /\ 2 * (n / 2) <= n < 2 * (n / 2) + 2.
Proof.
  intros Hn. pose proof (Z_div_mod_eq_full n 2).
  pose proof (Z.mod_pos_bound n 2 ltac:(lia)). lia.
Qed.

Lemma center_interior (W H : Z) (room : Room.t) :
  room_fits W H room -> in_interior room (Room.center room).
Proof.
  intros (? & ? & ? & ? & ? & ?). unfold in_interior, Room.center. simpl.
  pose proof (half_bounds (Room.width room) ltac:(lia)).
  pose proof (half_bounds (Room.height room) ltac:(lia)). lia.
Qed.

Lemma center_inside (self : BackroomsGenerator.t) (room : Room.t) :
  room_fits (BackroomsGenerator.width self) (BackroomsGenerator.height self) room ->
  BackroomsGenerator.inside self (Room.center room).1 (Room.center room).2 = true.
Proof.
  intros Hfit. pose proof (center_interior _ _ _ Hfit) as [Hx Hy].
  destruct Hfit as (? & ? & ? & ? & ? & ?). apply inside_true. lia.
Qed.

Lemma linked_mono (P : cell -> Prop) (s s' : BackroomsGenerator.t)
  (room0 room : Room.t) :
  painted P FLOOR s s' ->
  linked (BackroomsGenerator.grid s) room0 room ->
  linked (BackroomsGenerator.grid s') room0 room.
Proof.
  intros Hp [-> | Hpath]; [by left | right].
  eapply floor_path_mono; [|exact Hpath].
  intros c. by apply (painted_floor_mono _ _ _ _ Hp).
Qed.

Lemma placed_room_fits (self : BackroomsGenerator.t) (i : nat) (room : Room.t) :
  placed self -> BackroomsGenerator.rooms self !! i = Some room ->
  room_fits (BackroomsGenerator.width self) (BackroomsGenerator.height self) room.
Proof.
  intros [_ Hf _ _] Hi. rewrite Forall_forall in Hf. apply Hf.
  apply list_elem_of_lookup. eauto.
Qed.

Lemma connect_loop_inv (fuel : nat) (connected unconnected : list Z)
  (self self' : BackroomsGenerator.t) (r r' : Random) (room0 : Room.t) :
  placed self ->
  (forall i, i ∈ connected ->
     0 <= i /\ exists room,
       BackroomsGenerator.rooms self !! Z.to_nat i = Some room
       /\ linked (BackroomsGenerator.grid self) room0 room) ->
  (forall i, i ∈ unconnected -> 0 <= i) ->
  BackroomsGenerator.connect_loop fuel connected unconnected self r = Ok (self', r') ->
  painted (fun _ => True) FLOOR self self'
  /\ forall i, i ∈ connected \/ i ∈ unconnected ->
       exists room,
         BackroomsGenerator.rooms self !! Z.to_nat i = Some room
         /\ linked (BackroomsGenerator.grid self') room0 room.
Proof.
  revert connected unconnected self r.
  induction fuel as [|fuel IH]; intros connected unconnected self r Hpl Hcon Hun Hrun.
  - destruct unconnected as [|u us]; [|discriminate].
    injection Hrun as <- <-. split; [apply painted_refl, Hpl|].
    intros i [Hi | Hi]; [by apply Hcon | by apply elem_of_nil in Hi].
  - destruct unconnected as [|u us].
    { injection Hrun as <- <-. split; [apply painted_refl, Hpl|].
      intros i [Hi | Hi]; [by apply Hcon | by apply elem_of_nil in Hi]. }
    cbn [BackroomsGenerator.connect_loop] in Hrun.
    set (unconnected := u :: us) in *. clearbody unconnected. clear u us.
    inv_bind Hrun. destruct v as [a_idx r1]. apply choice_elem in E as Ha.
    inv_bind Hrun. destruct v as [b_idx r2]. apply choice_elem in E0 as Hb.
    inv_bind Hrun. rename v into room_a. inv_bind Hrun. rename v into room_b.
    destruct (Hcon a_idx Ha) as (Ha0 & room_a' & Hla & Hlink).
    apply py_index_nonneg in E1; [|exact Ha0].
    assert (room_a' = room_a) as -> by congruence.
    apply py_index_nonneg in E2; [|by apply Hun].
    inv_bind Hrun. destruct v as [s1 r3].
    destruct (create_corridor_spec self (Room.center room_a) (Room.center room_b) r2)
      as (s1' & r3' & Ec & Hp1 & Hpath).
    { apply Hpl. }
    { apply center_inside. eapply placed_room_fits; eauto. }
    { apply center_inside. eapply placed_room_fits; eauto. }
    rewrite Ec in E3. injection E3 as -> ->.
    pose proof Hp1 as ((_ & _ & _ & Hr1) & _ & _).
    destruct (IH (connected ++ [b_idx])
                (filter (fun i => i <> b_idx) unconnected) s1 r3)
      as (Hp2 & Hall).
    { eapply placed_painted_floor; eauto. }
    { intros i Hi. apply elem_of_app in Hi as [Hi | Hi].
      - destruct (Hcon i Hi) as (Hi0 & room & Hl & Hk). split; [exact Hi0|].
        exists room. rewrite Hr1. split; [exact Hl|].
        eapply linked_mono; eauto.
      - apply list_elem_of_singleton in Hi. subst i. split; [by apply Hun|].
        exists room_b. rewrite Hr1. split; [exact E2|]. right.
        destruct (linked_mono _ _ _ _ _ Hp1 Hlink) as [-> | Hpa]; [exact Hpath|].
        eapply floor_path_trans; eauto. }
    { intros i Hi. apply list_elem_of_filter in Hi as [_ Hi]. by apply Hun. }
    { exact Hrun. }
    split; [eapply painted_trans; eauto|].
    intros i Hi. rewrite <- Hr1. apply Hall.
    destruct Hi as [Hi | Hi]; [left; apply elem_of_app; by left|].
    destruct (decide (i = b_idx)) as [-> | Hne].
    + left. apply elem_of_app. right. by apply list_elem_of_singleton.
    + right. by apply list_elem_of_filter.
Qed.

Lemma create_corridor_inv (self self' : BackroomsGenerator.t) (room_a room_b : Room.t)
  (r r' : Random) :
  placed self ->
  room_a ∈ BackroomsGenerator.rooms self ->
  room_b ∈ BackroomsGenerator.rooms self ->
  BackroomsGenerator._create_corridor self (Room.center room_a)
    (Room.center room_b) r = Ok (self', r') ->
  painted (fun _ => True) FLOOR self self'.
Proof.
  intros Hpl Ha Hb Hrun.
  apply list_elem_of_lookup in Ha as [i Hi], Hb as [j Hj].
  destruct (create_corridor_spec self (Room.center room_a) (Room.center room_b) r)
    as (s1 & r1 & Ec & Hp & _).
  - apply Hpl.
  - apply center_inside. eapply placed_room_fits; eauto.
  - apply center_inside. eapply placed_room_fits; eauto.
  - congruence.
Qed.

Lemma extra_corridors_inv (self self' : BackroomsGenerator.t) (r r' : Random) :
  placed self ->
  BackroomsGenerator.extra_corridors self r = Ok (self', r') ->
  painted (fun _ => True) FLOOR self self'.
Proof.
  intros Hpl Hrun. unfold BackroomsGenerator.extra_corridors in Hrun.
  apply (for_each_inv
           (fun sr : BackroomsGenerator.t * Random =>
              painted (fun _ => True) FLOOR self sr.1)) in Hrun.
  - exact Hrun.
  - intros [s1 r1] _ [s2 r2] _ Hp1 Hbody. simpl in *.
    assert (Hpl1 : placed s1) by (eapply placed_painted_floor; eauto).
    inv_bind Hbody. destruct v as [room_a r3]. apply choice_elem in E.
    inv_bind Hbody. destruct v as [room_b r4]. apply choice_elem in E0.
    destruct (bool_decide (room_a <> room_b)).
    + eapply painted_trans; [exact Hp1|].
      exact (create_corridor_inv s1 s2 room_a room_b r4 r2 Hpl1 E E0 Hbody).
    + by injection Hbody as <- <-.
  - apply painted_refl, Hpl.
Qed.

(** After [_connect_rooms], every room is linked to room 0. *)
Lemma connect_rooms_inv (self self' : BackroomsGenerator.t) (r r' : Random)
  (room0 : Room.t) :
  placed self ->
  BackroomsGenerator.rooms self !! O = Some room0 ->
  BackroomsGenerator._connect_rooms self r = Ok (self', r') ->
  painted (fun _ => True) FLOOR self self'
  /\ forall room, room ∈ BackroomsGenerator.rooms self ->
                  linked (BackroomsGenerator.grid self') room0 room.
Proof.
  intros Hpl H0 Hrun. unfold BackroomsGenerator._connect_rooms in Hrun.
  destruct (Z.of_nat (length (BackroomsGenerator.rooms self)) <? 2) eqn:En.
  - injection Hrun as <- <-. split; [apply painted_refl, Hpl|].
    intros room Hroom. left. apply list_elem_of_lookup in Hroom as [i Hi].
    apply lookup_lt_Some in Hi as Hlt. assert (i = O) as -> by lia. congruence.
  - inv_bind Hrun. destruct v as [s1 r1].
    eapply (connect_loop_inv _ _ _ _ _ _ _ room0) in E;
      [destruct E as (Hp1 & Hall) | exact Hpl | |].
    + assert (Hpl1 : placed s1) by (eapply placed_painted_floor; eauto).
      pose proof (extra_corridors_inv _ _ _ _ Hpl1 Hrun) as Hp2.
      split; [eapply painted_trans; eauto|].
      intros room Hroom. apply list_elem_of_lookup in Hroom as [i Hi].
      apply lookup_lt_Some in Hi as Hlt.
      destruct (Hall (Z.of_nat i)) as (room' & Hl & Hk).
      * destruct i; [left; by apply list_elem_of_singleton|].
        right. apply elem_of_py_range. lia.
      * rewrite Nat2Z.id in Hl. assert (room' = room) as -> by congruence.
        eapply linked_mono; eauto.
    + intros i Hi. apply list_elem_of_singleton in Hi. subst i.
      split; [lia|]. exists room0. split; [exact H0 | by left].
    + intros i Hi. apply elem_of_py_range in Hi. lia.
Qed.

(** ** Features, pools and the level exit only touch room interiors *)

Lemma painted_dims (P : cell -> Prop) (tile : TileType) (s s' : BackroomsGenerator.t) :
  painted P tile s s' ->
  grid_dims (BackroomsGenerator.width s') (BackroomsGenerator.height s')
            (BackroomsGenerator.grid s').
Proof. by intros (_ & Hd & _). Qed.

Lemma repainted_dims (P : cell -> Prop) (s s' : BackroomsGenerator.t) :
  repainted P s s' ->
  grid_dims (BackroomsGenerator.width s') (BackroomsGenerator.height s')
            (BackroomsGenerator.grid s').
Proof. by intros (_ & Hd & _). Qed.

(** A loop whose body overwrites cells satisfying [P] does the same. *)
Lemma repaint_loop {A : Type} (P : cell -> Prop)
  (body : BackroomsGenerator.t -> A -> outcome BackroomsGenerator.t)
  (l : list A) (self : BackroomsGenerator.t) :
  grid_dims (BackroomsGenerator.width self) (BackroomsGenerator.height self)
            (BackroomsGenerator.grid self) ->
  (forall s a, same_plan self s ->
     grid_dims (BackroomsGenerator.width s) (BackroomsGenerator.height s)
               (BackroomsGenerator.grid s) ->
     exists s', body s a = Ok s' /\ repainted P s s') ->
  exists self', for_each l body self = Ok self' /\ repainted P self self'.
Proof.
  intros Hd Hbody.
  assert (Hgen : forall s, repainted P self s ->
            exists self', for_each l body s = Ok self' /\ repainted P self self').
  { induction l as [|a l IH]; intros s Hs; simpl.
    - eauto.
    - destruct (Hbody s a) as (s1 & -> & Hs1); [apply Hs | by eapply repainted_dims|].
      simpl. apply IH. eapply repainted_trans; eauto. }
  apply Hgen. by apply repainted_refl.
Qed.

Lemma paint_repainted (P : cell -> Prop) (self : BackroomsGenerator.t)
  (x y : Z) (tile : TileType) :
  grid_dims (BackroomsGenerator.width self) (BackroomsGenerator.height self)
            (BackroomsGenerator.grid self) ->
  0 <= x < BackroomsGenerator.width self ->
  0 <= y < BackroomsGenerator.height self ->
  P (x, y) ->
  exists self',
    BackroomsGenerator.paint self x y tile = Ok self' /\ repainted P self self'.
Proof.
  intros Hd Hx Hy HP.
  destruct (paint_painted P self x y tile Hd Hx Hy HP) as (s' & E & Hp & _).
  exists s'. split; [exact E|]. by eapply painted_repainted.
Qed.

Lemma interior_in_grid (W H : Z) (room : Room.t) (x y : Z) :
  room_fits W H room -> in_interior room (x, y) -> 0 <= x < W /\ 0 <= y < H.
Proof. intros (? & ? & ? & ? & ? & ?) [Hx Hy]. simpl in *. lia. Qed.

Lemma scatter_inv (self self' : BackroomsGenerator.t) (room : Room.t)
  (lo hi : Z) (tile : TileType) (r r' : Random) :
  grid_dims (BackroomsGenerator.width self) (BackroomsGenerator.height self)
            (BackroomsGenerator.grid self) ->
  room_fits (BackroomsGenerator.width self) (BackroomsGenerator.height self) room ->
  BackroomsGenerator.scatter self room lo hi tile r = Ok (self', r') ->
  repainted (in_interior room) self self'.
Proof.
  intros Hd Hfit Hrun. unfold BackroomsGenerator.scatter in Hrun.
  inv_bind Hrun. destruct v as [count r1].
  apply (for_each_inv
           (fun sr : BackroomsGenerator.t * Random =>
              repainted (in_interior room) self sr.1)) in Hrun.
  - exact Hrun.
  - intros [s1 r2] _ [s2 r3] _ Hp1 Hbody. simpl in *.
    inv_bind Hbody. destruct v as [x r4]. inv_bind Hbody. destruct v as [y r5].
    apply randint_bounds in E0, E1. inv_bind Hbody.
    destruct (bool_decide (v = FLOOR)); [|by injection Hbody as <- <-].
    inv_bind Hbody. injection Hbody as <- <-.
    eapply repainted_trans; [exact Hp1|].
    pose proof Hp1 as ((Hw & Hh & _) & Hd1 & _).
    assert (Hint : in_interior room (x, y)) by (split; simpl; lia).
    destruct (interior_in_grid _ _ _ _ _ Hfit Hint) as [Hx Hy].
    destruct (paint_repainted (in_interior room) s1 x y tile Hd1)
      as (s' & Es' & Hr'); [lia | lia | exact Hint |].
    congruence.
  - by apply repainted_refl.
Qed.

Lemma flood_inv (self : BackroomsGenerator.t) (room : Room.t) (xs ys : list Z) :
  grid_dims (BackroomsGenerator.width self) (BackroomsGenerator.height self)
            (BackroomsGenerator.grid self) ->
  room_fits (BackroomsGenerator.width self) (BackroomsGenerator.height self) room ->
  exists self',
    for_each ys
      (fun self y =>
         for_each xs
           (fun self x =>
              if (Room.x room <? x) && (x <? Room.x room + Room.width room - 1)
                 && (Room.y room <? y) && (y <? Room.y room + Room.height room - 1)
              then BackroomsGenerator.paint self x y WATER_DAMAGE
              else Ok self) self) self = Ok self'
    /\ repainted (in_interior room) self self'.
Proof.
  intros Hd Hfit.
  destruct (paint_loop2
              (fun _ x y =>
                 (Room.x room <? x) && (x <? Room.x room + Room.width room - 1)
                 && (Room.y room <? y) && (y <? Room.y room + Room.height room - 1))
              WATER_DAMAGE (in_interior room) xs ys self Hd)
    as (self' & E & Hp & _).
  - reflexivity.
  - intros x y _ _ Hc. rewrite !andb_true_iff in Hc.
    assert (Hint : in_interior room (x, y)) by (split; simpl; lia).
    destruct (interior_in_grid _ _ _ _ _ Hfit Hint). auto.
  - exists self'. split; [exact E | by eapply painted_repainted].
Qed.

Lemma add_features_by_type_inv (self self' : BackroomsGenerator.t) (room : Room.t)
  (r r' : Random) :
  grid_dims (BackroomsGenerator.width self) (BackroomsGenerator.height self)
            (BackroomsGenerator.grid self) ->
  room_fits (BackroomsGenerator.width self) (BackroomsGenerator.height self) room ->
  BackroomsGenerator._add_features_by_type self room r = Ok (self', r') ->
  repainted (in_interior room) self self'.
Proof.
  intros Hd Hfit Hrun. unfold BackroomsGenerator._add_features_by_type in Hrun.
  destruct (Room.center room) as [cx cy].
  destruct (Room.room_type room);
    try (injection Hrun as <- <-; by apply repainted_refl);
    try (eapply scatter_inv; eauto; fail).
  inv_bind Hrun. injection Hrun as <- <-.
  edestruct (flood_inv self room) as (s' & Es' & Hr'); [exact Hd | exact Hfit |].
  rewrite Es' in E. by injection E as <-.
Qed.

Lemma add_pool_inv (self : BackroomsGenerator.t) (room : Room.t) :
  grid_dims (BackroomsGenerator.width self) (BackroomsGenerator.height self)
            (BackroomsGenerator.grid self) ->
  room_fits (BackroomsGenerator.width self) (BackroomsGenerator.height self) room ->
  exists self',
    BackroomsGenerator.add_pool self room = Ok self'
    /\ repainted (in_interior room) self self'.
Proof.
  intros Hd Hfit. unfold BackroomsGenerator.add_pool.
  match goal with
  | |- exists self', for_each ?ys ?body self ≫= _ = _ /\ _ =>
      destruct (repaint_loop (in_interior room) body ys self Hd)
        as (s1 & E1 & Hr1)
  end.
  { intros s y Hs Hds.
    apply (repaint_loop (in_interior room)); [exact Hds|].
    intros s' x Hs' Hds'.
    destruct ((Room.x room + 2 <=? x) && (x <=? Room.x room + Room.width room - 3)
              && (Room.y room + 2 <=? y)
              && (y <=? Room.y room + Room.height room - 3)) eqn:Eg;
      [|exists s'; split; [reflexivity | by apply repainted_refl]].
    destruct (_ || _ || _ || _);
      [|exists s'; split; [reflexivity | by apply repainted_refl]].
    destruct (negb _);
      [|exists s'; split; [reflexivity | by apply repainted_refl]].
    rewrite !andb_true_iff in Eg.
    assert (Hint : in_interior room (x, y)) by (split; simpl; lia).
    destruct Hs as (Hw & Hh & _), Hs' as (Hw' & Hh' & _).
    destruct (interior_in_grid _ _ _ _ _ Hfit Hint).
    apply paint_repainted; [exact Hds' | lia | lia | exact Hint]. }
  rewrite E1. cbn [mbind outcome_bind].
  match goal with
  | |- exists self', for_each ?ys ?body s1 = _ /\ _ =>
      destruct (repaint_loop (in_interior room) body ys s1
                  (repainted_dims _ _ _ Hr1)) as (s2 & E2 & Hr2)
  end.
  { intros s y Hs Hds.
    apply (repaint_loop (in_interior room)); [exact Hds|].
    intros s' x Hs' Hds'.
    destruct ((Room.x room + 2 <? x) && (x <? Room.x room + Room.width room - 3)
              && (Room.y room + 2 <? y)
              && (y <? Room.y room + Room.height room - 3)) eqn:Eg;
      [|exists s'; split; [reflexivity | by apply repainted_refl]].
    rewrite !andb_true_iff in Eg.
    assert (Hint : in_interior room (x, y)) by (split; simpl; lia).
    destruct Hr1 as ((Hw1 & Hh1 & _) & _), Hs as (Hw & Hh & _),
      Hs' as (Hw' & Hh' & _).
    destruct (interior_in_grid _ _ _ _ _ Hfit Hint).
    apply paint_repainted; [exact Hds' | lia | lia | exact Hint]. }
  exists s2. split; [exact E2|]. eapply repainted_trans; eauto.
Qed.

Lemma border_not_interior (rooms : list Room.t) (room : Room.t) (c : cell) :
  pairwise_disjoint rooms -> room ∈ rooms -> on_border room c ->
  ~ any_interior rooms c.
Proof.
  intros Hdis Hroom [Hin Hnot] (room' & Hroom' & Hint).
  destruct (decide (room' = room)) as [-> | Hne]; [by apply Hnot|].
  apply list_elem_of_lookup in Hroom as [i Hi], Hroom' as [j Hj].
  assert (Hij : i <> j) by (intros ->; congruence).
  eapply overlaps_false_disjoint; [exact (Hdis i j _ _ Hij Hi Hj) | exact Hin|].
  destruct Hint as [? ?]. split; lia.
Qed.

Lemma placed_repainted (s s' : BackroomsGenerator.t) :
  placed s -> repainted (any_interior (BackroomsGenerator.rooms s)) s s' ->
  placed s'.
Proof.
  intros [Hd Hf Hdis Hb] ((Hw & Hh & _ & Hr) & Hd' & Hc). split.
  - exact Hd'.
  - by rewrite Hw, Hh, Hr.
  - by rewrite Hr.
  - intros room c Hroom Hbor. rewrite Hr in Hroom. unfold is_floor.
    destruct (Hc c) as [-> | Hint]; [by eapply Hb|].
    exfalso. eapply border_not_interior; eauto.
Qed.

(** A loop over the rooms whose body overwrites interior cells of the room
    it is given. *)
Lemma room_loop_inv {S : Type} (proj : S -> BackroomsGenerator.t)
  (body : S -> Room.t -> outcome S) (self0 : BackroomsGenerator.t) (s s' : S) :
  placed self0 ->
  (forall s1 room s2,
     room ∈ BackroomsGenerator.rooms self0 -> same_plan self0 (proj s1) ->
     grid_dims (BackroomsGenerator.width (proj s1))
               (BackroomsGenerator.height (proj s1))
               (BackroomsGenerator.grid (proj s1)) ->
     room_fits (BackroomsGenerator.width (proj s1))
               (BackroomsGenerator.height (proj s1)) room ->
     body s1 room = Ok s2 -> repainted (in_interior room) (proj s1) (proj s2)) ->
  proj s = self0 ->
  for_each (BackroomsGenerator.rooms self0) body s = Ok s' ->
  repainted (any_interior (BackroomsGenerator.rooms self0)) self0 (proj s').
Proof.
  intros Hpl Hbody Hs Hrun.
  apply (for_each_inv
           (fun s1 => repainted (any_interior (BackroomsGenerator.rooms self0))
                                self0 (proj s1))) in Hrun.
  - exact Hrun.
  - intros s1 room s2 Hroom Hr1 Hb.
    eapply repainted_trans; [exact Hr1|].
    pose proof Hr1 as (Hsp & Hd1 & _).
    apply (repainted_weaken (in_interior room)); [intros c Hc; exists room; auto|].
    apply (Hbody s1 room s2 Hroom Hsp Hd1); [|exact Hb].
    destruct Hsp as (-> & -> & _). destruct Hpl as [_ Hf _ _].
    rewrite Forall_forall in Hf. by apply Hf.
  - rewrite Hs. apply repainted_refl, Hpl.
Qed.

Lemma add_room_features_inv (self self' : BackroomsGenerator.t) (r r' : Random) :
  placed self ->
  BackroomsGenerator._add_room_features self r = Ok (self', r') ->
  repainted (any_interior (BackroomsGenerator.rooms self)) self self'.
Proof.
  intros Hpl Hrun. unfold BackroomsGenerator._add_room_features in Hrun.
  apply (room_loop_inv fst _ self) in Hrun; [exact Hrun | exact Hpl | | reflexivity].
  intros [s1 r1] room [s2 r2] _ _ Hd Hfit Hb. simpl in *.
  eapply add_features_by_type_inv; eauto.
Qed.

Lemma add_pools_inv (self self' : BackroomsGenerator.t) :
  placed self ->
  BackroomsGenerator._add_pools self = Ok self' ->
  repainted (any_interior (BackroomsGenerator.rooms self)) self self'.
Proof.
  intros Hpl Hrun. unfold BackroomsGenerator._add_pools in Hrun.
  apply (room_loop_inv (fun s => s) _ self) in Hrun;
    [exact Hrun | exact Hpl | | reflexivity].
  intros s1 room s2 _ _ Hd Hfit Hb.
  destruct (bool_decide (Room.room_type room = POOL_AREA)).
  - destruct (add_pool_inv s1 room Hd Hfit) as (s' & Es' & Hr'). congruence.
  - injection Hb as <-. by apply repainted_refl.
Qed.

Lemma add_poolrooms_features_inv (self self' : BackroomsGenerator.t) (r r' : Random) :
  placed self ->
  BackroomsGenerator._add_poolrooms_features self r = Ok (self', r') ->
  repainted (any_interior (BackroomsGenerator.rooms self)) self self'.
Proof.
  intros Hpl Hrun. unfold BackroomsGenerator._add_poolrooms_features in Hrun.
  apply (room_loop_inv fst _ self) in Hrun; [exact Hrun | exact Hpl | | reflexivity].
  intros [s1 r1] room [s2 r2] _ _ Hd Hfit Hb. simpl in *.
  destruct (bool_decide (Room.room_type room = POOL_CHANGING)).
  - eapply scatter_inv; eauto.
  - injection Hb as <- <-. by apply repainted_refl.
Qed.

Lemma place_exit_inv (P : cell -> Prop) (self self' : BackroomsGenerator.t)
  (corners : list (Z * Z)) :
  grid_dims (BackroomsGenerator.width self) (BackroomsGenerator.height self)
            (BackroomsGenerator.grid self) ->
  Forall P corners ->
  BackroomsGenerator.place_exit self corners = Ok self' ->
  repainted P self self'.
Proof.
  intros Hd Hall. induction Hall as [|[x y] corners HP _ IH]; simpl.
  - intros [= <-]. by apply repainted_refl.
  - destruct (BackroomsGenerator.inside self x y) eqn:Ein; [|exact IH].
    intros Hrun. inv_bind Hrun.
    destruct (bool_decide (v = FLOOR)); [|by apply IH].
    apply inside_true in Ein as [Hx Hy].
    destruct (paint_repainted P self x y LEVEL_EXIT Hd Hx Hy HP) as (s' & Es' & Hr').
    congruence.
Qed.

Lemma add_level_exit_inv (self self' : BackroomsGenerator.t) (r r' : Random) :
  placed self ->
  BackroomsGenerator._add_level_exit self r = Ok (self', r') ->
  repainted (any_interior (BackroomsGenerator.rooms self)) self self'.
Proof.
  intros Hpl Hrun. unfold BackroomsGenerator._add_level_exit in Hrun.
  destruct (BackroomsGenerator.rooms self) as [|room0 rest] eqn:Erooms.
  { injection Hrun as <- <-. apply repainted_refl, Hpl. }
  rewrite <- Erooms in *.
  inv_bind Hrun. destruct v as [exit_room r1]. inv_bind Hrun.
  injection Hrun as <- <-.
  assert (Hexit : exit_room ∈ BackroomsGenerator.rooms self).
  { apply choice_elem in E.
    destruct (List.filter _ (BackroomsGenerator.rooms self)) eqn:Ef; [exact E|].
    rewrite <- Ef in E. apply list_elem_of_In, filter_In in E as [E _].
    by apply list_elem_of_In. }
  assert (Hfit : room_fits (BackroomsGenerator.width self)
                           (BackroomsGenerator.height self) exit_room).
  { destruct Hpl as [_ Hf _ _]. rewrite Forall_forall in Hf. by apply Hf. }
  eapply place_exit_inv; [apply Hpl | | exact E0].
  destruct Hfit as (? & ? & ? & ? & ? & ?).
  repeat constructor; exists exit_room; (split; [exact Hexit|]);
    split; simpl; lia.
Qed.

(** ** From corridors between centres to paths between borders *)

Lemma stands_for_exists (rooms : list Room.t) (c : cell) :
  exists c', stands_for rooms c c'.
Proof.
  destruct (decide (Exists (fun room => in_interior room c) rooms)) as [Hex | Hno].
  - apply Exists_exists in Hex as (room & Hroom & Hint).
    exists (corner room). right. eauto.
  - exists c. left. split; [|reflexivity].
    intros (room & Hroom & Hint). apply Hno, Exists_exists. eauto.
Qed.

Lemma interior_in_room (room : Room.t) (c : cell) :
  in_interior room c -> in_room room c.
Proof. intros [? ?]. split; lia. Qed.

Lemma adjacent_interior_in_room (room : Room.t) (a b : cell) :
  in_interior room a -> adjacent a b -> in_room room b.
Proof.
  intros [? ?] [[? [?|?]] | [? [?|?]]]; split; lia.
Qed.

Lemma same_room (rooms : list Room.t) (ra rb : Room.t) (c : cell) :
  pairwise_disjoint rooms -> ra ∈ rooms -> rb ∈ rooms ->
  in_room ra c -> in_room rb c -> ra = rb.
Proof.
  intros Hdis Ha Hb Hina Hinb.
  destruct (decide (ra = rb)) as [-> | Hne]; [reflexivity|]. exfalso.
  apply list_elem_of_lookup in Ha as [i Hi], Hb as [j Hj].
  assert (Hij : i <> j) by (intros ->; congruence).
  eapply overlaps_false_disjoint; [exact (Hdis i j _ _ Hij Hi Hj) | eauto | eauto].
Qed.

Lemma corner_on_border (W H : Z) (room : Room.t) :
  room_fits W H room -> on_border room (corner room).
Proof.
  intros (? & ? & ? & ? & ? & ?). split.
  - split; simpl; lia.
  - intros [? ?]. simpl in *. lia.
Qed.

Section Transfer.

(** [g] is the grid after the corridors, [g'] the final grid: the rooms are
    pairwise disjoint, their borders are floor in [g'], and [g'] differs
    from [g] inside room interiors only. *)
Variables (W H : Z) (rooms : list Room.t) (g g' : LevelMap).
Hypothesis Hfit : Forall (room_fits W H) rooms.
Hypothesis Hdis : pairwise_disjoint rooms.
Hypothesis Hborder : forall room c, room ∈ rooms -> on_border room c -> is_floor g' c.
Hypothesis Hframe :
  forall c, cell_tile g' c = cell_tile g c \/ any_interior rooms c.

Lemma room_fits_of (room : Room.t) : room ∈ rooms -> room_fits W H room.
Proof. intros Hroom. rewrite Forall_forall in Hfit. by apply Hfit. Qed.

Lemma border_ring (room : Room.t) (c : cell) :
  room ∈ rooms -> on_border room c -> floor_path g' (corner room) c.
Proof.
  intros Hroom Hc. pose proof (room_fits_of room Hroom) as (? & ? & ? & ? & ? & ?).
  destruct c as [cx cy]. destruct Hc as [[Hx Hy] Hnot]. simpl in Hx, Hy.
  unfold in_interior in Hnot. simpl in Hnot. unfold corner.
  assert (Hb : forall x y,
             Room.x room <= x < Room.x room + Room.width room ->
             Room.y room <= y < Room.y room + Room.height room ->
             x = Room.x room \/ x = Room.x room + Room.width room - 1
             \/ y = Room.y room \/ y = Room.y room + Room.height room - 1 ->
             is_floor g' (x, y)).
  { intros x y Hx' Hy' Hedge. apply (Hborder room); [exact Hroom|]. split.
    - by split.
    - intros [? ?]. simpl in *. lia. }
  assert (Hcase : cy = Room.y room \/ cx = Room.x room
                  \/ cy = Room.y room + Room.height room - 1
                  \/ cx = Room.x room + Room.width room - 1) by lia.
  destruct Hcase as [-> | [-> | [-> | ->]]].
  - apply floor_row. intros x Hx'. apply Hb; lia.
  - apply floor_column. intros y Hy'. apply Hb; lia.
  - apply floor_path_trans with (Room.x room, Room.y room + Room.height room - 1).
    + apply floor_column. intros y Hy'. apply Hb; lia.
    + apply floor_row. intros x Hx'. apply Hb; lia.
  - apply floor_path_trans with (Room.x room + Room.width room - 1, Room.y room).
    + apply floor_row. intros x Hx'. apply Hb; lia.
    + apply floor_column. intros y Hy'. apply Hb; lia.
Qed.

Lemma stands_for_floor (c c' : cell) :
  is_floor g c -> stands_for rooms c c' -> is_floor g' c'.
Proof.
  intros Hc [[Hno ->] | (room & Hroom & _ & ->)].
  - unfold is_floor in *. destruct (Hframe c) as [-> | Hint]; [exact Hc | tauto].
  - apply (Hborder room); [exact Hroom|].
    eapply corner_on_border, room_fits_of, Hroom.
Qed.

Lemma stands_for_same (c a' b' : cell) :
  is_floor g c -> stands_for rooms c a' -> stands_for rooms c b' ->
  floor_path g' a' b'.
Proof.
  intros Hc Ha Hb. pose proof (stands_for_floor _ _ Hc Ha) as Hfa.
  destruct Ha as [[Hno ->] | (ra & Hra & Hia & ->)],
    Hb as [[Hno' ->] | (rb & Hrb & Hib & ->)].
  - by constructor.
  - exfalso. apply Hno. exists rb. auto.
  - exfalso. apply Hno'. exists ra. auto.
  - assert (ra = rb) as ->.
    { eapply same_room; eauto using interior_in_room. }
    by constructor.
Qed.

Lemma stands_for_adjacent (a b a' b' : cell) :
  is_floor g a -> is_floor g b -> adjacent a b ->
  stands_for rooms a a' -> stands_for rooms b b' ->
  floor_path g' a' b'.
Proof.
  intros Hfa Hfb Hadj Ha Hb.
  pose proof (stands_for_floor _ _ Hfa Ha) as Hfa'.
  pose proof (stands_for_floor _ _ Hfb Hb) as Hfb'.
  destruct Ha as [[Hnoa ->] | (ra & Hra & Hia & ->)],
    Hb as [[Hnob ->] | (rb & Hrb & Hib & ->)].
  - apply path_step with a; [by constructor | exact Hadj | exact Hfb'].
  - apply floor_path_sym, border_ring; [exact Hrb|]. split.
    + eapply adjacent_interior_in_room; [exact Hib | by apply adjacent_sym].
    + intros Hint. apply Hnoa. exists rb. auto.
  - apply border_ring; [exact Hra|]. split.
    + eapply adjacent_interior_in_room; eauto.
    + intros Hint. apply Hnob. exists ra. auto.
  - assert (ra = rb) as ->.
    { eapply same_room; [exact Hdis | exact Hra | exact Hrb | |].
      - eapply adjacent_interior_in_room; eauto.
      - by apply interior_in_room. }
    by constructor.
Qed.

Lemma floor_path_transfer (a b : cell) :
  floor_path g a b ->
  forall a' b', stands_for rooms a a' -> stands_for rooms b b' ->
                floor_path g' a' b'.
Proof.
  induction 1 as [c Hc | a b c Hab IH Hadj Hc]; intros a' c' Ha' Hc'.
  - eapply stands_for_same; eauto.
  - destruct (stands_for_exists rooms b) as (b' & Hb').
    apply floor_path_trans with b'; [by apply IH|].
    eapply stands_for_adjacent; [| exact Hc | exact Hadj | exact Hb' | exact Hc'].
    by apply floor_path_floor_r in Hab.
Qed.

(** Rooms linked through their centres in [g] have their borders joined
    by floor tiles in [g']. *)
Lemma linked_borders (room0 room : Room.t) (a b : cell) :
  room0 ∈ rooms -> room ∈ rooms ->
  linked g room0 room ->
  on_border room0 a -> on_border room b ->
  floor_path g' a b.
Proof.
  intros H0 Hroom Hlink Ha Hb.
  apply floor_path_trans with (corner room0);
    [by apply floor_path_sym, border_ring|].
  apply floor_path_trans with (corner room); [|by apply border_ring].
  destruct Hlink as [-> | Hpath].
  - constructor. apply (Hborder room0); [exact H0|].
    eapply corner_on_border, room_fits_of, H0.
  - apply (floor_path_transfer _ _ Hpath).
    + right. exists room0. split; [exact H0|]. split; [|reflexivity].
      eapply center_interior, room_fits_of, H0.
    + right. exists room. split; [exact Hroom|]. split; [|reflexivity].
      eapply center_interior, room_fits_of, Hroom.
Qed.

End Transfer.

(** ** The generated level (C1, C2) *)

Lemma paint_same_plan (s s' : BackroomsGenerator.t) (x y : Z) (tile : TileType) :
  BackroomsGenerator.paint s x y tile = Ok s' -> same_plan s s'.
Proof.
  unfold BackroomsGenerator.paint. intros Hrun.
  inv_bind Hrun. inv_bind Hrun. inv_bind Hrun. injection Hrun as <-.
  repeat split.
Qed.

Lemma carve_room_same_plan (s s' : BackroomsGenerator.t) (room : Room.t) :
  BackroomsGenerator._carve_room s room = Ok s' -> same_plan s s'.
Proof.
  unfold BackroomsGenerator._carve_room. intros Hrun.
  apply (for_each_inv (fun s1 => same_plan s s1)) in Hrun;
    [exact Hrun | | apply same_plan_refl].
  intros s1 y s2 _ Hs1 Hrow.
  apply (for_each_inv (fun s3 => same_plan s s3)) in Hrow;
    [exact Hrow | | exact Hs1].
  intros s3 x s4 _ Hs3 Hb.
  destruct (BackroomsGenerator.inside s3 x y).
  - eapply same_plan_trans; [exact Hs3|]. eapply paint_same_plan; eauto.
  - by injection Hb as <-.
Qed.

Lemma place_room_prefix (self self' : BackroomsGenerator.t) (room_type : RoomType)
  (lit_chance : Q) (r r' : Random) :
  BackroomsGenerator.place_room self room_type lit_chance r = Ok (self', r') ->
  BackroomsGenerator.rooms self `prefix_of` BackroomsGenerator.rooms self'.
Proof.
  unfold BackroomsGenerator.place_room. intros Hrun.
  inv_bind Hrun. destruct v as [[w h] r1].
  inv_bind Hrun. destruct v as [x r2]. inv_bind Hrun. destruct v as [y r3].
  destruct (random r3) as [u r4].
  destruct (negb _).
  - inv_bind Hrun. injection Hrun as <- <-.
    apply carve_room_same_plan in E2 as (_ & _ & _ & ->). simpl.
    by apply prefix_app_r.
  - by injection Hrun as <- <-.
Qed.

Lemma placement_phase_inv (W H : Z) (level : LevelType) (fuel : nat)
  (r r1 : Random) (s1 : BackroomsGenerator.t) :
  placement_phase fuel (BackroomsGenerator.init W H level) r = Ok (s1, r1) ->
  placed s1
  /\ BackroomsGenerator.width s1 = W /\ BackroomsGenerator.height s1 = H
  /\ Z.of_nat (length (BackroomsGenerator.rooms s1)) <= target_rooms level.
Proof.
  unfold placement_phase. simpl.
  assert (Hroomy : placed_if_roomy (BackroomsGenerator.init W H level)).
  { intros HW HH. apply placed_init; simpl in *; lia. }
  destruct level; simpl; intros Hrun.
  - unfold BackroomsGenerator._generate_rooms in Hrun. inv_bind Hrun.
    destruct v as [[n s] r2]. injection Hrun as -> ->.
    destruct (generate_rooms_loop_inv _ _ _ _ _ _ _ Hroomy ltac:(simpl; lia) E)
      as (_ & (Hw & Hh & _) & Hlen & _ & _ & Hpl).
    split; [apply Hpl; simpl; lia|]. auto.
  - unfold BackroomsGenerator._generate_pool_rooms in Hrun. inv_bind Hrun.
    destruct v as [[n s] r2]. injection Hrun as -> ->.
    destruct (generate_pool_rooms_loop_inv _ _ _ _ _ _ _ Hroomy ltac:(simpl; lia) E)
      as (_ & (Hw & Hh & _) & Hlen & _ & _ & Hpl).
    split; [apply Hpl; simpl; lia|]. auto.
Qed.

Lemma generate_inv (W H : Z) (level : LevelType) (fuel : nat) (r r' : Random)
  (g : LevelMap) (rooms : list Room.t) :
  BackroomsGenerator.generate fuel (BackroomsGenerator.init W H level) r
  = Ok (g, rooms, r') ->
  exists s1 r1 s2 s3,
    placement_phase fuel (BackroomsGenerator.init W H level) r = Ok (s1, r1)
    /\ placed s1 /\ BackroomsGenerator.rooms s1 = rooms
    /\ painted (fun _ => True) FLOOR s1 s2
    /\ (forall room0, rooms !! O = Some room0 ->
        forall room, room ∈ rooms ->
                     linked (BackroomsGenerator.grid s2) room0 room)
    /\ repainted (any_interior rooms) s2 s3
    /\ placed s3 /\ BackroomsGenerator.grid s3 = g.
Proof.
  unfold BackroomsGenerator.generate. intros Hrun.
  inv_bind Hrun. destruct v as [s3 r3]. injection Hrun as <- <- <-.
  assert (Hconn : forall s1 r1 s2 r2,
            placed s1 ->
            BackroomsGenerator._connect_rooms s1 r1 = Ok (s2, r2) ->
            painted (fun _ => True) FLOOR s1 s2
            /\ (forall room0, BackroomsGenerator.rooms s1 !! O = Some room0 ->
                forall room, room ∈ BackroomsGenerator.rooms s1 ->
                             linked (BackroomsGenerator.grid s2) room0 room)).
  { intros s1 r1 s2 r2 Hpl Hc.
    destruct (BackroomsGenerator.rooms s1) as [|room0 rest] eqn:Er.
    - unfold BackroomsGenerator._connect_rooms in Hc. rewrite Er in Hc.
      simpl in Hc. injection Hc as <- <-.
      split; [apply painted_refl, Hpl|]. intros room0 Hr0. discriminate.
    - rewrite <- Er. split.
      + eapply (connect_rooms_inv s1 s2 r1 r2 room0); eauto. by rewrite Er.
      + intros room0' Hr0.
        eapply (connect_rooms_inv s1 s2 r1 r2 room0'); eauto. }
  unfold placement_phase. simpl in *.
  destruct level; simpl in E.
  - unfold BackroomsGenerator._generate_level_0 in E.
    inv_bind E. destruct v as [s1 r1].
    destruct (placement_phase_inv W H LEVEL_0 fuel r r1 s1 E0) as (Hpl1 & _).
    inv_bind E. destruct v as [s2 r2].
    destruct (Hconn _ _ _ _ Hpl1 E1) as (Hp2 & Hlink).
    assert (Hpl2 : placed s2) by (eapply placed_painted_floor; eauto).
    assert (Hr2 : BackroomsGenerator.rooms s2 = BackroomsGenerator.rooms s1)
      by apply Hp2.
    inv_bind E. destruct v as [s2' r2'].
    pose proof (add_room_features_inv _ _ _ _ Hpl2 E2) as Hf1.
    assert (Hpl2' : placed s2') by (eapply placed_repainted; eauto).
    assert (Hr2' : BackroomsGenerator.rooms s2' = BackroomsGenerator.rooms s2)
      by apply Hf1.
    pose proof (add_level_exit_inv _ _ _ _ Hpl2' E) as Hf2.
    rewrite Hr2' in Hf2.
    assert (Hf : repainted (any_interior (BackroomsGenerator.rooms s2)) s2 s3)
      by (eapply repainted_trans; eauto).
    assert (Hr3 : BackroomsGenerator.rooms s3 = BackroomsGenerator.rooms s1).
    { destruct Hf as ((_ & _ & _ & ->) & _). exact Hr2. }
    exists s1, r1, s2, s3. rewrite Hr3.
    split; [exact E0|]. split; [exact Hpl1|]. split; [reflexivity|].
    split; [exact Hp2|]. split; [exact Hlink|].
    split; [by rewrite <- Hr2|]. split; [|reflexivity].
    exact (placed_repainted _ _ Hpl2 Hf).
  - unfold BackroomsGenerator._generate_poolrooms in E.
    inv_bind E. destruct v as [s1 r1].
    destruct (placement_phase_inv W H POOLROOMS fuel r r1 s1 E0) as (Hpl1 & _).
    inv_bind E. destruct v as [s2 r2].
    destruct (Hconn _ _ _ _ Hpl1 E1) as (Hp2 & Hlink).
    assert (Hpl2 : placed s2) by (eapply placed_painted_floor; eauto).
    assert (Hr2 : BackroomsGenerator.rooms s2 = BackroomsGenerator.rooms s1)
      by apply Hp2.
    inv_bind E. rename v into sa.
    pose proof (add_pools_inv _ _ Hpl2 E2) as Hf0.
    assert (Hpla : placed sa) by (eapply placed_repainted; eauto).
    assert (Hra : BackroomsGenerator.rooms sa = BackroomsGenerator.rooms s2)
      by apply Hf0.
    inv_bind E. destruct v as [s2' r2'].
    pose proof (add_poolrooms_features_inv _ _ _ _ Hpla E3) as Hf1.
    rewrite Hra in Hf1.
    assert (Hf01 : repainted (any_interior (BackroomsGenerator.rooms s2)) s2 s2')
      by (eapply repainted_trans; eauto).
    assert (Hpl2' : placed s2') by exact (placed_repainted _ _ Hpl2 Hf01).
    assert (Hr2' : BackroomsGenerator.rooms s2' = BackroomsGenerator.rooms s2)
      by apply Hf01.
    pose proof (add_level_exit_inv _ _ _ _ Hpl2' E) as Hf2.
    rewrite Hr2' in Hf2.
    assert (Hf : repainted (any_interior (BackroomsGenerator.rooms s2)) s2 s3)
      by (eapply repainted_trans; eauto).
    assert (Hr3 : BackroomsGenerator.rooms s3 = BackroomsGenerator.rooms s1).
    { destruct Hf as ((_ & _ & _ & ->) & _). exact Hr2. }
    exists s1, r1, s2, s3. rewrite Hr3.
    split; [exact E0|]. split; [exact Hpl1|]. split; [reflexivity|].
    split; [exact Hp2|]. split; [exact Hlink|].
    split; [by rewrite <- Hr2|]. split; [|reflexivity].
    exact (placed_repainted _ _ Hpl2 Hf).
Qed.

(** C1. When [generate] returns a level, every room of its room list is
    reachable from room 0 by 4-adjacent floor tiles, in both biomes and for
    every random source: a floor path joins a tile of room 0 to a tile of
    the room, and indeed every border tile of room 0 to every border tile
    of the room. *)
Theorem every_room_reachable (W H : Z) (level : LevelType) (fuel : nat)
  (r r' : Random) (g : LevelMap) (rooms : list Room.t) (room0 room : Room.t) :
  BackroomsGenerator.generate fuel (BackroomsGenerator.init W H level) r
  = Ok (g, rooms, r') ->
  rooms !! O = Some room0 ->
  room ∈ rooms ->
  room_reachable g room0 room
  /\ forall a b, on_border room0 a -> on_border room b -> floor_path g a b.
Proof.
  intros Hrun H0 Hroom.
  destruct (generate_inv _ _ _ _ _ _ _ _ Hrun)
    as (s1 & r1 & s2 & s3 & _ & Hpl1 & Hr1 & Hp2 & Hlink & Hf & Hpl3 & <-).
  assert (Hr3 : BackroomsGenerator.rooms s3 = rooms).
  { destruct Hf as ((_ & _ & _ & ->) & _).
    destruct Hp2 as ((_ & _ & _ & ->) & _). exact Hr1. }
  destruct Hpl3 as [Hd3 Hfit3 Hdis3 Hb3]. rewrite Hr3 in Hfit3, Hdis3, Hb3.
  assert (H0in : room0 ∈ rooms) by (apply list_elem_of_lookup; eauto).
  assert (Hall : forall a b, on_border room0 a -> on_border room b ->
                             floor_path (BackroomsGenerator.grid s3) a b).
  { intros a b Ha Hb.
    apply (linked_borders _ _ rooms (BackroomsGenerator.grid s2)
             (BackroomsGenerator.grid s3) Hfit3 Hdis3 Hb3) with room0 room; auto.
    destruct Hf as (_ & _ & Hc). exact Hc. }
  split; [|exact Hall].
  rewrite Forall_forall in Hfit3.
  pose proof (corner_on_border _ _ _ (Hfit3 _ H0in)) as Hc0.
  pose proof (corner_on_border _ _ _ (Hfit3 _ Hroom)) as Hc.
  exists (corner room0), (corner room).
  split; [apply Hc0|]. split; [apply Hc|]. by apply Hall.
Qed.

Lemma returned_parts (o : outcome (LevelMap * list Room.t * Random)) :
  Examples.returned o = true ->
  o = Ok (Examples.level_of o, Examples.rooms_of o, Examples.random_of o).
Proof. destruct o as [[[g rooms] r]|e|]; [reflexivity | discriminate | discriminate]. Qed.

Lemma every_room_reachable_witness :
  Examples.generated_level_0
  = Ok (Examples.level_of Examples.generated_level_0,
        Examples.rooms_of Examples.generated_level_0,
        Examples.random_of Examples.generated_level_0)
  /\ Examples.rooms_of Examples.generated_level_0 !! O = Some Examples.office
  /\ Examples.server_room ∈ Examples.rooms_of Examples.generated_level_0
  /\ room_reachable (Examples.level_of Examples.generated_level_0)
       Examples.office Examples.server_room
  /\ forall a b, on_border Examples.office a -> on_border Examples.server_room b ->
                 floor_path (Examples.level_of Examples.generated_level_0) a b.
Proof.
  assert (Hrun : Examples.generated_level_0
                 = Ok (Examples.level_of Examples.generated_level_0,
                       Examples.rooms_of Examples.generated_level_0,
                       Examples.random_of Examples.generated_level_0))
    by (apply returned_parts; vm_compute; reflexivity).
  assert (H0 : Examples.rooms_of Examples.generated_level_0 !! O
               = Some Examples.office) by (vm_compute; reflexivity).
  assert (H1 : Examples.server_room ∈ Examples.rooms_of Examples.generated_level_0).
  { apply list_elem_of_lookup. exists 1%nat. vm_compute. reflexivity. }
  split; [exact Hrun|]. split; [exact H0|]. split; [exact H1|].
  exact (every_room_reachable 60 40 LEVEL_0 2000 Examples.golden_stream
           (Examples.random_of Examples.generated_level_0)
           (Examples.level_of Examples.generated_level_0)
           (Examples.rooms_of Examples.generated_level_0)
           Examples.office Examples.server_room Hrun H0 H1).
Defined.

(** C2. In every generated level the rectangles of two distinct rooms of the
    final room list do not intersect (they share no tile), and rooms keep
    their rectangle after placement: an attempt only appends to the room
    list, and the final list is the list the placement loop produced. *)
Theorem rooms_disjoint_and_fixed (W H : Z) (level : LevelType) (fuel : nat)
  (r r' : Random) (g : LevelMap) (rooms : list Room.t) :
  BackroomsGenerator.generate fuel (BackroomsGenerator.init W H level) r
  = Ok (g, rooms, r') ->
  pairwise_disjoint rooms
  /\ (forall (i j : nat) (ri rj : Room.t) (c : cell),
        i <> j -> rooms !! i = Some ri -> rooms !! j = Some rj ->
        in_room ri c -> ~ in_room rj c)
  /\ (exists s1 r1,
        placement_phase fuel (BackroomsGenerator.init W H level) r = Ok (s1, r1)
        /\ BackroomsGenerator.rooms s1 = rooms)
  /\ (forall self room_type lit_chance r0 self' r0',
        BackroomsGenerator.place_room self room_type lit_chance r0
        = Ok (self', r0') ->
        BackroomsGenerator.rooms self `prefix_of` BackroomsGenerator.rooms self').
Proof.
  intros Hrun.
  destruct (generate_inv _ _ _ _ _ _ _ _ Hrun)
    as (s1 & r1 & s2 & s3 & Hph & Hpl1 & Hr1 & _).
  destruct Hpl1 as [_ _ Hdis _]. rewrite Hr1 in Hdis.
  split; [exact Hdis|]. split.
  - intros i j ri rj c Hij Hi Hj Hci Hcj.
    exact (overlaps_false_disjoint ri rj c (Hdis i j ri rj Hij Hi Hj) Hci Hcj).
  - split; [by exists s1, r1|].
    intros self room_type lit_chance r0 self' r0'. apply place_room_prefix.
Qed.

Lemma rooms_disjoint_and_fixed_witness :
  Examples.generated_poolrooms
  = Ok (Examples.level_of Examples.generated_poolrooms,
        Examples.rooms_of Examples.generated_poolrooms,
        Examples.random_of Examples.generated_poolrooms)
  /\ (2 <= length (Examples.rooms_of Examples.generated_poolrooms))%nat
  /\ pairwise_disjoint (Examples.rooms_of Examples.generated_poolrooms).
Proof.
  assert (Hrun : Examples.generated_poolrooms
                 = Ok (Examples.level_of Examples.generated_poolrooms,
                       Examples.rooms_of Examples.generated_poolrooms,
                       Examples.random_of Examples.generated_poolrooms))
    by (apply returned_parts; vm_compute; reflexivity).
  split; [exact Hrun|]. split; [vm_compute; lia|].
  exact (proj1 (rooms_disjoint_and_fixed 60 40 POOLROOMS 2000 Examples.golden_stream
                  (Examples.random_of Examples.generated_poolrooms)
                  (Examples.level_of Examples.generated_poolrooms)
                  (Examples.rooms_of Examples.generated_poolrooms) Hrun)).
Defined.

(** ** The placement budget (C8) *)

Lemma randint_ok (a b : Z) (r : Random) :
  a <= b ->
  exists v, randint a b r = Ok (v, (next_draw r).2) /\ a <= v <= b.
Proof.
  intros Hab. unfold randint. destruct (b <? a) eqn:E; [lia|].
  simpl. eexists. split; [reflexivity|].
  pose proof (Z.mod_pos_bound (draws r (cursor r)) (b - a + 1)). lia.
Qed.

Lemma place_room_total (self : BackroomsGenerator.t) (room_type : RoomType)
  (lit_chance : Q) (r : Random) :
  placed self ->
  47 <= BackroomsGenerator.width self -> 22 <= BackroomsGenerator.height self ->
  exists self' r',
    BackroomsGenerator.place_room self room_type lit_chance r = Ok (self', r')
    /\ draws r' = draws r.
Proof.
  intros Hpl HW HH. unfold BackroomsGenerator.place_room, BackroomsGenerator._get_room_size.
  destruct (BackroomsGenerator.size_ranges room_type) as [[[min_w max_w] min_h] max_h]
    eqn:Esz.
  apply size_ranges_bounds in Esz.
  destruct (randint_ok min_w max_w r) as (w & -> & Hw); [lia|].
  cbn [mbind outcome_bind].
  destruct (randint_ok min_h max_h (next_draw r).2) as (h & -> & Hh); [lia|].
  cbn [mbind outcome_bind].
  destruct (randint_ok 1 (BackroomsGenerator.width self - w - 1)
              (next_draw (next_draw r).2).2) as (x & -> & Hx); [lia|].
  cbn [mbind outcome_bind].
  destruct (randint_ok 1 (BackroomsGenerator.height self - h - 1)
              (next_draw (next_draw (next_draw r).2).2).2) as (y & -> & Hy); [lia|].
  cbn [mbind outcome_bind].
  unfold random. cbn [next_draw fst snd].
  destruct (negb _).
  - match goal with
    | |- context [BackroomsGenerator._carve_room ?s ?room] =>
        destruct (carve_room_spec s room) as (s' & -> & _)
    end.
    + apply Hpl.
    + repeat split; simpl; lia.
    + cbn [mbind outcome_bind]. eauto.
  - eauto.
Qed.

Lemma choice_room_type (r : Random) :
  exists room_type,
    choice all_room_types r = Ok (room_type, (next_draw r).2)
    /\ BackroomsGenerator.is_pool_type room_type
       = draws_pool_type (draws r (cursor r)).
Proof.
  unfold draws_pool_type, choice, all_room_types.
  change (Z.of_nat (length _)) with 15. cbn [next_draw fst snd].
  pose proof (Z.mod_pos_bound (draws r (cursor r)) 15 ltac:(lia)) as Hm.
  match goal with
  | |- context [py_index ?l ?i] =>
      destruct (py_index_in_range l i) as (a & -> & _); [exact Hm|]
  end.
  cbn [mbind outcome_bind]. eauto.
Qed.

Lemma generate_pool_rooms_loop_total (n : nat) :
  forall (fuel : nat) (attempts : Z) (self : BackroomsGenerator.t) (r : Random),
    placed self ->
    47 <= BackroomsGenerator.width self -> 22 <= BackroomsGenerator.height self ->
    150 - attempts <= Z.of_nat n ->
    (n + 1 <= fuel)%nat ->
    exists m self' r',
      BackroomsGenerator._generate_pool_rooms_loop fuel attempts self r
      = Ok (m, self', r').
Proof.
  induction n as [|n IH]; intros fuel attempts self r Hpl HW HH Hn Hfuel;
    (destruct fuel as [|fuel]; [lia|]);
    cbn [BackroomsGenerator._generate_pool_rooms_loop];
    destruct ((Z.of_nat (length (BackroomsGenerator.rooms self)) <? 15)
              && (attempts <? 150)) eqn:Eg; eauto.
  - apply andb_true_iff in Eg as [_ Ea]. lia.
  - destruct (choice_ok [POOL_AREA; POOL_CORRIDOR; POOL_CHANGING] r ltac:(discriminate))
      as (room_type & -> & _).
    cbn [mbind outcome_bind].
    destruct (place_room_total self room_type LIT_CHANCE_POOLROOMS (next_draw r).2
                Hpl HW HH) as (s1 & r1 & E1 & _).
    rewrite E1. cbn [mbind outcome_bind].
    destruct (place_room_inv _ _ _ _ _ _ Hpl E1) as (Hpl1 & Hw1 & Hh1 & _).
    apply IH; [exact Hpl1 | lia | lia | lia | lia].
Qed.

Lemma generate_rooms_loop_total (k n : nat) :
  forall (fuel : nat) (attempts : Z) (self : BackroomsGenerator.t) (r : Random),
    placed self ->
    47 <= BackroomsGenerator.width self -> 22 <= BackroomsGenerator.height self ->
    discards_bounded k r ->
    150 - attempts <= Z.of_nat n ->
    (n * (k + 1) + 1 <= fuel)%nat ->
    exists m self' r',
      BackroomsGenerator._generate_rooms_loop fuel attempts self r
      = Ok (m, self', r').
Proof.
  induction n as [|n IH]; intros fuel attempts self r Hpl HW HH Hk Hn Hfuel.
  - destruct fuel as [|fuel]; [lia|].
    cbn [BackroomsGenerator._generate_rooms_loop].
    destruct ((Z.of_nat (length (BackroomsGenerator.rooms self)) <? 20)
              && (attempts <? 150)) eqn:Eg; eauto.
    apply andb_true_iff in Eg as [_ Ea]. lia.
  - destruct (Hk (cursor r)) as (j & Hj & Hdraw).
    assert (Hfuel' : (j + 1 + (n * (k + 1) + 1) <= fuel)%nat) by lia.
    clear Hfuel Hj. revert fuel r Hk Hdraw Hfuel'.
    induction j as [|j IHj]; intros fuel r Hk Hdraw Hfuel;
      (destruct fuel as [|fuel]; [lia|]);
      cbn [BackroomsGenerator._generate_rooms_loop];
      destruct ((Z.of_nat (length (BackroomsGenerator.rooms self)) <? 20)
                && (attempts <? 150)) eqn:Eg; eauto;
      destruct (choice_room_type r) as (room_type & -> & Hpool);
      cbn [mbind outcome_bind].
    + rewrite Nat.add_0_r in Hdraw. rewrite Hpool, Hdraw.
      destruct (place_room_total self room_type LIT_CHANCE_LEVEL_0 (next_draw r).2
                  Hpl HW HH) as (s1 & r1 & E1 & Hd1).
      rewrite E1. cbn [mbind outcome_bind].
      destruct (place_room_inv _ _ _ _ _ _ Hpl E1) as (Hpl1 & Hw1 & Hh1 & _).
      apply IH; [exact Hpl1 | lia | lia | | lia | lia].
      unfold discards_bounded. rewrite Hd1. exact Hk.
    + rewrite Hpool. destruct (draws_pool_type (draws r (cursor r))) eqn:Ed.
      * apply IHj; [exact Hk | | lia].
        cbn [next_draw snd cursor draws].
        replace (S (cursor r) + j)%nat with (cursor r + S j)%nat by lia.
        exact Hdraw.
      * destruct (place_room_total self room_type LIT_CHANCE_LEVEL_0 (next_draw r).2
                    Hpl HW HH) as (s1 & r1 & E1 & Hd1).
        rewrite E1. cbn [mbind outcome_bind].
        destruct (place_room_inv _ _ _ _ _ _ Hpl E1) as (Hpl1 & Hw1 & Hh1 & _).
        apply IH; [exact Hpl1 | lia | lia | | lia | lia].
        unfold discards_bounded. rewrite Hd1. exact Hk.
Qed.

Lemma generate_rooms_loop_exit (fuel : nat) (attempts n : Z)
  (self self' : BackroomsGenerator.t) (r r' : Random) :
  BackroomsGenerator._generate_rooms_loop fuel attempts self r = Ok (n, self', r') ->
  20 <= Z.of_nat (length (BackroomsGenerator.rooms self')) \/ 150 <= n.
Proof.
  revert attempts self r. induction fuel as [|fuel IH]; intros attempts self r Hrun;
    cbn [BackroomsGenerator._generate_rooms_loop] in Hrun; [discriminate|].
  destruct ((Z.of_nat (length (BackroomsGenerator.rooms self)) <? 20)
            && (attempts <? 150)) eqn:Eg.
  - inv_bind Hrun. destruct v as [room_type r1].
    destruct (BackroomsGenerator.is_pool_type room_type); [by eapply IH|].
    inv_bind Hrun. destruct v as [s1 r2]. by eapply IH.
  - injection Hrun as <- <- <-. apply andb_false_iff in Eg as [Eg | Eg]; lia.
Qed.

Lemma generate_pool_rooms_loop_exit (fuel : nat) (attempts n : Z)
  (self self' : BackroomsGenerator.t) (r r' : Random) :
  BackroomsGenerator._generate_pool_rooms_loop fuel attempts self r
  = Ok (n, self', r') ->
  15 <= Z.of_nat (length (BackroomsGenerator.rooms self')) \/ 150 <= n.
Proof.
  revert attempts self r. induction fuel as [|fuel IH]; intros attempts self r Hrun;
    cbn [BackroomsGenerator._generate_pool_rooms_loop] in Hrun; [discriminate|].
  destruct ((Z.of_nat (length (BackroomsGenerator.rooms self)) <? 15)
            && (attempts <? 150)) eqn:Eg.
  - inv_bind Hrun. destruct v as [room_type r1].
    inv_bind Hrun. destruct v as [s1 r2]. by eapply IH.
  - injection Hrun as <- <- <-. apply andb_false_iff in Eg as [Eg | Eg]; lia.
Qed.

Lemma always_pool_discarded (fuel : nat) :
  forall (c : nat) (attempts : Z) (self : BackroomsGenerator.t),
    Z.of_nat (length (BackroomsGenerator.rooms self)) < 20 -> attempts < 150 ->
    BackroomsGenerator._generate_rooms_loop fuel attempts self
      {| draws := draws Examples.always_pool; cursor := c |}
    = OutOfFuel.
Proof.
  induction fuel as [|fuel IH]; intros c attempts self Hlen Hatt;
    cbn [BackroomsGenerator._generate_rooms_loop]; [reflexivity|].
  replace ((Z.of_nat (length (BackroomsGenerator.rooms self)) <? 20)
           && (attempts <? 150)) with true
    by (symmetry; apply andb_true_iff; split; lia).
  change (choice all_room_types {| draws := draws Examples.always_pool; cursor := c |})
    with (Ok (POOL_AREA, {| draws := draws Examples.always_pool; cursor := S c |})).
  cbn [mbind outcome_bind].
  change (BackroomsGenerator.is_pool_type POOL_AREA) with true. cbn iota.
  by apply IH.
Qed.

(** C8. Room placement stops when the target room count is reached (20 in
    the standard biome, 15 in the alternate) or when 150 counted attempts
    are used up.  On a grid of at least 47 by 22 tiles the loop of the
    alternate biome returns within 150 iterations for every random source;
    the loop of the standard biome, which discards a pool-type draw without
    counting it, returns within [150 * (k + 1)] iterations when among any
    [k + 1] consecutive draws one is not a pool type.  Whenever the loop of
    the standard biome returns, it has counted at most 150 attempts and
    holds at most 20 rooms; fewer rooms than the target are a normal
    result. *)
Theorem placement_budget (W H : Z) (r : Random) (k : nat) :
  47 <= W -> 22 <= H ->
  (exists n s' r',
      BackroomsGenerator._generate_pool_rooms_loop 151 0
        (BackroomsGenerator.init W H POOLROOMS) r = Ok (n, s', r')
      /\ 0 <= n <= 150
      /\ Z.of_nat (length (BackroomsGenerator.rooms s')) <= 15
      /\ (Z.of_nat (length (BackroomsGenerator.rooms s')) = 15 \/ n = 150))
  /\ (discards_bounded k r ->
      exists n s' r',
        BackroomsGenerator._generate_rooms_loop (150 * (k + 1) + 1) 0
          (BackroomsGenerator.init W H LEVEL_0) r = Ok (n, s', r')
        /\ 0 <= n <= 150
        /\ Z.of_nat (length (BackroomsGenerator.rooms s')) <= 20
        /\ (Z.of_nat (length (BackroomsGenerator.rooms s')) = 20 \/ n = 150))
  /\ (forall fuel n s' r',
        BackroomsGenerator._generate_rooms_loop fuel 0
          (BackroomsGenerator.init W H LEVEL_0) r = Ok (n, s', r') ->
        0 <= n <= 150
        /\ Z.of_nat (length (BackroomsGenerator.rooms s')) <= 20).
Proof.
  intros HW HH.
  assert (Hinit : forall level, placed (BackroomsGenerator.init W H level))
    by (intros level; apply placed_init; lia).
  assert (Hbound : forall fuel n s' r',
             BackroomsGenerator._generate_rooms_loop fuel 0
               (BackroomsGenerator.init W H LEVEL_0) r = Ok (n, s', r') ->
             0 <= n <= 150
             /\ Z.of_nat (length (BackroomsGenerator.rooms s')) <= 20).
  { intros fuel n s' r' E.
    destruct (generate_rooms_loop_inv _ _ _ _ _ _ _
                (fun _ _ => Hinit LEVEL_0) ltac:(simpl; lia) E)
      as (_ & _ & Hlen & Hn & Hn' & _). lia. }
  split; [|split; [|exact Hbound]].
  - destruct (generate_pool_rooms_loop_total 150 151 0
                (BackroomsGenerator.init W H POOLROOMS) r (Hinit POOLROOMS))
      as (n & s' & r' & E); [simpl; lia | simpl; lia | lia | lia |].
    exists n, s', r'. split; [exact E|].
    destruct (generate_pool_rooms_loop_inv _ _ _ _ _ _ _
                (fun _ _ => Hinit POOLROOMS) ltac:(simpl; lia) E)
      as (_ & _ & Hlen & Hn & Hn' & _).
    pose proof (generate_pool_rooms_loop_exit _ _ _ _ _ _ _ E). lia.
  - intros Hk.
    destruct (generate_rooms_loop_total k 150 (150 * (k + 1) + 1) 0
                (BackroomsGenerator.init W H LEVEL_0) r (Hinit LEVEL_0))
      as (n & s' & r' & E); [simpl; lia | simpl; lia | exact Hk | lia | lia |].
    exists n, s', r'. split; [exact E|].
    destruct (Hbound _ _ _ _ E) as (Hn & Hlen).
    pose proof (generate_rooms_loop_exit _ _ _ _ _ _ _ E). lia.
Qed.

Lemma placement_budget_witness :
  47 <= 288 /\ 22 <= 162
  /\ discards_bounded 0 Examples.zero_stream
  /\ (exists n s' r',
         BackroomsGenerator._generate_pool_rooms_loop 151 0
           (BackroomsGenerator.init 288 162 POOLROOMS) Examples.zero_stream
         = Ok (n, s', r')
         /\ 0 <= n <= 150
         /\ Z.of_nat (length (BackroomsGenerator.rooms s')) <= 15
         /\ (Z.of_nat (length (BackroomsGenerator.rooms s')) = 15 \/ n = 150))
  /\ (exists n s' r',
         BackroomsGenerator._generate_rooms_loop (150 * (0 + 1) + 1) 0
           (BackroomsGenerator.init 288 162 LEVEL_0) Examples.zero_stream
         = Ok (n, s', r')
         /\ 0 <= n <= 150
         /\ Z.of_nat (length (BackroomsGenerator.rooms s')) <= 20
         /\ (Z.of_nat (length (BackroomsGenerator.rooms s')) = 20 \/ n = 150)).
Proof.
  assert (HW : 47 <= 288) by lia.
  assert (HH : 22 <= 162) by lia.
  assert (Hk : discards_bounded 0 Examples.zero_stream).
  { intros i. exists 0%nat. split; [lia | reflexivity]. }
  destruct (placement_budget 288 162 Examples.zero_stream 0 HW HH)
    as (Hpool & Hlevel & _).
  split; [exact HW|]. split; [exact HH|]. split; [exact Hk|].
  split; [exact Hpool | exact (Hlevel Hk)].
Defined.

(** C8 as stated fails for the standard biome: on a source whose every draw
    selects [POOL_AREA] each iteration is discarded before the attempt is
    counted, and the loop returns for no amount of fuel. *)
Lemma placement_never_returns_counterexample :
  ~ exists fuel res,
      BackroomsGenerator._generate_rooms_loop fuel 0
        (BackroomsGenerator.init 288 162 LEVEL_0) Examples.always_pool
      = Ok res.
Proof.
  intros (fuel & res & E).
  pose proof (always_pool_discarded fuel 0%nat 0
                (BackroomsGenerator.init 288 162 LEVEL_0)
                ltac:(simpl; lia) ltac:(lia)) as Hout.
  assert (Heq : Ok res = OutOfFuel) by (rewrite <- E; exact Hout).
  discriminate.
Qed.

(** * Further properties of the code *)

(** ** Rooms *)

(** X1. [Room.overlaps] is the test that two rooms share a tile. *)
Theorem overlaps_iff_common_tile (a b : Room.t) :
  0 < Room.width a -> 0 < Room.height a ->
  0 < Room.width b -> 0 < Room.height b ->
  (Room.overlaps a b = true <-> exists c, in_room a c /\ in_room b c)
  /\ Room.overlaps a a = true
  /\ Room.overlaps b a = Room.overlaps a b.
Proof.
  intros Hwa Hha Hwb Hhb. split; [|split].
  - split.
    + unfold Room.overlaps. rewrite negb_true_iff, !orb_false_iff, !Z.leb_gt.
      intros [[[H1 H2] H3] H4].
      exists (Z.max (Room.x a) (Room.x b), Z.max (Room.y a) (Room.y b)).
      unfold in_room. simpl. lia.
    + intros (c & Ha & Hb).
      destruct (Room.overlaps a b) eqn:E; [reflexivity|].
      destruct (overlaps_false_disjoint a b c E Ha Hb).
  - unfold Room.overlaps. rewrite negb_true_iff, !orb_false_iff, !Z.leb_gt. lia.
  - apply overlaps_sym.
Qed.

Lemma overlaps_iff_common_tile_witness :
  Room.overlaps Examples.office Samples.office_annex = true
  <-> exists c, in_room Examples.office c /\ in_room Samples.office_annex c.
Proof.
  apply (overlaps_iff_common_tile Examples.office Samples.office_annex);
    simpl; lia.
Defined.

(** ** What the generator writes *)

(** The index a Python list access resolves to. *)
Lemma py_index_lookup {A : Type} (l : list A) (i : Z) (a : A) :
  py_index l i = Ok a ->
  l !! Z.to_nat (if i <? 0 then i + Z.of_nat (length l) else i) = Some a.
Proof.
  unfold py_index. cbv zeta.
  destruct ((0 <=? _) && (_ <? _)); [|discriminate].
  destruct (l !! _) eqn:E; [|discriminate]. by intros [= <-].
Qed.

Lemma py_assign_insert {A : Type} (l l' : list A) (i : Z) (a : A) :
  py_assign l i a = Ok l' ->
  l' = <[Z.to_nat (if i <? 0 then i + Z.of_nat (length l) else i) := a]> l.
Proof.
  unfold py_assign. cbv zeta.
  destruct ((0 <=? _) && (_ <? _)); [|discriminate]. by intros [= <-].
Qed.

Lemma regrid_refl (T : TileType -> Prop) (g : LevelMap) : regrid T g g.
Proof. by left. Qed.

Lemma regrid_trans (T : TileType -> Prop) (g1 g2 g3 : LevelMap) :
  regrid T g1 g2 -> regrid T g2 g3 -> regrid T g1 g3.
Proof.
  intros H1 H2 c. destruct (H2 c) as [-> | Hn]; [apply H1 | by right].
Qed.

Lemma regrid_weaken (T T' : TileType -> Prop) (g1 g2 : LevelMap) :
  (forall tile, T tile -> T' tile) -> regrid T g1 g2 -> regrid T' g1 g2.
Proof.
  intros HT H1 c. destruct (H1 c) as [-> | (tile & E & Ht)]; [by left|].
  right. exists tile. auto.
Qed.

Lemma paint_regrid (s s' : BackroomsGenerator.t) (x y : Z) (tile : TileType) :
  BackroomsGenerator.paint s x y tile = Ok s' ->
  regrid (eq tile) (BackroomsGenerator.grid s) (BackroomsGenerator.grid s').
Proof.
  intros Hrun. unfold BackroomsGenerator.paint in Hrun.
  inv_bind Hrun. rename v into row. inv_bind Hrun. rename v into row'.
  inv_bind Hrun. rename v into g'. injection Hrun as <-.
  apply py_index_lookup in E. apply py_assign_insert in E0, E1. subst row' g'.
  revert E. generalize (Z.to_nat (if y <? 0
                                  then y + Z.of_nat (length (BackroomsGenerator.grid s))
                                  else y)).
  generalize (Z.to_nat (if x <? 0 then x + Z.of_nat (length row) else x)).
  intros jx jy E [cx cy]. unfold cell_tile, BackroomsGenerator.set_grid.
  cbn [BackroomsGenerator.grid fst snd].
  destruct ((0 <=? cx) && (0 <=? cy)); [|by left].
  destruct (decide (Z.to_nat cy = jy)) as [Hy | Hy].
  - rewrite Hy, list_lookup_insert_eq by (by eapply lookup_lt_Some).
    rewrite E. cbn [mbind option_bind].
    destruct (decide (Z.to_nat cx = jx)) as [Hx | Hx].
    + rewrite Hx. destruct (decide (jx < length row)%nat) as [Hlt | Hge].
      * right. exists tile. by rewrite list_lookup_insert_eq.
      * left. by rewrite list_insert_ge by lia.
    + left. by rewrite list_lookup_insert_ne.
  - left. by rewrite list_lookup_insert_ne.
Qed.

(** A loop whose body only rewrites cells with tiles of [T] does so as a
    whole. *)
Lemma regrid_loop {A S : Type} (T : TileType -> Prop)
  (proj : S -> BackroomsGenerator.t) (body : S -> A -> outcome S)
  (l : list A) (s s' : S) :
  (forall s1 a s2, a ∈ l -> body s1 a = Ok s2 ->
     regrid T (BackroomsGenerator.grid (proj s1)) (BackroomsGenerator.grid (proj s2))) ->
  for_each l body s = Ok s' ->
  regrid T (BackroomsGenerator.grid (proj s)) (BackroomsGenerator.grid (proj s')).
Proof.
  intros Hbody Hrun.
  apply (for_each_inv
           (fun s1 => regrid T (BackroomsGenerator.grid (proj s))
                        (BackroomsGenerator.grid (proj s1)))) in Hrun;
    [exact Hrun | | apply regrid_refl].
  intros s1 a s2 Ha Hs1 Hb. eapply regrid_trans; [exact Hs1|]. by eapply Hbody.
Qed.

Lemma guarded_paint_regrid (s s' : BackroomsGenerator.t) (cond : bool)
  (x y : Z) (tile : TileType) :
  (if cond then BackroomsGenerator.paint s x y tile else Ok s) = Ok s' ->
  regrid (eq tile) (BackroomsGenerator.grid s) (BackroomsGenerator.grid s').
Proof.
  destruct cond; [apply paint_regrid|]. intros [= <-]. apply regrid_refl.
Qed.

Lemma carve_room_regrid (s s' : BackroomsGenerator.t) (room : Room.t) :
  BackroomsGenerator._carve_room s room = Ok s' ->
  regrid (eq FLOOR) (BackroomsGenerator.grid s) (BackroomsGenerator.grid s').
Proof.
  unfold BackroomsGenerator._carve_room.
  apply (regrid_loop _ (fun s => s)). intros s1 y s2 _.
  apply (regrid_loop _ (fun s => s)). intros s3 x s4 _.
  apply guarded_paint_regrid.
Qed.

Lemma place_room_regrid (self self' : BackroomsGenerator.t) (room_type : RoomType)
  (lit_chance : Q) (r r' : Random) :
  BackroomsGenerator.place_room self room_type lit_chance r = Ok (self', r') ->
  regrid (eq FLOOR) (BackroomsGenerator.grid self) (BackroomsGenerator.grid self').
Proof.
  unfold BackroomsGenerator.place_room. intros Hrun.
  inv_bind Hrun. destruct v as [[w h] r1].
  inv_bind Hrun. destruct v as [x r2]. inv_bind Hrun. destruct v as [y r3].
  destruct (random r3) as [u r4].
  destruct (negb _).
  - inv_bind Hrun. injection Hrun as <- <-.
    by apply carve_room_regrid in E2.
  - injection Hrun as <- <-. apply regrid_refl.
Qed.

Lemma generate_rooms_loop_regrid (fuel : nat) (attempts n : Z)
  (self self' : BackroomsGenerator.t) (r r' : Random) :
  BackroomsGenerator._generate_rooms_loop fuel attempts self r = Ok (n, self', r') ->
  regrid (eq FLOOR) (BackroomsGenerator.grid self) (BackroomsGenerator.grid self').
Proof.
  revert attempts self r. induction fuel as [|fuel IH]; intros attempts self r Hrun;
    cbn [BackroomsGenerator._generate_rooms_loop] in Hrun; [discriminate|].
  destruct (_ && _).
  - inv_bind Hrun. destruct v as [room_type r1].
    destruct (BackroomsGenerator.is_pool_type room_type); [by eapply IH|].
    inv_bind Hrun. destruct v as [s1 r2].
    eapply regrid_trans; [by eapply place_room_regrid | by eapply IH].
  - injection Hrun as <- <- <-. apply regrid_refl.
Qed.

Lemma generate_pool_rooms_loop_regrid (fuel : nat) (attempts n : Z)
  (self self' : BackroomsGenerator.t) (r r' : Random) :
  BackroomsGenerator._generate_pool_rooms_loop fuel attempts self r
  = Ok (n, self', r') ->
  regrid (eq FLOOR) (BackroomsGenerator.grid self) (BackroomsGenerator.grid self').
Proof.
  revert attempts self r. induction fuel as [|fuel IH]; intros attempts self r Hrun;
    cbn [BackroomsGenerator._generate_pool_rooms_loop] in Hrun; [discriminate|].
  destruct (_ && _).
  - inv_bind Hrun. destruct v as [room_type r1].
    inv_bind Hrun. destruct v as [s1 r2].
    eapply regrid_trans; [by eapply place_room_regrid | by eapply IH].
  - injection Hrun as <- <- <-. apply regrid_refl.
Qed.

Lemma carve_row_regrid (s s' : BackroomsGenerator.t) (xa xb y : Z) :
  BackroomsGenerator.carve_row s xa xb y = Ok s' ->
  regrid (eq FLOOR) (BackroomsGenerator.grid s) (BackroomsGenerator.grid s').
Proof.
  unfold BackroomsGenerator.carve_row.
  apply (regrid_loop _ (fun s => s)). intros s1 x s2 _.
  apply guarded_paint_regrid.
Qed.

Lemma carve_column_regrid (s s' : BackroomsGenerator.t) (x ya yb : Z) :
  BackroomsGenerator.carve_column s x ya yb = Ok s' ->
  regrid (eq FLOOR) (BackroomsGenerator.grid s) (BackroomsGenerator.grid s').
Proof.
  unfold BackroomsGenerator.carve_column.
  apply (regrid_loop _ (fun s => s)). intros s1 y s2 _.
  apply guarded_paint_regrid.
Qed.

Lemma create_corridor_regrid (s s' : BackroomsGenerator.t) (start finish : Z * Z)
  (r r' : Random) :
  BackroomsGenerator._create_corridor s start finish r = Ok (s', r') ->
  regrid (eq FLOOR) (BackroomsGenerator.grid s) (BackroomsGenerator.grid s').
Proof.
  unfold BackroomsGenerator._create_corridor.
  destruct start as [x1 y1], finish as [x2 y2]. intros Hrun.
  inv_bind Hrun. destruct v as [[|] r1]; inv_bind Hrun; inv_bind Hrun;
    injection Hrun as <- <-.
  - eapply regrid_trans; [by eapply carve_row_regrid | by eapply carve_column_regrid].
  - eapply regrid_trans; [by eapply carve_column_regrid | by eapply carve_row_regrid].
Qed.

Lemma connect_loop_regrid (fuel : nat) (connected unconnected : list Z)
  (s s' : BackroomsGenerator.t) (r r' : Random) :
  BackroomsGenerator.connect_loop fuel connected unconnected s r = Ok (s', r') ->
  regrid (eq FLOOR) (BackroomsGenerator.grid s) (BackroomsGenerator.grid s').
Proof.
  revert connected unconnected s r.
  induction fuel as [|fuel IH]; intros connected unconnected s r Hrun;
    destruct unconnected as [|u us]; cbn [BackroomsGenerator.connect_loop] in Hrun;
    try discriminate; try (injection Hrun as <- <-; apply regrid_refl).
  inv_bind Hrun. destruct v as [ia r1]. inv_bind Hrun. destruct v as [ib r2].
  inv_bind Hrun. inv_bind Hrun. inv_bind Hrun. destruct v1 as [s1 r3].
  eapply regrid_trans; [by eapply create_corridor_regrid | by eapply IH].
Qed.

Lemma extra_corridors_regrid (s s' : BackroomsGenerator.t) (r r' : Random) :
  BackroomsGenerator.extra_corridors s r = Ok (s', r') ->
  regrid (eq FLOOR) (BackroomsGenerator.grid s) (BackroomsGenerator.grid s').
Proof.
  unfold BackroomsGenerator.extra_corridors. intros Hrun.
  apply (regrid_loop (eq FLOOR) fst) in Hrun; [exact Hrun|].
  intros [s1 r1] a [s2 r2] _ Hb. cbn [fst].
  inv_bind Hb. destruct v as [room_a r3]. inv_bind Hb. destruct v as [room_b r4].
  destruct (bool_decide _).
  - by eapply create_corridor_regrid.
  - injection Hb as <- <-. apply regrid_refl.
Qed.

Lemma connect_rooms_regrid (s s' : BackroomsGenerator.t) (r r' : Random) :
  BackroomsGenerator._connect_rooms s r = Ok (s', r') ->
  regrid (eq FLOOR) (BackroomsGenerator.grid s) (BackroomsGenerator.grid s').
Proof.
  unfold BackroomsGenerator._connect_rooms. cbv zeta.
  destruct (_ <? 2); intros Hrun.
  - injection Hrun as <- <-. apply regrid_refl.
  - inv_bind Hrun. destruct v as [s1 r1].
    eapply regrid_trans; [by eapply connect_loop_regrid | by eapply extra_corridors_regrid].
Qed.

Lemma scatter_regrid (s s' : BackroomsGenerator.t) (room : Room.t) (lo hi : Z)
  (tile : TileType) (r r' : Random) :
  BackroomsGenerator.scatter s room lo hi tile r = Ok (s', r') ->
  regrid (eq tile) (BackroomsGenerator.grid s) (BackroomsGenerator.grid s').
Proof.
  unfold BackroomsGenerator.scatter. intros Hrun.
  inv_bind Hrun. destruct v as [count r1].
  apply (regrid_loop (eq tile) fst) in Hrun; [exact Hrun|].
  intros [s1 r2] a [s2 r3] _ Hb. cbn [fst].
  inv_bind Hb. destruct v as [x r4]. inv_bind Hb. destruct v as [y r5].
  inv_bind Hb. destruct (bool_decide _).
  - inv_bind Hb. injection Hb as <- <-. by eapply paint_regrid.
  - injection Hb as <- <-. apply regrid_refl.
Qed.

Lemma add_features_by_type_regrid (s s' : BackroomsGenerator.t) (room : Room.t)
  (r r' : Random) :
  BackroomsGenerator._add_features_by_type s room r = Ok (s', r') ->
  regrid (fun tile => tile ∈ [EXIT; ELECTRICAL; WATER_DAMAGE; VENT])
    (BackroomsGenerator.grid s) (BackroomsGenerator.grid s').
Proof.
  unfold BackroomsGenerator._add_features_by_type.
  destruct (Room.center room) as [cx cy].
  destruct (Room.room_type room); intros Hrun;
    try (injection Hrun as <- <-; apply regrid_refl);
    try (apply scatter_regrid in Hrun;
         eapply regrid_weaken; [|exact Hrun]; intros tile <-; set_solver).
  inv_bind Hrun. injection Hrun as <- <-.
  apply (regrid_loop (eq WATER_DAMAGE) (fun s => s)) in E.
  - eapply regrid_weaken; [|exact E]. intros tile <-. set_solver.
  - intros s1 y s2 _. apply (regrid_loop _ (fun s => s)). intros s3 x s4 _.
    apply guarded_paint_regrid.
Qed.

Lemma add_room_features_regrid (s s' : BackroomsGenerator.t) (r r' : Random) :
  BackroomsGenerator._add_room_features s r = Ok (s', r') ->
  regrid (fun tile => tile ∈ [EXIT; ELECTRICAL; WATER_DAMAGE; VENT])
    (BackroomsGenerator.grid s) (BackroomsGenerator.grid s').
Proof.
  unfold BackroomsGenerator._add_room_features. intros Hrun.
  apply (regrid_loop (fun tile => tile ∈ [EXIT; ELECTRICAL; WATER_DAMAGE; VENT]) fst)
    in Hrun; [exact Hrun|].
  intros [s1 r1] room [s2 r2] _. apply add_features_by_type_regrid.
Qed.

Lemma add_pool_regrid (s s' : BackroomsGenerator.t) (room : Room.t) :
  BackroomsGenerator.add_pool s room = Ok s' ->
  regrid (fun tile => tile ∈ [POOL_EDGE; POOL])
    (BackroomsGenerator.grid s) (BackroomsGenerator.grid s').
Proof.
  unfold BackroomsGenerator.add_pool. cbv zeta. intros Hrun. inv_bind Hrun.
  eapply regrid_trans.
  - apply (regrid_loop (fun tile => tile ∈ [POOL_EDGE; POOL]) (fun s => s)) in E;
      [exact E|].
    intros s1 y s2 _. apply (regrid_loop _ (fun s => s)). intros s3 x s4 _ Hb.
    destruct (_ && _ && _ && _); [|injection Hb as <-; apply regrid_refl].
    destruct (_ || _ || _ || _); [|injection Hb as <-; apply regrid_refl].
    apply guarded_paint_regrid in Hb.
    eapply regrid_weaken; [|exact Hb]. intros tile <-. set_solver.
  - apply (regrid_loop (fun tile => tile ∈ [POOL_EDGE; POOL]) (fun s => s)) in Hrun;
      [exact Hrun|].
    intros s1 y s2 _. apply (regrid_loop _ (fun s => s)). intros s3 x s4 _ Hb.
    apply guarded_paint_regrid in Hb.
    eapply regrid_weaken; [|exact Hb]. intros tile <-. set_solver.
Qed.

Lemma add_pools_regrid (s s' : BackroomsGenerator.t) :
  BackroomsGenerator._add_pools s = Ok s' ->
  regrid (fun tile => tile ∈ [POOL_EDGE; POOL])
    (BackroomsGenerator.grid s) (BackroomsGenerator.grid s').
Proof.
  unfold BackroomsGenerator._add_pools.
  apply (regrid_loop _ (fun s => s)). intros s1 room s2 _ Hb.
  destruct (bool_decide _); [by eapply add_pool_regrid|].
  injection Hb as <-. apply regrid_refl.
Qed.

Lemma add_poolrooms_features_regrid (s s' : BackroomsGenerator.t) (r r' : Random) :
  BackroomsGenerator._add_poolrooms_features s r = Ok (s', r') ->
  regrid (eq EXIT) (BackroomsGenerator.grid s) (BackroomsGenerator.grid s').
Proof.
  unfold BackroomsGenerator._add_poolrooms_features. intros Hrun.
  apply (regrid_loop (eq EXIT) fst) in Hrun; [exact Hrun|].
  intros [s1 r1] room [s2 r2] _ Hb. cbn [fst].
  destruct (bool_decide _); [by eapply scatter_regrid|].
  injection Hb as <- <-. apply regrid_refl.
Qed.

Lemma place_exit_regrid (s s' : BackroomsGenerator.t) (corners : list (Z * Z)) :
  BackroomsGenerator.place_exit s corners = Ok s' ->
  regrid (eq LEVEL_EXIT) (BackroomsGenerator.grid s) (BackroomsGenerator.grid s').
Proof.
  induction corners as [|[x y] rest IH]; cbn [BackroomsGenerator.place_exit];
    intros Hrun.
  - injection Hrun as <-. apply regrid_refl.
  - destruct (BackroomsGenerator.inside s x y); [|by apply IH].
    inv_bind Hrun. destruct (bool_decide _); [by eapply paint_regrid | by apply IH].
Qed.

Lemma add_level_exit_regrid (s s' : BackroomsGenerator.t) (r r' : Random) :
  BackroomsGenerator._add_level_exit s r = Ok (s', r') ->
  regrid (eq LEVEL_EXIT) (BackroomsGenerator.grid s) (BackroomsGenerator.grid s').
Proof.
  unfold BackroomsGenerator._add_level_exit.
  destruct (BackroomsGenerator.rooms s) eqn:Er; intros Hrun.
  - injection Hrun as <- <-. apply regrid_refl.
  - cbv zeta in Hrun. inv_bind Hrun. destruct v as [exit_room r1].
    inv_bind Hrun. injection Hrun as <- <-. by eapply place_exit_regrid.
Qed.

Lemma init_cells (W H : Z) (level : LevelType) (c : cell) (tile : TileType) :
  cell_tile (BackroomsGenerator.grid (BackroomsGenerator.init W H level)) c
  = Some tile -> tile = WALL.
Proof.
  unfold cell_tile. simpl. destruct (_ && _); [|discriminate].
  destruct (replicate _ _ !! _) as [row|] eqn:Erow; [|discriminate].
  apply lookup_replicate in Erow as [-> _]. cbn [mbind option_bind].
  intros Ht. by apply lookup_replicate in Ht as [-> _].
Qed.

Lemma generate_regrid (W H : Z) (level : LevelType) (fuel : nat) (r r' : Random)
  (g : LevelMap) (rooms : list Room.t) :
  BackroomsGenerator.generate fuel (BackroomsGenerator.init W H level) r
  = Ok (g, rooms, r') ->
  regrid (fun tile => tile ∈ biome_tiles level)
    (BackroomsGenerator.grid (BackroomsGenerator.init W H level)) g.
Proof.
  unfold BackroomsGenerator.generate. intros Hrun.
  inv_bind Hrun. destruct v as [s3 r3]. injection Hrun as <- <- <-.
  cbn [BackroomsGenerator.level_type BackroomsGenerator.init] in E.
  destruct level; simpl in E.
  - unfold BackroomsGenerator._generate_level_0, BackroomsGenerator._generate_rooms in E.
    inv_bind E. destruct v as [s1 r1]. inv_bind E0. destruct v as [[n s0] r0].
    injection E0 as -> ->.
    inv_bind E. destruct v as [s2 r2]. inv_bind E. destruct v as [s2' r2'].
    apply generate_rooms_loop_regrid in E1. apply connect_rooms_regrid in E0.
    apply add_room_features_regrid in E2. apply add_level_exit_regrid in E.
    eapply regrid_trans; [|eapply regrid_weaken; [|exact E]];
      [|intros tile <-; set_solver].
    eapply regrid_trans; [|eapply regrid_weaken; [|exact E2]];
      [|intros tile; set_solver].
    eapply regrid_trans; [|eapply regrid_weaken; [|exact E0]];
      [|intros tile <-; set_solver].
    eapply regrid_weaken; [|exact E1]. intros tile <-. set_solver.
  - unfold BackroomsGenerator._generate_poolrooms,
      BackroomsGenerator._generate_pool_rooms in E.
    inv_bind E. destruct v as [s1 r1]. inv_bind E0. destruct v as [[n s0] r0].
    injection E0 as -> ->.
    inv_bind E. destruct v as [s2 r2]. inv_bind E. rename v into sa.
    inv_bind E. destruct v as [s2' r2'].
    apply generate_pool_rooms_loop_regrid in E1. apply connect_rooms_regrid in E0.
    apply add_pools_regrid in E2. apply add_poolrooms_features_regrid in E3.
    apply add_level_exit_regrid in E.
    eapply regrid_trans; [|eapply regrid_weaken; [|exact E]];
      [|intros tile <-; set_solver].
    eapply regrid_trans; [|eapply regrid_weaken; [|exact E3]];
      [|intros tile <-; set_solver].
    eapply regrid_trans; [|eapply regrid_weaken; [|exact E2]];
      [|intros tile; set_solver].
    eapply regrid_trans; [|eapply regrid_weaken; [|exact E0]];
      [|intros tile <-; set_solver].
    eapply regrid_weaken; [|exact E1]. intros tile <-. set_solver.
Qed.

(** X2. Whatever the random source, a generated level holds only the tiles of
    its biome: walls, floor, the level exit and the features of the biome.
    The tile types [EMPTY], [DOOR], [STAIRWELL] and [ELEVATOR] never occur,
    pool tiles never occur in the standard biome, and vents, water damage
    and electrical hazards never occur in the poolrooms. *)
Theorem generated_tiles_of_biome (W H : Z) (level : LevelType) (fuel : nat)
  (r r' : Random) (g : LevelMap) (rooms : list Room.t) :
  BackroomsGenerator.generate fuel (BackroomsGenerator.init W H level) r
  = Ok (g, rooms, r') ->
  forall c tile, cell_tile g c = Some tile -> tile ∈ biome_tiles level.
Proof.
  intros Hrun c tile Hc.
  destruct (generate_regrid _ _ _ _ _ _ _ _ Hrun c) as [Hsame | (t & Ht & Hin)].
  - rewrite Hsame in Hc. apply init_cells in Hc as ->. destruct level; set_solver.
  - congruence.
Qed.

Lemma generated_tiles_of_biome_witness :
  Samples.poolrooms_run
  = Ok (Examples.level_of Samples.poolrooms_run,
        Examples.rooms_of Samples.poolrooms_run,
        Examples.random_of Samples.poolrooms_run)
  /\ cell_tile (Examples.level_of Samples.poolrooms_run) (30, 8) = Some POOL
  /\ forall c tile,
       cell_tile (Examples.level_of Samples.poolrooms_run) c = Some tile ->
       tile ∈ biome_tiles POOLROOMS.
Proof.
  assert (Hrun : Samples.poolrooms_run
                 = Ok (Examples.level_of Samples.poolrooms_run,
                       Examples.rooms_of Samples.poolrooms_run,
                       Examples.random_of Samples.poolrooms_run))
    by (apply returned_parts; vm_compute; reflexivity).
  split; [exact Hrun|]. split; [vm_compute; reflexivity|].
  exact (generated_tiles_of_biome 60 40 POOLROOMS 2000 Examples.golden_stream
           (Examples.random_of Samples.poolrooms_run)
           (Examples.level_of Samples.poolrooms_run)
           (Examples.rooms_of Samples.poolrooms_run) Hrun).
Defined.

(** ** The rooms of a generated level *)

Lemma get_room_size_sized (room_type : RoomType) (r r' : Random) (w h : Z) :
  BackroomsGenerator._get_room_size room_type r = Ok (w, h, r') ->
  let '(min_w, max_w, min_h, max_h) := BackroomsGenerator.size_ranges room_type in
  min_w <= w <= max_w /\ min_h <= h <= max_h.
Proof.
  unfold BackroomsGenerator._get_room_size.
  destruct (BackroomsGenerator.size_ranges room_type) as [[[min_w max_w] min_h] max_h].
  intros Hrun. inv_bind Hrun. destruct v as [w' r1].
  inv_bind Hrun. destruct v as [h' r2]. injection Hrun as <- <- <-.
  apply randint_bounds in E, E0. lia.
Qed.

Lemma place_room_typed (P : Room.t -> Prop) (self self' : BackroomsGenerator.t)
  (room_type : RoomType) (lit_chance : Q) (r r' : Random) :
  BackroomsGenerator.place_room self room_type lit_chance r = Ok (self', r') ->
  (forall room, Room.room_type room = room_type -> sized room -> P room) ->
  Forall P (BackroomsGenerator.rooms self) ->
  Forall P (BackroomsGenerator.rooms self').
Proof.
  unfold BackroomsGenerator.place_room. intros Hrun HQ Hall.
  inv_bind Hrun. destruct v as [[w h] r1]. apply get_room_size_sized in E.
  inv_bind Hrun. destruct v as [x r2]. inv_bind Hrun. destruct v as [y r3].
  destruct (random r3) as [u r4].
  destruct (negb _).
  - inv_bind Hrun. injection Hrun as <- <-.
    apply carve_room_same_plan in E2 as (_ & _ & _ & ->). simpl.
    apply Forall_app. split; [exact Hall|]. constructor; [|constructor].
    apply HQ; [reflexivity|]. unfold sized. simpl. exact E.
  - by injection Hrun as <- <-.
Qed.

Lemma generate_rooms_loop_typed (fuel : nat) (attempts n : Z)
  (self self' : BackroomsGenerator.t) (r r' : Random) :
  BackroomsGenerator._generate_rooms_loop fuel attempts self r = Ok (n, self', r') ->
  Forall (fun room => sized room /\ biome_room LEVEL_0 room)
         (BackroomsGenerator.rooms self) ->
  Forall (fun room => sized room /\ biome_room LEVEL_0 room)
         (BackroomsGenerator.rooms self').
Proof.
  revert attempts self r. induction fuel as [|fuel IH]; intros attempts self r Hrun;
    cbn [BackroomsGenerator._generate_rooms_loop] in Hrun; [discriminate|].
  destruct (_ && _).
  - inv_bind Hrun. destruct v as [room_type r1].
    destruct (BackroomsGenerator.is_pool_type room_type) eqn:Ep; [by eapply IH|].
    inv_bind Hrun. destruct v as [s1 r2]. intros Hall.
    eapply IH; [exact Hrun|]. eapply place_room_typed; [exact E0| |exact Hall].
    intros room Ht Hs. split; [exact Hs|]. unfold biome_room. by rewrite Ht.
  - by injection Hrun as <- <- <-.
Qed.

Lemma generate_pool_rooms_loop_typed (fuel : nat) (attempts n : Z)
  (self self' : BackroomsGenerator.t) (r r' : Random) :
  BackroomsGenerator._generate_pool_rooms_loop fuel attempts self r
  = Ok (n, self', r') ->
  Forall (fun room => sized room /\ biome_room POOLROOMS room)
         (BackroomsGenerator.rooms self) ->
  Forall (fun room => sized room /\ biome_room POOLROOMS room)
         (BackroomsGenerator.rooms self').
Proof.
  revert attempts self r. induction fuel as [|fuel IH]; intros attempts self r Hrun;
    cbn [BackroomsGenerator._generate_pool_rooms_loop] in Hrun; [discriminate|].
  destruct (_ && _).
  - inv_bind Hrun. destruct v as [room_type r1]. apply choice_elem in E.
    inv_bind Hrun. destruct v as [s1 r2]. intros Hall.
    eapply IH; [exact Hrun|]. eapply place_room_typed; [exact E0| |exact Hall].
    intros room Ht Hs. split; [exact Hs|]. unfold biome_room. rewrite Ht.
    unfold BackroomsGenerator.is_pool_type. by rewrite !bool_decide_eq_true_2.
  - by injection Hrun as <- <- <-.
Qed.

Lemma placement_phase_typed (W H : Z) (level : LevelType) (fuel : nat)
  (r r1 : Random) (s1 : BackroomsGenerator.t) :
  placement_phase fuel (BackroomsGenerator.init W H level) r = Ok (s1, r1) ->
  Forall (fun room => sized room /\ biome_room level room)
         (BackroomsGenerator.rooms s1).
Proof.
  unfold placement_phase. simpl. destruct level; simpl; intros Hrun.
  - unfold BackroomsGenerator._generate_rooms in Hrun. inv_bind Hrun.
    destruct v as [[n s] r2]. injection Hrun as -> ->.
    eapply generate_rooms_loop_typed; [exact E|]. constructor.
  - unfold BackroomsGenerator._generate_pool_rooms in Hrun. inv_bind Hrun.
    destruct v as [[n s] r2]. injection Hrun as -> ->.
    eapply generate_pool_rooms_loop_typed; [exact E|]. constructor.
Qed.

(** X3. Every room of a generated level lies inside the grid with a margin of
    one tile, has a size in the range of its type, and has a type of the
    biome (a pool type exactly in the poolrooms); there are at most 20
    rooms in the standard biome and 15 in the poolrooms. *)
Theorem generated_rooms_well_formed (W H : Z) (level : LevelType) (fuel : nat)
  (r r' : Random) (g : LevelMap) (rooms : list Room.t) :
  BackroomsGenerator.generate fuel (BackroomsGenerator.init W H level) r
  = Ok (g, rooms, r') ->
  Z.of_nat (length rooms) <= target_rooms level
  /\ Forall (fun room =>
               (1 <= Room.x room /\ Room.x room + Room.width room <= W - 1
                /\ 1 <= Room.y room /\ Room.y room + Room.height room <= H - 1)
               /\ sized room /\ biome_room level room) rooms.
Proof.
  intros Hrun.
  destruct (generate_inv _ _ _ _ _ _ _ _ Hrun)
    as (s1 & r1 & s2 & s3 & Hph & Hpl1 & Hr1 & _).
  destruct (placement_phase_inv _ _ _ _ _ _ _ Hph) as (_ & HW & HH & Hlen).
  pose proof (placement_phase_typed _ _ _ _ _ _ _ Hph) as Htyped.
  rewrite Hr1 in Hlen, Htyped. split; [exact Hlen|].
  destruct Hpl1 as [_ Hfit _ _]. rewrite HW, HH, Hr1 in Hfit.
  rewrite Forall_forall in Hfit, Htyped. apply Forall_forall. intros room Hroom.
  destruct (Hfit room Hroom) as (? & ? & ? & ? & _). split; [lia|].
  by apply Htyped.
Qed.

Lemma generated_rooms_well_formed_witness :
  Samples.level_0_run
  = Ok (Examples.level_of Samples.level_0_run,
        Examples.rooms_of Samples.level_0_run,
        Examples.random_of Samples.level_0_run)
  /\ Z.of_nat (length (Examples.rooms_of Samples.level_0_run))
     <= target_rooms LEVEL_0
  /\ Forall (fun room =>
               (1 <= Room.x room /\ Room.x room + Room.width room <= 60 - 1
                /\ 1 <= Room.y room /\ Room.y room + Room.height room <= 40 - 1)
               /\ sized room /\ biome_room LEVEL_0 room)
            (Examples.rooms_of Samples.level_0_run).
Proof.
  assert (Hrun : Samples.level_0_run
                 = Ok (Examples.level_of Samples.level_0_run,
                       Examples.rooms_of Samples.level_0_run,
                       Examples.random_of Samples.level_0_run))
    by (apply returned_parts; vm_compute; reflexivity).
  split; [exact Hrun|].
  exact (generated_rooms_well_formed 60 40 LEVEL_0 2000 Examples.golden_stream
           (Examples.random_of Samples.level_0_run)
           (Examples.level_of Samples.level_0_run)
           (Examples.rooms_of Samples.level_0_run) Hrun).
Defined.

(** ** Generation never raises *)

Lemma for_each_total_in {A S : Type} (Inv : S -> Prop) (l : list A)
  (body : S -> A -> outcome S) (s : S) :
  (forall s a, a ∈ l -> Inv s -> exists s', body s a = Ok s' /\ Inv s') ->
  Inv s -> exists s', for_each l body s = Ok s' /\ Inv s'.
Proof.
  revert s. induction l as [|a l IH]; intros s Hbody Hs; simpl.
  - eauto.
  - destruct (Hbody s a (list_elem_of_here _ _) Hs) as (s1 & -> & Hs1). simpl.
    apply IH; [|exact Hs1].
    intros s2 a2 Ha2. apply Hbody. by apply list_elem_of_further.
Qed.

Lemma phase_state_refl (self0 : BackroomsGenerator.t) :
  placed self0 -> phase_state self0 self0.
Proof. intros Hpl. split; [apply same_plan_refl | apply Hpl]. Qed.

Lemma phase_state_painted (P : cell -> Prop) (tile : TileType)
  (self0 s s' : BackroomsGenerator.t) :
  phase_state self0 s -> painted P tile s s' -> phase_state self0 s'.
Proof.
  intros [Hp Hd] (Hp' & Hd' & _). split; [by eapply same_plan_trans | exact Hd'].
Qed.

Lemma phase_state_repainted (P : cell -> Prop) (self0 s s' : BackroomsGenerator.t) :
  phase_state self0 s -> repainted P s s' -> phase_state self0 s'.
Proof.
  intros [Hp Hd] (Hp' & Hd' & _). split; [by eapply same_plan_trans | exact Hd'].
Qed.

Lemma phase_state_fits (self0 s : BackroomsGenerator.t) (room : Room.t) :
  placed self0 -> phase_state self0 s -> room ∈ BackroomsGenerator.rooms self0 ->
  room_fits (BackroomsGenerator.width s) (BackroomsGenerator.height s) room.
Proof.
  intros [_ Hfit _ _] [(-> & -> & _) _] Hroom.
  rewrite Forall_forall in Hfit. by apply Hfit.
Qed.

Lemma create_corridor_total (self0 s : BackroomsGenerator.t) (room_a room_b : Room.t)
  (r : Random) :
  placed self0 -> phase_state self0 s ->
  room_a ∈ BackroomsGenerator.rooms self0 ->
  room_b ∈ BackroomsGenerator.rooms self0 ->
  exists s' r',
    BackroomsGenerator._create_corridor s (Room.center room_a) (Room.center room_b) r
    = Ok (s', r')
    /\ phase_state self0 s'.
Proof.
  intros Hpl Hs Ha Hb.
  destruct (create_corridor_spec s (Room.center room_a) (Room.center room_b) r)
    as (s' & r' & E & Hp & _).
  - apply Hs.
  - apply center_inside. by eapply phase_state_fits.
  - apply center_inside. by eapply phase_state_fits.
  - exists s', r'. split; [exact E|]. by eapply phase_state_painted.
Qed.

Lemma room_index (self0 s : BackroomsGenerator.t) (i : Z) :
  phase_state self0 s ->
  0 <= i < Z.of_nat (length (BackroomsGenerator.rooms self0)) ->
  exists room, py_index (BackroomsGenerator.rooms s) i = Ok room
               /\ room ∈ BackroomsGenerator.rooms self0.
Proof.
  intros [(_ & _ & _ & Hr) _] Hi. rewrite Hr.
  destruct (py_index_in_range (BackroomsGenerator.rooms self0) i Hi) as (room & E & Hl).
  exists room. split; [exact E|]. apply list_elem_of_lookup. eauto.
Qed.

Lemma connect_loop_total (self0 : BackroomsGenerator.t) (fuel : nat) :
  forall (connected unconnected : list Z) (s : BackroomsGenerator.t) (r : Random),
    placed self0 -> phase_state self0 s ->
    connected <> [] ->
    (forall i, i ∈ connected \/ i ∈ unconnected ->
               0 <= i < Z.of_nat (length (BackroomsGenerator.rooms self0))) ->
    (length unconnected <= fuel)%nat ->
    exists s' r',
      BackroomsGenerator.connect_loop fuel connected unconnected s r = Ok (s', r')
      /\ phase_state self0 s'.
Proof.
  induction fuel as [|fuel IH]; intros connected unconnected s r Hpl Hs Hne Hidx Hlen;
    destruct unconnected as [|u us]; cbn [BackroomsGenerator.connect_loop]; eauto.
  - simpl in Hlen. lia.
  - set (unconnected := u :: us) in *.
    assert (Hune : unconnected <> []) by discriminate. clearbody unconnected.
    destruct (choice_ok connected r Hne) as (ia & -> & Hia).
    cbn [mbind outcome_bind].
    destruct (choice_ok unconnected (next_draw r).2 Hune) as (ib & -> & Hib).
    cbn [mbind outcome_bind].
    destruct (room_index self0 s ia Hs (Hidx ia (or_introl Hia)))
      as (room_a & -> & Ha).
    cbn [mbind outcome_bind].
    destruct (room_index self0 s ib Hs (Hidx ib (or_intror Hib)))
      as (room_b & -> & Hb).
    cbn [mbind outcome_bind].
    destruct (create_corridor_total self0 s room_a room_b
                (next_draw (next_draw r).2).2 Hpl Hs Ha Hb) as (s1 & r1 & -> & Hs1).
    cbn [mbind outcome_bind].
    apply IH; [exact Hpl | exact Hs1 | by destruct connected | |].
    + intros i [Hi | Hi].
      * apply elem_of_app in Hi as [Hi | Hi]; [by apply Hidx; left|].
        apply list_elem_of_singleton in Hi as ->. apply Hidx. by right.
      * apply list_elem_of_filter in Hi as [_ Hi]. apply Hidx. by right.
    + pose proof (length_filter_lt (fun i => i <> ib) unconnected ib Hib) as Hlt.
      simpl in Hlen. cut (length (filter (fun i => i <> ib) unconnected)
                          < length unconnected)%nat; [lia|].
      apply Hlt. tauto.
Qed.

Lemma extra_corridors_total (self0 s : BackroomsGenerator.t) (r : Random) :
  placed self0 -> phase_state self0 s ->
  BackroomsGenerator.rooms self0 <> [] ->
  exists s' r',
    BackroomsGenerator.extra_corridors s r = Ok (s', r') /\ phase_state self0 s'.
Proof.
  intros Hpl Hs Hne. unfold BackroomsGenerator.extra_corridors.
  destruct (for_each_total (fun sr : BackroomsGenerator.t * Random =>
                              phase_state self0 sr.1)
              (py_range 0 (Z.of_nat (length (BackroomsGenerator.rooms s)) / 3))
              (fun '(self, r) _ =>
                 '(room_a, r) ← choice (BackroomsGenerator.rooms self) r;
                 '(room_b, r) ← choice (BackroomsGenerator.rooms self) r;
                 if bool_decide (room_a <> room_b) then
                   BackroomsGenerator._create_corridor self (Room.center room_a)
                     (Room.center room_b) r
                 else Ok (self, r))
              (s, r)) as ([s' r'] & E & Hs'); [|exact Hs|by exists s', r'].
  intros [s1 r1] _ Hs1. cbn [fst] in Hs1.
  assert (Hr : BackroomsGenerator.rooms s1 = BackroomsGenerator.rooms self0)
    by apply Hs1.
  rewrite Hr.
  destruct (choice_ok (BackroomsGenerator.rooms self0) r1 Hne) as (room_a & -> & Ha).
  cbn [mbind outcome_bind].
  destruct (choice_ok (BackroomsGenerator.rooms self0) (next_draw r1).2 Hne)
    as (room_b & -> & Hb).
  cbn [mbind outcome_bind].
  destruct (bool_decide (room_a <> room_b)).
  - destruct (create_corridor_total self0 s1 room_a room_b
                (next_draw (next_draw r1).2).2 Hpl Hs1 Ha Hb) as (s2 & r2 & -> & Hs2).
    by exists (s2, r2).
  - by eexists (s1, _).
Qed.

Lemma connect_rooms_total (self : BackroomsGenerator.t) (r : Random) :
  placed self ->
  exists s' r',
    BackroomsGenerator._connect_rooms self r = Ok (s', r') /\ phase_state self s'.
Proof.
  intros Hpl. unfold BackroomsGenerator._connect_rooms. cbv zeta.
  destruct (_ <? 2) eqn:En.
  - exists self, r. split; [reflexivity|]. by apply phase_state_refl.
  - apply Z.ltb_ge in En.
    destruct (connect_loop_total self (length (BackroomsGenerator.rooms self)) [0]
                (py_range 1 (Z.of_nat (length (BackroomsGenerator.rooms self))))
                self r Hpl (phase_state_refl _ Hpl)) as (s1 & r1 & -> & Hs1).
    + discriminate.
    + intros i [Hi | Hi].
      * apply list_elem_of_singleton in Hi as ->. lia.
      * apply elem_of_py_range in Hi. lia.
    + unfold py_range. rewrite length_seqZ. lia.
    + cbn [mbind outcome_bind]. apply extra_corridors_total; [exact Hpl | exact Hs1|].
      intros Hnil. rewrite Hnil in En. simpl in En. lia.
Qed.

Lemma tile_at_inside (s : BackroomsGenerator.t) (x y : Z) :
  grid_dims (BackroomsGenerator.width s) (BackroomsGenerator.height s)
            (BackroomsGenerator.grid s) ->
  0 <= x < BackroomsGenerator.width s -> 0 <= y < BackroomsGenerator.height s ->
  exists tile, tile_at (BackroomsGenerator.grid s) x y = Ok tile
               /\ cell_tile (BackroomsGenerator.grid s) (x, y) = Some tile.
Proof.
  intros [Hlen Hrows] Hx Hy. unfold tile_at, cell_tile. simpl.
  destruct (py_index_in_range (BackroomsGenerator.grid s) y) as (row & -> & Erow);
    [lia|].
  cbn [mbind outcome_bind].
  assert (Hrow : Z.of_nat (length row) = BackroomsGenerator.width s).
  { rewrite Forall_forall in Hrows. apply Hrows.
    apply list_elem_of_lookup. eauto. }
  destruct (py_index_in_range row x) as (tile & -> & Etile); [lia|].
  exists tile. split; [reflexivity|].
  replace ((0 <=? x) && (0 <=? y)) with true by (symmetry; apply andb_true_iff; lia).
  rewrite Erow. exact Etile.
Qed.

Lemma scatter_total (s : BackroomsGenerator.t) (room : Room.t) (lo hi : Z)
  (tile : TileType) (r : Random) :
  grid_dims (BackroomsGenerator.width s) (BackroomsGenerator.height s)
            (BackroomsGenerator.grid s) ->
  room_fits (BackroomsGenerator.width s) (BackroomsGenerator.height s) room ->
  lo <= hi ->
  exists s' r', BackroomsGenerator.scatter s room lo hi tile r = Ok (s', r').
Proof.
  intros Hd Hfit Hlo. unfold BackroomsGenerator.scatter.
  destruct (randint_ok lo hi r Hlo) as (count & -> & _). cbn [mbind outcome_bind].
  destruct (for_each_total
              (fun sr : BackroomsGenerator.t * Random =>
                 same_plan s sr.1
                 /\ grid_dims (BackroomsGenerator.width sr.1)
                              (BackroomsGenerator.height sr.1)
                              (BackroomsGenerator.grid sr.1))
              (py_range 0 count)
              (fun '(self, r) _ =>
                 '(x, r) ← randint (Room.x room + 1)
                             (Room.x room + Room.width room - 2) r;
                 '(y, r) ← randint (Room.y room + 1)
                             (Room.y room + Room.height room - 2) r;
                 old ← tile_at (BackroomsGenerator.grid self) x y;
                 if bool_decide (old = FLOOR) then
                   self ← BackroomsGenerator.paint self x y tile; Ok (self, r)
                 else Ok (self, r))
              (s, (next_draw r).2)) as ([s' r'] & E & _).
  - intros [s1 r1] _ [Hp1 Hd1]. cbn [fst] in Hp1, Hd1.
    pose proof Hfit as (? & ? & ? & ? & ? & ?).
    destruct (randint_ok (Room.x room + 1) (Room.x room + Room.width room - 2) r1)
      as (x & -> & Hx); [lia|].
    cbn [mbind outcome_bind].
    destruct (randint_ok (Room.y room + 1) (Room.y room + Room.height room - 2)
                (next_draw r1).2) as (y & -> & Hy); [lia|].
    cbn [mbind outcome_bind].
    destruct Hp1 as (Hw1 & Hh1 & Hl1 & Hr1).
    destruct (tile_at_inside s1 x y Hd1) as (old & -> & _); [lia | lia |].
    cbn [mbind outcome_bind].
    destruct (bool_decide (old = FLOOR)).
    + rewrite paint_ok by (auto; lia). cbn [mbind outcome_bind].
      eexists (_, _). split; [reflexivity|]. cbn [fst]. split.
      * repeat split; simpl; auto.
      * simpl. by apply grid_dims_grid_set.
    + eexists (_, _). split; [reflexivity|]. cbn [fst]. split; [|exact Hd1].
      repeat split; auto.
  - split; [apply same_plan_refl | exact Hd].
  - by exists s', r'.
Qed.

Lemma add_features_by_type_total (s : BackroomsGenerator.t) (room : Room.t)
  (r : Random) :
  grid_dims (BackroomsGenerator.width s) (BackroomsGenerator.height s)
            (BackroomsGenerator.grid s) ->
  room_fits (BackroomsGenerator.width s) (BackroomsGenerator.height s) room ->
  exists s' r', BackroomsGenerator._add_features_by_type s room r = Ok (s', r').
Proof.
  intros Hd Hfit. unfold BackroomsGenerator._add_features_by_type.
  destruct (Room.center room) as [cx cy].
  destruct (Room.room_type room); eauto;
    try (apply scatter_total; [exact Hd | exact Hfit | lia]).
  cbv zeta.
  match goal with
  | |- context [for_each ?ys (fun self y => for_each ?xs _ self) s] =>
      destruct (flood_inv s room xs ys Hd Hfit) as (s' & -> & _)
  end.
  cbn [mbind outcome_bind]. eauto.
Qed.

(** A loop over the rooms whose body returns, and overwrites interior cells
    of its room only, returns. *)
Lemma room_loop_total {S : Type} (proj : S -> BackroomsGenerator.t)
  (body : S -> Room.t -> outcome S) (self0 : BackroomsGenerator.t) (s : S) :
  placed self0 -> phase_state self0 (proj s) ->
  (forall s1 room,
     room ∈ BackroomsGenerator.rooms self0 -> phase_state self0 (proj s1) ->
     exists s2, body s1 room = Ok s2
                /\ repainted (in_interior room) (proj s1) (proj s2)) ->
  exists s', for_each (BackroomsGenerator.rooms self0) body s = Ok s'
             /\ phase_state self0 (proj s').
Proof.
  intros Hpl Hs Hbody.
  apply (for_each_total_in (fun s1 => phase_state self0 (proj s1))); [|exact Hs].
  intros s1 room Hroom Hs1. destruct (Hbody s1 room Hroom Hs1) as (s2 & E & Hrep).
  exists s2. split; [exact E|]. by eapply phase_state_repainted.
Qed.

Lemma add_room_features_total (self0 s : BackroomsGenerator.t) (r : Random) :
  placed self0 -> phase_state self0 s ->
  exists s' r',
    BackroomsGenerator._add_room_features s r = Ok (s', r') /\ phase_state self0 s'.
Proof.
  intros Hpl Hs. unfold BackroomsGenerator._add_room_features.
  assert (Hr : BackroomsGenerator.rooms s = BackroomsGenerator.rooms self0)
    by apply Hs.
  rewrite Hr.
  destruct (room_loop_total fst
              (fun '(self, r) room => BackroomsGenerator._add_features_by_type self room r)
              self0 (s, r) Hpl Hs) as ([s' r'] & E & Hs'); [|by exists s', r'].
  intros [s1 r1] room Hroom Hs1. cbn [fst] in *.
  pose proof (phase_state_fits _ _ _ Hpl Hs1 Hroom) as Hfit.
  destruct (add_features_by_type_total s1 room r1 (proj2 Hs1) Hfit) as (s2 & r2 & E).
  exists (s2, r2). split; [exact E|].
  by eapply add_features_by_type_inv; [apply Hs1 | exact Hfit | exact E].
Qed.

Lemma add_pools_total (self0 s : BackroomsGenerator.t) :
  placed self0 -> phase_state self0 s ->
  exists s', BackroomsGenerator._add_pools s = Ok s' /\ phase_state self0 s'.
Proof.
  intros Hpl Hs. unfold BackroomsGenerator._add_pools.
  assert (Hr : BackroomsGenerator.rooms s = BackroomsGenerator.rooms self0)
    by apply Hs.
  rewrite Hr.
  apply (room_loop_total (fun s => s)); [exact Hpl | exact Hs|].
  intros s1 room Hroom Hs1.
  pose proof (phase_state_fits _ _ _ Hpl Hs1 Hroom) as Hfit.
  destruct (bool_decide (Room.room_type room = POOL_AREA)).
  - apply add_pool_inv; [apply Hs1 | exact Hfit].
  - exists s1. split; [reflexivity|]. apply repainted_refl, Hs1.
Qed.

Lemma add_poolrooms_features_total (self0 s : BackroomsGenerator.t) (r : Random) :
  placed self0 -> phase_state self0 s ->
  exists s' r',
    BackroomsGenerator._add_poolrooms_features s r = Ok (s', r')
    /\ phase_state self0 s'.
Proof.
  intros Hpl Hs. unfold BackroomsGenerator._add_poolrooms_features.
  assert (Hr : BackroomsGenerator.rooms s = BackroomsGenerator.rooms self0)
    by apply Hs.
  rewrite Hr.
  destruct (room_loop_total fst
              (fun '(self, r) room =>
                 if bool_decide (Room.room_type room = POOL_CHANGING)
                 then BackroomsGenerator.scatter self room 1 2 EXIT r
                 else Ok (self, r))
              self0 (s, r) Hpl Hs) as ([s' r'] & E & Hs'); [|by exists s', r'].
  intros [s1 r1] room Hroom Hs1. cbn [fst] in *.
  pose proof (phase_state_fits _ _ _ Hpl Hs1 Hroom) as Hfit.
  destruct (bool_decide (Room.room_type room = POOL_CHANGING)).
  - destruct (scatter_total s1 room 1 2 EXIT r1 (proj2 Hs1) Hfit ltac:(lia))
      as (s2 & r2 & E).
    exists (s2, r2). split; [exact E|].
    by eapply scatter_inv; [apply Hs1 | exact Hfit | exact E].
  - exists (s1, r1). split; [reflexivity|]. apply repainted_refl, Hs1.
Qed.

Lemma place_exit_total (s : BackroomsGenerator.t) (corners : list (Z * Z)) :
  grid_dims (BackroomsGenerator.width s) (BackroomsGenerator.height s)
            (BackroomsGenerator.grid s) ->
  exists s', BackroomsGenerator.place_exit s corners = Ok s'
             /\ same_plan s s'
             /\ grid_dims (BackroomsGenerator.width s') (BackroomsGenerator.height s')
                          (BackroomsGenerator.grid s').
Proof.
  intros Hd. induction corners as [|[x y] rest IH];
    cbn [BackroomsGenerator.place_exit].
  - exists s. split; [reflexivity|]. split; [apply same_plan_refl | exact Hd].
  - destruct (BackroomsGenerator.inside s x y) eqn:Ein; [|exact IH].
    apply inside_true in Ein as [Hx Hy].
    destruct (tile_at_inside s x y Hd Hx Hy) as (tile & -> & _).
    cbn [mbind outcome_bind].
    destruct (bool_decide (tile = FLOOR)); [|exact IH].
    rewrite paint_ok by auto. eexists. split; [reflexivity|].
    split; [by repeat split|]. simpl. by apply grid_dims_grid_set.
Qed.

Lemma add_level_exit_total (self0 s : BackroomsGenerator.t) (r : Random) :
  phase_state self0 s ->
  exists s' r',
    BackroomsGenerator._add_level_exit s r = Ok (s', r') /\ phase_state self0 s'.
Proof.
  intros Hs. unfold BackroomsGenerator._add_level_exit.
  destruct (BackroomsGenerator.rooms s) as [|room0 rest] eqn:Er; [by exists s, r|].
  cbv zeta.
  match goal with
  | |- context [choice ?l r] =>
      destruct (choice_ok l r) as (exit_room & -> & _)
  end.
  { destruct (List.filter _ (room0 :: rest)); discriminate. }
  cbn [mbind outcome_bind].
  match goal with
  | |- context [BackroomsGenerator.place_exit s ?cs] =>
      destruct (place_exit_total s cs (proj2 Hs)) as (s' & -> & Hp & Hd)
  end.
  cbn [mbind outcome_bind]. eexists _, _. split; [reflexivity|].
  split; [|exact Hd]. eapply same_plan_trans; [apply Hs | exact Hp].
Qed.

Lemma place_room_first (self self' : BackroomsGenerator.t) (room_type : RoomType)
  (lit_chance : Q) (r r' : Random) :
  BackroomsGenerator.place_room self room_type lit_chance r = Ok (self', r') ->
  BackroomsGenerator.rooms self = [] ->
  BackroomsGenerator.rooms self' <> [].
Proof.
  unfold BackroomsGenerator.place_room. intros Hrun Hnil.
  inv_bind Hrun. destruct v as [[w h] r1].
  inv_bind Hrun. destruct v as [x r2]. inv_bind Hrun. destruct v as [y r3].
  destruct (random r3) as [u r4]. rewrite Hnil in Hrun. cbn [existsb negb] in Hrun.
  inv_bind Hrun. injection Hrun as <- <-.
  apply carve_room_same_plan in E2 as (_ & _ & _ & ->). simpl. discriminate.
Qed.

Lemma prefix_nonempty {A : Type} (l l' : list A) :
  l `prefix_of` l' -> l <> [] -> l' <> [].
Proof. intros [k ->] Hl. by destruct l. Qed.

Lemma generate_rooms_loop_nonempty (fuel : nat) (attempts n : Z)
  (self self' : BackroomsGenerator.t) (r r' : Random) :
  BackroomsGenerator._generate_rooms_loop fuel attempts self r = Ok (n, self', r') ->
  attempts < 150 \/ BackroomsGenerator.rooms self <> [] ->
  BackroomsGenerator.rooms self' <> [].
Proof.
  revert attempts self r. induction fuel as [|fuel IH]; intros attempts self r Hrun;
    cbn [BackroomsGenerator._generate_rooms_loop] in Hrun; [discriminate|].
  destruct (_ && _) eqn:Eg.
  - inv_bind Hrun. destruct v as [room_type r1].
    apply andb_true_iff in Eg as [_ Ea]. apply Z.ltb_lt in Ea.
    destruct (BackroomsGenerator.is_pool_type room_type).
    + intros _. eapply IH; [exact Hrun | by left].
    + inv_bind Hrun. destruct v as [s1 r2]. intros _.
      eapply IH; [exact Hrun|]. right.
      destruct (BackroomsGenerator.rooms self) eqn:Er.
      * by eapply place_room_first.
      * eapply prefix_nonempty; [by eapply place_room_prefix|]. by rewrite Er.
  - injection Hrun as <- <- <-. intros [Ha | Hne]; [|exact Hne].
    apply andb_false_iff in Eg as [Eg | Eg].
    + apply Z.ltb_ge in Eg. intros Hnil. rewrite Hnil in Eg. simpl in Eg. lia.
    + apply Z.ltb_ge in Eg. lia.
Qed.

Lemma generate_pool_rooms_loop_nonempty (fuel : nat) (attempts n : Z)
  (self self' : BackroomsGenerator.t) (r r' : Random) :
  BackroomsGenerator._generate_pool_rooms_loop fuel attempts self r
  = Ok (n, self', r') ->
  attempts < 150 \/ BackroomsGenerator.rooms self <> [] ->
  BackroomsGenerator.rooms self' <> [].
Proof.
  revert attempts self r. induction fuel as [|fuel IH]; intros attempts self r Hrun;
    cbn [BackroomsGenerator._generate_pool_rooms_loop] in Hrun; [discriminate|].
  destruct (_ && _) eqn:Eg.
  - inv_bind Hrun. destruct v as [room_type r1].
    inv_bind Hrun. destruct v as [s1 r2]. intros _.
    eapply IH; [exact Hrun|]. right.
    destruct (BackroomsGenerator.rooms self) eqn:Er.
    + by eapply place_room_first.
    + eapply prefix_nonempty; [by eapply place_room_prefix|]. by rewrite Er.
  - injection Hrun as <- <- <-. intros [Ha | Hne]; [|exact Hne].
    apply andb_false_iff in Eg as [Eg | Eg].
    + apply Z.ltb_ge in Eg. intros Hnil. rewrite Hnil in Eg. simpl in Eg. lia.
    + apply Z.ltb_ge in Eg. lia.
Qed.

Lemma placement_phase_total (W H : Z) (level : LevelType) (r : Random) (k : nat) :
  47 <= W -> 22 <= H ->
  (level = LEVEL_0 -> discards_bounded k r) ->
  exists s1 r1,
    placement_phase (150 * (k + 1) + 1) (BackroomsGenerator.init W H level) r
    = Ok (s1, r1)
    /\ placed s1 /\ BackroomsGenerator.rooms s1 <> [].
Proof.
  intros HW HH Hk.
  assert (Hinit : placed (BackroomsGenerator.init W H level))
    by (apply placed_init; lia).
  unfold placement_phase.
  cbn [BackroomsGenerator.level_type BackroomsGenerator.init].
  destruct level;
    [change (bool_decide (LEVEL_0 = POOLROOMS)) with false
    |change (bool_decide (POOLROOMS = POOLROOMS)) with true]; cbn iota.
  - destruct (generate_rooms_loop_total k 150 (150 * (k + 1) + 1) 0
                (BackroomsGenerator.init W H LEVEL_0) r Hinit)
      as (n & s1 & r1 & E); [simpl; lia | simpl; lia | by apply Hk | lia | lia |].
    unfold BackroomsGenerator._generate_rooms. rewrite E. cbn [mbind outcome_bind].
    exists s1, r1. split; [reflexivity|]. split.
    + destruct (generate_rooms_loop_inv _ _ _ _ _ _ _ (fun _ _ => Hinit)
                  ltac:(simpl; lia) E) as (_ & _ & _ & _ & _ & Hpl).
      apply Hpl; simpl; lia.
    + eapply generate_rooms_loop_nonempty; [exact E | left; lia].
  - destruct (generate_pool_rooms_loop_total 150 (150 * (k + 1) + 1) 0
                (BackroomsGenerator.init W H POOLROOMS) r Hinit)
      as (n & s1 & r1 & E); [simpl; lia | simpl; lia | lia | lia |].
    unfold BackroomsGenerator._generate_pool_rooms. rewrite E.
    cbn [mbind outcome_bind].
    exists s1, r1. split; [reflexivity|]. split.
    + destruct (generate_pool_rooms_loop_inv _ _ _ _ _ _ _ (fun _ _ => Hinit)
                  ltac:(simpl; lia) E) as (_ & _ & _ & _ & _ & Hpl).
      apply Hpl; simpl; lia.
    + eapply generate_pool_rooms_loop_nonempty; [exact E | left; lia].
Qed.

(** X4. On a grid of at least 47 by 22 tiles [generate] raises no exception and
    returns a level with at least one room: in the poolrooms for every
    random source, in the standard biome for every source that does not
    select pool types forever (among any [k + 1] consecutive draws one is
    not a pool type), within [150 * (k + 1)] iterations of the placement
    loop.  The game builds its levels on 288 by 162 tiles. *)
Theorem generate_returns (W H : Z) (level : LevelType) (r : Random) (k : nat) :
  47 <= W -> 22 <= H ->
  (level = LEVEL_0 -> discards_bounded k r) ->
  exists g rooms r',
    BackroomsGenerator.generate (150 * (k + 1) + 1)
      (BackroomsGenerator.init W H level) r = Ok (g, rooms, r')
    /\ rooms <> [].
Proof.
  intros HW HH Hk.
  destruct (placement_phase_total W H level r k HW HH Hk)
    as (s1 & r1 & Hph & Hpl1 & Hne).
  unfold placement_phase in Hph. unfold BackroomsGenerator.generate.
  cbn [BackroomsGenerator.level_type BackroomsGenerator.init] in *.
  destruct (connect_rooms_total s1 r1 Hpl1) as (s2 & r2 & E2 & Hs2).
  destruct level;
    [change (bool_decide (LEVEL_0 = POOLROOMS)) with false in *
    |change (bool_decide (POOLROOMS = POOLROOMS)) with true in *]; cbn iota in *.
  - unfold BackroomsGenerator._generate_level_0. rewrite Hph.
    cbn [mbind outcome_bind]. rewrite E2. cbn [mbind outcome_bind].
    destruct (add_room_features_total s1 s2 r2 Hpl1 Hs2) as (s3 & r3 & -> & Hs3).
    cbn [mbind outcome_bind].
    destruct (add_level_exit_total s1 s3 r3 Hs3) as (s4 & r4 & -> & Hs4).
    cbn [mbind outcome_bind]. eexists _, _, _. split; [reflexivity|].
    destruct Hs4 as [(_ & _ & _ & ->) _]. exact Hne.
  - unfold BackroomsGenerator._generate_poolrooms. rewrite Hph.
    cbn [mbind outcome_bind]. rewrite E2. cbn [mbind outcome_bind].
    destruct (add_pools_total s1 s2 Hpl1 Hs2) as (sa & -> & Hsa).
    cbn [mbind outcome_bind].
    destruct (add_poolrooms_features_total s1 sa r2 Hpl1 Hsa) as (s3 & r3 & -> & Hs3).
    cbn [mbind outcome_bind].
    destruct (add_level_exit_total s1 s3 r3 Hs3) as (s4 & r4 & -> & Hs4).
    cbn [mbind outcome_bind]. eexists _, _, _. split; [reflexivity|].
    destruct Hs4 as [(_ & _ & _ & ->) _]. exact Hne.
Qed.

Lemma generate_returns_witness :
  47 <= 288 /\ 22 <= 162
  /\ exists g rooms r',
       BackroomsGenerator.generate (150 * (0 + 1) + 1)
         (BackroomsGenerator.init 288 162 POOLROOMS) Examples.always_pool
       = Ok (g, rooms, r')
       /\ rooms <> [].
Proof.
  assert (HW : 47 <= 288) by lia.
  assert (HH : 22 <= 162) by lia.
  split; [exact HW|]. split; [exact HH|].
  apply (generate_returns 288 162 POOLROOMS Examples.always_pool 0 HW HH).
  discriminate.
Defined.

(** ** The stages of a generation *)

Lemma regrid_floor (g g' : LevelMap) (c : cell) :
  regrid (eq FLOOR) g g' -> is_floor g c -> is_floor g' c.
Proof.
  intros Hg Hf. unfold is_floor in *.
  destruct (Hg c) as [-> | (tile & -> & <-)]; auto.
Qed.

Lemma place_room_floor (self self' : BackroomsGenerator.t) (room_type : RoomType)
  (lit_chance : Q) (r r' : Random) :
  placed self -> rooms_floor self ->
  BackroomsGenerator.place_room self room_type lit_chance r = Ok (self', r') ->
  rooms_floor self'.
Proof.
  intros Hpl Hfl Hrun. pose proof (place_room_regrid _ _ _ _ _ _ Hrun) as Hg.
  unfold BackroomsGenerator.place_room in Hrun.
  inv_bind Hrun. destruct v as [[w h] r1].
  unfold BackroomsGenerator._get_room_size in E.
  destruct (BackroomsGenerator.size_ranges room_type) as [[[min_w max_w] min_h] max_h]
    eqn:Esz.
  apply size_ranges_bounds in Esz.
  inv_bind E. destruct v as [w' r0]. inv_bind E. destruct v as [h' r0'].
  injection E as <- <- <-.
  apply randint_bounds in E0, E1.
  inv_bind Hrun. destruct v as [x r2]. inv_bind Hrun. destruct v as [y r3].
  apply randint_bounds in E, E2.
  destruct (random r3) as [u r4].
  set (new_room := {| Room.x := x; Room.y := y; Room.width := w';
                      Room.height := h'; Room.room_type := room_type;
                      Room.is_lit := Qlt_bool u lit_chance;
                      Room.connections := [] |}) in *.
  destruct (existsb (Room.overlaps new_room) (BackroomsGenerator.rooms self))
    eqn:Eov; cbn [negb] in Hrun.
  { injection Hrun as <- <-. exact Hfl. }
  destruct Hpl as [Hd Hf Hdis Hb].
  assert (Hfit : room_fits (BackroomsGenerator.width self)
                           (BackroomsGenerator.height self) new_room).
  { unfold room_fits. simpl. lia. }
  set (s1 := BackroomsGenerator.set_rooms self
               (BackroomsGenerator.rooms self ++ [new_room])) in *.
  destruct (carve_room_spec s1 new_room Hd Hfit) as (s2 & Ecarve & Hp & Hfloor).
  rewrite Ecarve in Hrun. cbn [mbind outcome_bind] in Hrun.
  injection Hrun as <- <-.
  pose proof Hp as ((Hw & Hh & Hl & Hr) & Hd2 & _).
  intros room c Hroom Hc. rewrite Hr in Hroom. simpl in Hroom.
  apply elem_of_app in Hroom as [Hroom | Hroom].
  - eapply regrid_floor; [exact Hg|]. by eapply Hfl.
  - apply list_elem_of_singleton in Hroom. subst room. by apply Hfloor.
Qed.

Lemma generate_rooms_loop_floor (fuel : nat) (attempts n : Z)
  (self self' : BackroomsGenerator.t) (r r' : Random) :
  placed_if_roomy self -> rooms_floor self ->
  BackroomsGenerator._generate_rooms_loop fuel attempts self r = Ok (n, self', r') ->
  rooms_floor self'.
Proof.
  revert attempts self r. induction fuel as [|fuel IH];
    intros attempts self r Hpl Hfl Hrun;
    cbn [BackroomsGenerator._generate_rooms_loop] in Hrun; [discriminate|].
  destruct (_ && _).
  - inv_bind Hrun. destruct v as [room_type r1].
    destruct (BackroomsGenerator.is_pool_type room_type); [by eapply IH|].
    inv_bind Hrun. destruct v as [s1 r2].
    destruct (place_room_dims _ _ _ _ _ _ E0) as [HW HH].
    pose proof (Hpl HW HH) as Hpl0.
    eapply IH; [| |exact Hrun].
    + intros _ _. by eapply place_room_inv.
    + by eapply place_room_floor.
  - by injection Hrun as <- <- <-.
Qed.

Lemma generate_pool_rooms_loop_floor (fuel : nat) (attempts n : Z)
  (self self' : BackroomsGenerator.t) (r r' : Random) :
  placed_if_roomy self -> rooms_floor self ->
  BackroomsGenerator._generate_pool_rooms_loop fuel attempts self r
  = Ok (n, self', r') ->
  rooms_floor self'.
Proof.
  revert attempts self r. induction fuel as [|fuel IH];
    intros attempts self r Hpl Hfl Hrun;
    cbn [BackroomsGenerator._generate_pool_rooms_loop] in Hrun; [discriminate|].
  destruct (_ && _).
  - inv_bind Hrun. destruct v as [room_type r1].
    inv_bind Hrun. destruct v as [s1 r2].
    destruct (place_room_dims _ _ _ _ _ _ E0) as [HW HH].
    pose proof (Hpl HW HH) as Hpl0.
    eapply IH; [| |exact Hrun].
    + intros _ _. by eapply place_room_inv.
    + by eapply place_room_floor.
  - by injection Hrun as <- <- <-.
Qed.

Lemma placement_phase_regrid (W H : Z) (level : LevelType) (fuel : nat)
  (r r1 : Random) (s1 : BackroomsGenerator.t) :
  placement_phase fuel (BackroomsGenerator.init W H level) r = Ok (s1, r1) ->
  regrid (eq FLOOR) (BackroomsGenerator.grid (BackroomsGenerator.init W H level))
    (BackroomsGenerator.grid s1).
Proof.
  unfold placement_phase.
  cbn [BackroomsGenerator.level_type BackroomsGenerator.init].
  destruct level;
    [change (bool_decide (LEVEL_0 = POOLROOMS)) with false
    |change (bool_decide (POOLROOMS = POOLROOMS)) with true]; cbn iota;
    intros Hrun.
  - unfold BackroomsGenerator._generate_rooms in Hrun. inv_bind Hrun.
    destruct v as [[n s] r2]. injection Hrun as -> ->.
    by eapply generate_rooms_loop_regrid.
  - unfold BackroomsGenerator._generate_pool_rooms in Hrun. inv_bind Hrun.
    destruct v as [[n s] r2]. injection Hrun as -> ->.
    by eapply generate_pool_rooms_loop_regrid.
Qed.

Lemma placement_phase_floor (W H : Z) (level : LevelType) (fuel : nat)
  (r r1 : Random) (s1 : BackroomsGenerator.t) :
  placement_phase fuel (BackroomsGenerator.init W H level) r = Ok (s1, r1) ->
  rooms_floor s1.
Proof.
  assert (Hinit : placed_if_roomy (BackroomsGenerator.init W H level)).
  { intros HW HH. apply placed_init; simpl in *; lia. }
  unfold placement_phase.
  cbn [BackroomsGenerator.level_type BackroomsGenerator.init].
  destruct level;
    [change (bool_decide (LEVEL_0 = POOLROOMS)) with false
    |change (bool_decide (POOLROOMS = POOLROOMS)) with true]; cbn iota;
    intros Hrun.
  - unfold BackroomsGenerator._generate_rooms in Hrun. inv_bind Hrun.
    destruct v as [[n s] r2]. injection Hrun as -> ->.
    eapply generate_rooms_loop_floor; [exact Hinit | | exact E].
    intros room c Hroom. by apply elem_of_nil in Hroom.
  - unfold BackroomsGenerator._generate_pool_rooms in Hrun. inv_bind Hrun.
    destruct v as [[n s] r2]. injection Hrun as -> ->.
    eapply generate_pool_rooms_loop_floor; [exact Hinit | | exact E].
    intros room c Hroom. by apply elem_of_nil in Hroom.
Qed.

Lemma generate_stages (W H : Z) (level : LevelType) (fuel : nat) (r r' : Random)
  (g : LevelMap) (rooms : list Room.t) :
  BackroomsGenerator.generate fuel (BackroomsGenerator.init W H level) r
  = Ok (g, rooms, r') ->
  exists s1 r1 s2 r2 s3 r3 s4,
    placement_phase fuel (BackroomsGenerator.init W H level) r = Ok (s1, r1)
    /\ BackroomsGenerator._connect_rooms s1 r1 = Ok (s2, r2)
    /\ features_phase level s2 r2 = Ok (s3, r3)
    /\ BackroomsGenerator._add_level_exit s3 r3 = Ok (s4, r')
    /\ BackroomsGenerator.grid s4 = g /\ BackroomsGenerator.rooms s4 = rooms.
Proof.
  unfold BackroomsGenerator.generate, placement_phase, features_phase. intros Hrun.
  inv_bind Hrun. destruct v as [s4 r4]. injection Hrun as <- <- <-.
  cbn [BackroomsGenerator.level_type BackroomsGenerator.init] in *.
  destruct level;
    [change (bool_decide (LEVEL_0 = POOLROOMS)) with false in *
    |change (bool_decide (POOLROOMS = POOLROOMS)) with true in *]; cbn iota in *.
  - unfold BackroomsGenerator._generate_level_0 in E.
    inv_bind E. destruct v as [s1 r1]. inv_bind E. destruct v as [s2 r2].
    inv_bind E. destruct v as [s3 r3].
    exists s1, r1, s2, r2, s3, r3, s4. auto 10.
  - unfold BackroomsGenerator._generate_poolrooms in E.
    inv_bind E. destruct v as [s1 r1]. inv_bind E. destruct v as [s2 r2].
    inv_bind E. rename v into sa. inv_bind E. destruct v as [s3 r3].
    exists s1, r1, s2, r2, s3, r3, s4. rewrite E2. cbn [mbind outcome_bind].
    auto 10.
Qed.

Lemma placed_regrid_floor (s s' : BackroomsGenerator.t) :
  placed s -> phase_state s s' ->
  regrid (eq FLOOR) (BackroomsGenerator.grid s) (BackroomsGenerator.grid s') ->
  placed s'.
Proof.
  intros [Hd Hf Hdis Hb] [(Hw & Hh & Hl & Hr) Hd'] Hg. split.
  - exact Hd'.
  - by rewrite Hw, Hh, Hr.
  - by rewrite Hr.
  - intros room c Hroom Hc. rewrite Hr in Hroom.
    eapply regrid_floor; [exact Hg|]. by eapply Hb.
Qed.

Lemma features_phase_inv (level : LevelType) (s s' : BackroomsGenerator.t)
  (r r' : Random) :
  placed s -> features_phase level s r = Ok (s', r') ->
  repainted (any_interior (BackroomsGenerator.rooms s)) s s'.
Proof.
  intros Hpl. unfold features_phase. destruct level; intros Hrun.
  - by eapply add_room_features_inv.
  - inv_bind Hrun. rename v into sa.
    pose proof (add_pools_inv _ _ Hpl E) as H1.
    pose proof (placed_repainted _ _ Hpl H1) as Hpla.
    pose proof (add_poolrooms_features_inv _ _ _ _ Hpla Hrun) as H2.
    assert (Hr : BackroomsGenerator.rooms sa = BackroomsGenerator.rooms s)
      by apply H1.
    rewrite Hr in H2. by eapply repainted_trans.
Qed.

Lemma stages_placed (W H : Z) (level : LevelType) (fuel : nat)
  (r r1 r2 r3 r4 : Random) (s1 s2 s3 s4 : BackroomsGenerator.t) :
  placement_phase fuel (BackroomsGenerator.init W H level) r = Ok (s1, r1) ->
  BackroomsGenerator._connect_rooms s1 r1 = Ok (s2, r2) ->
  features_phase level s2 r2 = Ok (s3, r3) ->
  BackroomsGenerator._add_level_exit s3 r3 = Ok (s4, r4) ->
  (placed s1 /\ BackroomsGenerator.width s1 = W /\ BackroomsGenerator.height s1 = H)
  /\ (placed s2 /\ same_plan s1 s2)
  /\ (placed s3 /\ same_plan s1 s3
      /\ repainted (any_interior (BackroomsGenerator.rooms s1)) s2 s3)
  /\ (placed s4 /\ same_plan s1 s4
      /\ repainted (any_interior (BackroomsGenerator.rooms s1)) s3 s4).
Proof.
  intros E1 E2 E3 E4.
  destruct (placement_phase_inv _ _ _ _ _ _ _ E1) as (Hpl1 & HW & HH & _).
  split; [split; [exact Hpl1 | split; assumption]|].
  destruct (connect_rooms_total s1 r1 Hpl1) as (s2' & r2' & E2' & Hs2).
  rewrite E2 in E2'. injection E2' as <- <-.
  pose proof (placed_regrid_floor _ _ Hpl1 Hs2 (connect_rooms_regrid _ _ _ _ E2))
    as Hpl2.
  split; [split; [exact Hpl2 | apply Hs2]|].
  assert (Hr2 : BackroomsGenerator.rooms s2 = BackroomsGenerator.rooms s1)
    by apply Hs2.
  pose proof (features_phase_inv _ _ _ _ _ Hpl2 E3) as H3.
  pose proof (placed_repainted _ _ Hpl2 H3) as Hpl3.
  assert (Hp3 : same_plan s1 s3).
  { eapply same_plan_trans; [apply Hs2 | apply H3]. }
  rewrite Hr2 in H3.
  split; [split; [exact Hpl3 | split; [exact Hp3 | exact H3]]|].
  pose proof (add_level_exit_inv _ _ _ _ Hpl3 E4) as H4.
  pose proof (placed_repainted _ _ Hpl3 H4) as Hpl4.
  assert (Hr3 : BackroomsGenerator.rooms s3 = BackroomsGenerator.rooms s1)
    by apply Hp3.
  rewrite Hr3 in H4. split; [exact Hpl4|]. split; [|exact H4].
  eapply same_plan_trans; [exact Hp3 | apply H4].
Qed.

Lemma features_phase_regrid (level : LevelType) (s s' : BackroomsGenerator.t)
  (r r' : Random) :
  features_phase level s r = Ok (s', r') ->
  regrid (fun tile => tile ∈ biome_tiles level /\ tile <> WALL /\ tile <> FLOOR
                      /\ tile <> LEVEL_EXIT)
    (BackroomsGenerator.grid s) (BackroomsGenerator.grid s').
Proof.
  unfold features_phase. destruct level; intros Hrun.
  - apply add_room_features_regrid in Hrun.
    eapply regrid_weaken; [|exact Hrun]. intros tile Ht. simpl.
    rewrite !elem_of_cons in Ht. rewrite !elem_of_cons.
    destruct Ht as [-> | [-> | [-> | [-> | Ht]]]];
      try (by apply elem_of_nil in Ht); repeat split; auto 10; discriminate.
  - inv_bind Hrun. apply add_pools_regrid in E.
    apply add_poolrooms_features_regrid in Hrun.
    eapply regrid_trans; eapply regrid_weaken; [|exact E| |exact Hrun].
    + intros tile Ht. simpl. rewrite !elem_of_cons in Ht. rewrite !elem_of_cons.
      destruct Ht as [-> | [-> | Ht]];
        try (by apply elem_of_nil in Ht); repeat split; auto 10; discriminate.
    + intros tile <-. simpl. rewrite !elem_of_cons.
      repeat split; auto 10; discriminate.
Qed.

(** ** Paths over walkable cells *)

Lemma walk_path_walkable_r (g : LevelMap) (a b : cell) :
  walk_path g a b -> walkable g b.
Proof. by intros [c Hc | a' b' c _ _ Hc]. Qed.

Lemma walk_path_walkable_l (g : LevelMap) (a b : cell) :
  walk_path g a b -> walkable g a.
Proof. induction 1; auto. Qed.

Lemma walk_path_trans (g : LevelMap) (a b c : cell) :
  walk_path g a b -> walk_path g b c -> walk_path g a c.
Proof.
  intros Hab Hbc. revert Hab.
  induction Hbc as [c Hc | b b' c _ IH Hadj Hc]; intros Hab; [exact Hab|].
  apply walk_step with b'; auto.
Qed.

Lemma walk_path_sym (g : LevelMap) (a b : cell) :
  walk_path g a b -> walk_path g b a.
Proof.
  induction 1 as [c Hc | a b c Hab IH Hadj Hc]; [by constructor|].
  apply walk_path_trans with b; [|exact IH].
  eapply walk_step; [by constructor | by apply adjacent_sym |].
  by apply walk_path_walkable_r in Hab.
Qed.

Lemma floor_path_walk (g g' : LevelMap) (a b : cell) :
  (forall c, is_floor g c -> walkable g' c) ->
  floor_path g a b -> walk_path g' a b.
Proof.
  intros Hm. induction 1 as [c Hc | a b c _ IH Hadj Hc].
  - constructor. by apply Hm.
  - apply walk_step with b; auto.
Qed.

Lemma walk_row_east (g : LevelMap) (n : nat) (x y : Z) :
  (forall i, 0 <= i <= Z.of_nat n -> walkable g (x + i, y)) ->
  walk_path g (x, y) (x + Z.of_nat n, y).
Proof.
  induction n as [|n IH]; intros Hrow.
  - rewrite Z.add_0_r. constructor. specialize (Hrow 0 ltac:(lia)).
    by rewrite Z.add_0_r in Hrow.
  - eapply walk_step.
    + apply IH. intros i Hi. apply Hrow. lia.
    + right. simpl. split; [reflexivity|]. right. lia.
    + apply Hrow. lia.
Qed.

Lemma walk_column_south (g : LevelMap) (n : nat) (x y : Z) :
  (forall i, 0 <= i <= Z.of_nat n -> walkable g (x, y + i)) ->
  walk_path g (x, y) (x, y + Z.of_nat n).
Proof.
  induction n as [|n IH]; intros Hcol.
  - rewrite Z.add_0_r. constructor. specialize (Hcol 0 ltac:(lia)).
    by rewrite Z.add_0_r in Hcol.
  - eapply walk_step.
    + apply IH. intros i Hi. apply Hcol. lia.
    + left. simpl. split; [reflexivity|]. right. lia.
    + apply Hcol. lia.
Qed.

Lemma walk_row (g : LevelMap) (xa xb y : Z) :
  (forall x, Z.min xa xb <= x <= Z.max xa xb -> walkable g (x, y)) ->
  walk_path g (xa, y) (xb, y).
Proof.
  intros Hrow. destruct (Z.le_ge_cases xa xb) as [Hle | Hle].
  - replace xb with (xa + Z.of_nat (Z.to_nat (xb - xa))) by lia.
    apply walk_row_east. intros i Hi. apply Hrow. lia.
  - apply walk_path_sym.
    replace xa with (xb + Z.of_nat (Z.to_nat (xa - xb))) by lia.
    apply walk_row_east. intros i Hi. apply Hrow. lia.
Qed.

Lemma walk_column (g : LevelMap) (x ya yb : Z) :
  (forall y, Z.min ya yb <= y <= Z.max ya yb -> walkable g (x, y)) ->
  walk_path g (x, ya) (x, yb).
Proof.
  intros Hcol. destruct (Z.le_ge_cases ya yb) as [Hle | Hle].
  - replace yb with (ya + Z.of_nat (Z.to_nat (yb - ya))) by lia.
    apply walk_column_south. intros i Hi. apply Hcol. lia.
  - apply walk_path_sym.
    replace ya with (yb + Z.of_nat (Z.to_nat (ya - yb))) by lia.
    apply walk_column_south. intros i Hi. apply Hcol. lia.
Qed.

(** Two cells of a rectangle of walkable cells are joined inside it. *)
Lemma walk_in_room (g : LevelMap) (room : Room.t) (a b : cell) :
  (forall c, in_room room c -> walkable g c) ->
  in_room room a -> in_room room b -> walk_path g a b.
Proof.
  intros Hw Ha Hb. destruct a as [ax ay], b as [bx by_].
  destruct Ha as [Hax Hay], Hb as [Hbx Hby]. simpl in *.
  apply walk_path_trans with (bx, ay).
  - apply walk_row. intros x Hx. apply Hw. split; simpl; lia.
  - apply walk_column. intros y Hy. apply Hw. split; simpl; lia.
Qed.

Lemma regrid_walkable (T : TileType -> Prop) (g g' : LevelMap) (c : cell) :
  (forall tile, T tile -> tile <> WALL /\ tile <> POOL_EDGE) ->
  regrid T g g' -> walkable g c -> walkable g' c.
Proof.
  intros HT Hg (tile & Hc & Hw). destruct (Hg c) as [E | (tile' & E & Ht)].
  - exists tile. by rewrite E.
  - exists tile'. split; [exact E|]. by apply HT.
Qed.

Lemma floor_walkable (g : LevelMap) (c : cell) : is_floor g c -> walkable g c.
Proof. intros Hf. exists FLOOR. by repeat split. Qed.

(** In the standard biome every tile that was floor when the corridors were
    done is walkable in the final grid. *)
Lemma level_0_stays_walkable (s2 s3 s4 : BackroomsGenerator.t) (r2 r3 r4 : Random)
  (c : cell) :
  features_phase LEVEL_0 s2 r2 = Ok (s3, r3) ->
  BackroomsGenerator._add_level_exit s3 r3 = Ok (s4, r4) ->
  is_floor (BackroomsGenerator.grid s2) c ->
  walkable (BackroomsGenerator.grid s4) c.
Proof.
  intros E3 E4 Hf. apply floor_walkable in Hf.
  apply features_phase_regrid in E3. apply add_level_exit_regrid in E4.
  eapply regrid_walkable; [|exact E4|].
  { intros tile <-. split; discriminate. }
  eapply regrid_walkable; [|exact E3|exact Hf].
  intros tile (Hin & Hnw & _). simpl in Hin. rewrite !elem_of_cons in Hin.
  destruct Hin as [-> | [-> | [-> | [-> | [-> | [-> | [-> | Hin]]]]]]];
    try (by apply elem_of_nil in Hin); try (by destruct Hnw);
    split; discriminate.
Qed.

(** X5. In the standard biome every tile of every room of a generated level is
    walkable (no feature of this biome blocks movement), and any two tiles
    of any two rooms are joined by a path of 4-adjacent walkable tiles. *)
Theorem level_0_rooms_walkable (W H : Z) (fuel : nat) (r r' : Random)
  (g : LevelMap) (rooms : list Room.t) (room_a room_b : Room.t) (a b : cell) :
  BackroomsGenerator.generate fuel (BackroomsGenerator.init W H LEVEL_0) r
  = Ok (g, rooms, r') ->
  room_a ∈ rooms -> room_b ∈ rooms ->
  in_room room_a a -> in_room room_b b ->
  walk_path g a b.
Proof.
  intros Hrun Hra Hrb Ha Hb.
  destruct (generate_stages _ _ _ _ _ _ _ _ Hrun)
    as (s1 & r1 & s2 & r2 & s3 & r3 & s4 & E1 & E2 & E3 & E4 & <- & Hr4).
  destruct (stages_placed _ _ _ _ _ _ _ _ _ _ _ _ _ E1 E2 E3 E4)
    as ((Hpl1 & _) & (Hpl2 & Hp2) & _ & (_ & Hp4 & _)).
  assert (Hr1 : BackroomsGenerator.rooms s1 = rooms).
  { rewrite <- Hr4. symmetry. apply Hp4. }
  assert (Hfl2 : rooms_floor s2).
  { intros room c Hroom Hc. eapply regrid_floor; [by eapply connect_rooms_regrid|].
    apply (placement_phase_floor _ _ _ _ _ _ _ E1 room c); [|exact Hc].
    destruct Hp2 as (_ & _ & _ & <-). exact Hroom. }
  assert (Hw : forall room c, room ∈ rooms -> in_room room c ->
                              walkable (BackroomsGenerator.grid s4) c).
  { intros room c Hroom Hc. eapply level_0_stays_walkable; [exact E3 | exact E4|].
    apply (Hfl2 room c); [|exact Hc]. destruct Hp2 as (_ & _ & _ & ->).
    by rewrite Hr1. }
  assert (Hcentre : forall room, room ∈ rooms -> in_room room (Room.center room)).
  { intros room Hroom. apply interior_in_room.
    destruct Hpl1 as [_ Hfit _ _]. rewrite Forall_forall in Hfit.
    eapply center_interior, Hfit. by rewrite Hr1. }
  assert (Hne : exists room0, rooms !! O = Some room0).
  { destruct rooms as [|room0 rest]; [by apply elem_of_nil in Hra|]. by exists room0. }
  destruct Hne as (room0 & H0).
  assert (Hlink : forall room, room ∈ rooms ->
            walk_path (BackroomsGenerator.grid s4) (Room.center room0)
              (Room.center room)).
  { intros room Hroom.
    destruct (connect_rooms_inv s1 s2 r1 r2 room0 Hpl1 ltac:(by rewrite Hr1) E2)
      as (_ & Hl).
    destruct (Hl room ltac:(by rewrite Hr1)) as [-> | Hpath].
    - constructor. apply (Hw room0); [|by apply Hcentre];
        apply list_elem_of_lookup; eauto.
    - eapply floor_path_walk; [|exact Hpath].
      intros c Hc. by eapply level_0_stays_walkable. }
  apply walk_path_trans with (Room.center room_a).
  { apply (walk_in_room _ room_a); [intros c; by apply Hw | exact Ha|].
    by apply Hcentre. }
  apply walk_path_trans with (Room.center room0).
  { apply walk_path_sym. by apply Hlink. }
  apply walk_path_trans with (Room.center room_b).
  { by apply Hlink. }
  apply (walk_in_room _ room_b); [intros c; by apply Hw | | exact Hb].
  by apply Hcentre.
Qed.

Lemma level_0_rooms_walkable_witness :
  Samples.level_0_run
  = Ok (Examples.level_of Samples.level_0_run,
        Examples.rooms_of Samples.level_0_run,
        Examples.random_of Samples.level_0_run)
  /\ Examples.office ∈ Examples.rooms_of Samples.level_0_run
  /\ Examples.server_room ∈ Examples.rooms_of Samples.level_0_run
  /\ in_room Examples.office (30, 18) /\ in_room Examples.server_room (35, 31)
  /\ walk_path (Examples.level_of Samples.level_0_run) (30, 18) (35, 31).
Proof.
  assert (Hrun : Samples.level_0_run
                 = Ok (Examples.level_of Samples.level_0_run,
                       Examples.rooms_of Samples.level_0_run,
                       Examples.random_of Samples.level_0_run))
    by (apply returned_parts; vm_compute; reflexivity).
  assert (H0 : Examples.office ∈ Examples.rooms_of Samples.level_0_run).
  { apply list_elem_of_lookup. exists 0%nat. vm_compute. reflexivity. }
  assert (H1 : Examples.server_room ∈ Examples.rooms_of Samples.level_0_run).
  { apply list_elem_of_lookup. exists 1%nat. vm_compute. reflexivity. }
  assert (Ha : in_room Examples.office (30, 18)) by (split; simpl; lia).
  assert (Hb : in_room Examples.server_room (35, 31)) by (split; simpl; lia).
  split; [exact Hrun|]. split; [exact H0|]. split; [exact H1|].
  split; [exact Ha|]. split; [exact Hb|].
  exact (level_0_rooms_walkable 60 40 2000 Examples.golden_stream
           (Examples.random_of Samples.level_0_run)
           (Examples.level_of Samples.level_0_run)
           (Examples.rooms_of Samples.level_0_run)
           Examples.office Examples.server_room (30, 18) (35, 31)
           Hrun H0 H1 Ha Hb).
Defined.

(** ** The level exit *)

Lemma cell_tile_outside (W H : Z) (g : LevelMap) (x y : Z) :
  grid_dims W H g -> ~ (0 <= x < W /\ 0 <= y < H) -> cell_tile g (x, y) = None.
Proof.
  intros [Hlen Hrows] Hout. unfold cell_tile. simpl.
  destruct ((0 <=? x) && (0 <=? y)) eqn:E; [|reflexivity].
  apply andb_true_iff in E as [Ex Ey]. apply Z.leb_le in Ex, Ey.
  destruct (g !! Z.to_nat y) as [row|] eqn:Erow; [|reflexivity].
  cbn [mbind option_bind].
  assert (Hrow : Z.of_nat (length row) = W).
  { rewrite Forall_forall in Hrows. apply Hrows. apply list_elem_of_lookup. eauto. }
  apply lookup_lt_Some in Erow. apply lookup_ge_None. lia.
Qed.

Lemma place_exit_spec (s s' : BackroomsGenerator.t) (corners : list (Z * Z)) :
  grid_dims (BackroomsGenerator.width s) (BackroomsGenerator.height s)
            (BackroomsGenerator.grid s) ->
  BackroomsGenerator.place_exit s corners = Ok s' ->
  (s' = s
   /\ Forall (fun c => cell_tile (BackroomsGenerator.grid s) c <> Some FLOOR) corners)
  \/ exists c0,
       c0 ∈ corners
       /\ cell_tile (BackroomsGenerator.grid s) c0 = Some FLOOR
       /\ forall c,
            cell_tile (BackroomsGenerator.grid s') c
            = if decide (c = c0) then Some LEVEL_EXIT
              else cell_tile (BackroomsGenerator.grid s) c.
Proof.
  intros Hd. induction corners as [|[x y] rest IH];
    cbn [BackroomsGenerator.place_exit]; intros Hrun.
  - injection Hrun as <-. left. by split.
  - destruct (BackroomsGenerator.inside s x y) eqn:Ein.
    + apply inside_true in Ein as [Hx Hy].
      destruct (tile_at_inside s x y Hd Hx Hy) as (tile & Et & Ec).
      rewrite Et in Hrun. cbn [mbind outcome_bind] in Hrun.
      destruct (bool_decide (tile = FLOOR)) eqn:Ef.
      * apply bool_decide_eq_true in Ef as ->.
        rewrite paint_ok in Hrun by auto. injection Hrun as <-.
        right. exists (x, y). split; [apply list_elem_of_here|].
        split; [exact Ec|]. intros c. simpl.
        by eapply cell_tile_grid_set.
      * apply bool_decide_eq_false in Ef.
        destruct (IH Hrun) as [[-> Hall] | (c0 & Hc0 & Hrest)].
        -- left. split; [reflexivity|]. constructor; [|exact Hall]. congruence.
        -- right. exists c0. split; [by apply list_elem_of_further | exact Hrest].
    + assert (Hnone : cell_tile (BackroomsGenerator.grid s) (x, y) = None).
      { eapply cell_tile_outside; [exact Hd|]. intros Hin.
        apply inside_true in Hin. congruence. }
      destruct (IH Hrun) as [[-> Hall] | (c0 & Hc0 & Hrest)].
      * left. split; [reflexivity|]. constructor; [|exact Hall]. congruence.
      * right. exists c0. split; [by apply list_elem_of_further | exact Hrest].
Qed.

Lemma add_level_exit_spec (s s' : BackroomsGenerator.t) (r r' : Random) :
  grid_dims (BackroomsGenerator.width s) (BackroomsGenerator.height s)
            (BackroomsGenerator.grid s) ->
  BackroomsGenerator._add_level_exit s r = Ok (s', r') ->
  BackroomsGenerator.rooms s = [] /\ s' = s
  \/ exists exit_room,
       exit_room ∈ BackroomsGenerator.rooms s
       /\ (64 <= Room.width exit_room * Room.height exit_room
           \/ Forall (fun room => Room.width room * Room.height room < 64)
                     (BackroomsGenerator.rooms s))
       /\ ((s' = s
            /\ Forall (fun c => cell_tile (BackroomsGenerator.grid s) c <> Some FLOOR)
                      (corner_positions exit_room))
           \/ exists c0,
                c0 ∈ corner_positions exit_room
                /\ cell_tile (BackroomsGenerator.grid s) c0 = Some FLOOR
                /\ forall c,
                     cell_tile (BackroomsGenerator.grid s') c
                     = if decide (c = c0) then Some LEVEL_EXIT
                       else cell_tile (BackroomsGenerator.grid s) c).
Proof.
  intros Hd. unfold BackroomsGenerator._add_level_exit.
  destruct (BackroomsGenerator.rooms s) as [|room0 rest] eqn:Er; intros Hrun.
  - injection Hrun as <- <-. by left.
  - right. cbv zeta in Hrun. inv_bind Hrun. destruct v as [exit_room r1].
    inv_bind Hrun. injection Hrun as <- <-. apply choice_elem in E.
    exists exit_room. split; [|split].
    + destruct (List.filter _ (room0 :: rest)) eqn:Efil; [exact E|].
      rewrite <- Efil in E. apply list_elem_of_In, filter_In in E as [E _].
      by apply list_elem_of_In.
    + destruct (List.filter _ (room0 :: rest)) eqn:Efil.
      * right. apply Forall_forall. intros room Hroom.
        destruct (Z_lt_le_dec (Room.width room * Room.height room) 64) as [?|Hge];
          [done|].
        exfalso. assert (Hin : In room []); [|destruct Hin].
        rewrite <- Efil. apply filter_In. split; [by apply list_elem_of_In|].
        by apply Z.leb_le.
      * left. rewrite <- Efil in E. apply list_elem_of_In, filter_In in E as [_ E].
        by apply Z.leb_le.
    + by apply place_exit_spec in E0.
Qed.

(** X6. A generated level holds at most one level exit, and it lies on one of
    the four inner corners of a room of the level: a room of at least 64
    tiles when the level has one. *)
Theorem level_exit_unique (W H : Z) (level : LevelType) (fuel : nat)
  (r r' : Random) (g : LevelMap) (rooms : list Room.t) :
  BackroomsGenerator.generate fuel (BackroomsGenerator.init W H level) r
  = Ok (g, rooms, r') ->
  (forall c1 c2, cell_tile g c1 = Some LEVEL_EXIT ->
                 cell_tile g c2 = Some LEVEL_EXIT -> c1 = c2)
  /\ (forall c, cell_tile g c = Some LEVEL_EXIT ->
        exists exit_room,
          exit_room ∈ rooms /\ c ∈ corner_positions exit_room
          /\ (64 <= Room.width exit_room * Room.height exit_room
              \/ Forall (fun room => Room.width room * Room.height room < 64)
                        rooms)).
Proof.
  intros Hrun.
  destruct (generate_stages _ _ _ _ _ _ _ _ Hrun)
    as (s1 & r1 & s2 & r2 & s3 & r3 & s4 & E1 & E2 & E3 & E4 & <- & Hr4).
  destruct (stages_placed _ _ _ _ _ _ _ _ _ _ _ _ _ E1 E2 E3 E4)
    as (_ & _ & (Hpl3 & Hp3 & _) & (_ & Hp4 & _)).
  assert (Hr3 : BackroomsGenerator.rooms s3 = rooms).
  { rewrite <- Hr4. destruct Hp3 as (_ & _ & _ & ->).
    destruct Hp4 as (_ & _ & _ & ->). reflexivity. }
  assert (Hno : forall c, cell_tile (BackroomsGenerator.grid s3) c <> Some LEVEL_EXIT).
  { intros c Hc.
    destruct (features_phase_regrid _ _ _ _ _ E3 c) as [E | (t & E & _ & _ & _ & Ht)];
      [|congruence].
    rewrite E in Hc.
    destruct (connect_rooms_regrid _ _ _ _ E2 c) as [E' | (t & E' & <-)];
      [|congruence].
    rewrite E' in Hc.
    destruct (placement_phase_regrid _ _ _ _ _ _ _ E1 c) as [E'' | (t & E'' & <-)];
      [|congruence].
    rewrite E'' in Hc. by apply init_cells in Hc. }
  destruct (add_level_exit_spec _ _ _ _ (placed_dims _ Hpl3) E4)
    as [[_ ->] | (exit_room & Hin & Hbig & [[-> _] | (c0 & Hc0 & _ & Hcells)])].
  - split; [intros c1 c2 Hc1; by destruct (Hno c1)|].
    intros c Hc. by destruct (Hno c).
  - split; [intros c1 c2 Hc1; by destruct (Hno c1)|].
    intros c Hc. by destruct (Hno c).
  - assert (Hone : forall c, cell_tile (BackroomsGenerator.grid s4) c = Some LEVEL_EXIT ->
                             c = c0).
    { intros c Hc. rewrite Hcells in Hc. destruct (decide (c = c0)); [done|].
      by destruct (Hno c). }
    split.
    + intros c1 c2 Hc1 Hc2. by rewrite (Hone c1 Hc1), (Hone c2 Hc2).
    + intros c Hc. rewrite (Hone c Hc). exists exit_room. by rewrite <- Hr3.
Qed.

Lemma level_exit_unique_witness :
  Samples.level_0_run
  = Ok (Examples.level_of Samples.level_0_run,
        Examples.rooms_of Samples.level_0_run,
        Examples.random_of Samples.level_0_run)
  /\ cell_tile (Examples.level_of Samples.level_0_run) (33, 27)
     = Some LEVEL_EXIT
  /\ (forall c1 c2,
        cell_tile (Examples.level_of Samples.level_0_run) c1 = Some LEVEL_EXIT ->
        cell_tile (Examples.level_of Samples.level_0_run) c2 = Some LEVEL_EXIT ->
        c1 = c2).
Proof.
  assert (Hrun : Samples.level_0_run
                 = Ok (Examples.level_of Samples.level_0_run,
                       Examples.rooms_of Samples.level_0_run,
                       Examples.random_of Samples.level_0_run))
    by (apply returned_parts; vm_compute; reflexivity).
  split; [exact Hrun|]. split; [vm_compute; reflexivity|].
  exact (proj1 (level_exit_unique 60 40 LEVEL_0 2000 Examples.golden_stream
                  (Examples.random_of Samples.level_0_run)
                  (Examples.level_of Samples.level_0_run)
                  (Examples.rooms_of Samples.level_0_run) Hrun)).
Defined.

(** ** Pools *)

Lemma for_each_ext {A S : Type} (l : list A) (f g : S -> A -> outcome S) (s : S) :
  (forall s a, f s a = g s a) -> for_each l f s = for_each l g s.
Proof.
  intros Hfg. revert s. induction l as [|a l IH]; intros s; simpl; [reflexivity|].
  rewrite Hfg. destruct (g s a); simpl; auto.
Qed.

(** A double loop that paints the cells a test selects: exactly the
    selected cells of the ranges hold the tile afterwards. *)
Lemma paint_where (cond : Z -> Z -> bool) (tile : TileType) (xs ys : list Z)
  (s : BackroomsGenerator.t) :
  grid_dims (BackroomsGenerator.width s) (BackroomsGenerator.height s)
            (BackroomsGenerator.grid s) ->
  (forall x y, x ∈ xs -> y ∈ ys -> cond x y = true ->
     0 <= x < BackroomsGenerator.width s /\ 0 <= y < BackroomsGenerator.height s) ->
  exists s',
    for_each ys
      (fun s y =>
         for_each xs
           (fun s x => if cond x y then BackroomsGenerator.paint s x y tile
                       else Ok s) s) s = Ok s'
    /\ phase_state s s'
    /\ forall c,
         cell_tile (BackroomsGenerator.grid s') c
         = if bool_decide (c.1 ∈ xs /\ c.2 ∈ ys /\ cond c.1 c.2 = true)
           then Some tile else cell_tile (BackroomsGenerator.grid s) c.
Proof.
  intros Hd Hin.
  destruct (paint_loop2 (fun _ x y => cond x y) tile
              (fun c => c.1 ∈ xs /\ c.2 ∈ ys /\ cond c.1 c.2 = true) xs ys s Hd)
    as (s' & E & (Hp & Hd' & Hc) & Ht).
  - reflexivity.
  - intros x y Hx Hy Hcond. destruct (Hin x y Hx Hy Hcond). auto.
  - exists s'. split; [exact E|]. split; [by split|].
    intros [cx cy]. destruct (bool_decide _) eqn:Eb.
    + apply bool_decide_eq_true in Eb as (Hx & Hy & Hcond). by apply Ht.
    + apply bool_decide_eq_false in Eb. destruct (Hc (cx, cy)) as [-> | [HP _]];
        [reflexivity | by destruct Eb].
Qed.

(** The geometry of the pool of a room at least 15 tiles long in one
    direction: [lo] is the room coordinate, [n] its extent. *)
Lemma pool_extent (lo n : Z) :
  15 <= n ->
  let size := Z.max 3 (Z.min (n - 6) (n / 2)) in
  let start := lo + (n - size) / 2 in
  lo + 4 <= start /\ start + size <= lo + n - 4 /\ 7 <= size
  /\ start <= lo + n / 2 < start + size.
Proof.
  intros Hn. cbv zeta.
  pose proof (half_bounds n ltac:(lia)) as [Hh0 Hh].
  replace (Z.min (n - 6) (n / 2)) with (n / 2) by lia.
  replace (Z.max 3 (n / 2)) with (n / 2) by lia.
  pose proof (half_bounds (n - n / 2) ltac:(lia)) as [Hq0 Hq]. lia.
Qed.

Lemma add_pool_closes (s : BackroomsGenerator.t) (room : Room.t) :
  grid_dims (BackroomsGenerator.width s) (BackroomsGenerator.height s)
            (BackroomsGenerator.grid s) ->
  room_fits (BackroomsGenerator.width s) (BackroomsGenerator.height s) room ->
  15 <= Room.width room -> 15 <= Room.height room ->
  exists s',
    BackroomsGenerator.add_pool s room = Ok s'
    /\ (forall c, on_pool_ring room c ->
                  cell_tile (BackroomsGenerator.grid s') c = Some POOL_EDGE)
    /\ (forall c, in_pool room c ->
                  cell_tile (BackroomsGenerator.grid s') c = Some POOL).
Proof.
  intros Hd Hfit Hw Hh.
  pose proof (pool_extent (Room.x room) (Room.width room) Hw) as Hx.
  pose proof (pool_extent (Room.y room) (Room.height room) Hh) as Hy.
  unfold on_pool_ring, in_pool, pool_rect, BackroomsGenerator.add_pool.
  cbv zeta in *.
  set (pool_width := Z.max 3 (Z.min (Room.width room - 6) (Room.width room / 2))) in *.
  set (pool_height :=
         Z.max 3 (Z.min (Room.height room - 6) (Room.height room / 2))) in *.
  set (start_x := Room.x room + (Room.width room - pool_width) / 2) in *.
  set (start_y := Room.y room + (Room.height room - pool_height) / 2) in *.
  clearbody start_x start_y pool_width pool_height.
  destruct Hfit as (Hf1 & Hf2 & Hf3 & Hf4 & _).
  set (edge := fun x y : Z =>
         ((Room.x room + 2 <=? x) && (x <=? Room.x room + Room.width room - 3)
          && (Room.y room + 2 <=? y) && (y <=? Room.y room + Room.height room - 3))
         && ((x =? start_x - 1) || (x =? start_x + pool_width)
             || (y =? start_y - 1) || (y =? start_y + pool_height))
         && negb (((x <=? Room.x room + 2)
                   || (Room.x room + Room.width room - 3 <=? x))
                  || ((y <=? Room.y room + 2)
                      || (Room.y room + Room.height room - 3 <=? y)))).
  set (water := fun x y : Z =>
         (Room.x room + 2 <? x) && (x <? Room.x room + Room.width room - 3)
         && (Room.y room + 2 <? y) && (y <? Room.y room + Room.height room - 3)).
  destruct (paint_where edge POOL_EDGE
              (py_range (start_x - 1) (start_x + pool_width + 1))
              (py_range (start_y - 1) (start_y + pool_height + 1)) s Hd)
    as (s1 & E1 & [Hp1 Hd1] & Hc1).
  { intros x y Hx' Hy' _. apply elem_of_py_range in Hx', Hy'. lia. }
  match goal with
  | |- exists s', for_each ?ys ?body s ≫= _ = _ /\ _ =>
      replace (for_each ys body s) with (Ok s1)
  end.
  2:{ rewrite <- E1. apply for_each_ext. intros s0 y. apply for_each_ext.
      intros s0' x. unfold edge.
      match goal with |- _ = (if ?a then _ else _) => destruct a end;
        [|reflexivity].
      match goal with |- _ = (if ?a then _ else _) => destruct a end;
        reflexivity. }
  cbn [mbind outcome_bind].
  destruct (paint_where water POOL
              (py_range start_x (start_x + pool_width))
              (py_range start_y (start_y + pool_height)) s1 Hd1)
    as (s2 & E2 & _ & Hc2).
  { intros x y Hx' Hy' _. apply elem_of_py_range in Hx', Hy'.
    destruct Hp1 as (-> & -> & _). lia. }
  exists s2. split; [exact E2|]. split.
  - intros [cx cy] (Hbx & Hby & Hout). simpl in *.
    rewrite Hc2, bool_decide_eq_false_2, Hc1, bool_decide_eq_true_2; [reflexivity| |].
    + simpl. rewrite !elem_of_py_range. split; [lia|]. split; [lia|].
      unfold edge. rewrite !andb_true_iff, negb_true_iff, !orb_false_iff,
        !orb_true_iff, !Z.leb_le, !Z.leb_gt, !Z.eqb_eq. lia.
    + simpl. rewrite !elem_of_py_range. intros (Hx1 & Hy1 & _). lia.
  - intros [cx cy] (Hpx & Hpy). simpl in *.
    rewrite Hc2, bool_decide_eq_true_2; [reflexivity|].
    simpl. rewrite !elem_of_py_range. split; [lia|]. split; [lia|].
    unfold water. rewrite !andb_true_iff, !Z.ltb_lt. lia.
Qed.

(** A walkable path that starts inside a pool closed by a ring of pool
    edges stays inside the pool. *)
Lemma ring_encloses (g : LevelMap) (room : Room.t) (a b : cell) :
  (forall c, on_pool_ring room c -> cell_tile g c = Some POOL_EDGE) ->
  in_pool room a -> walk_path g a b -> in_pool room b.
Proof.
  intros Hring Ha Hpath. induction Hpath as [c Hc | a b c _ IH Hadj Hc]; [exact Ha|].
  specialize (IH Ha).
  destruct (decide (in_pool room c)) as [Hin | Hout]; [exact Hin|]. exfalso.
  assert (Hon : on_pool_ring room c).
  { revert IH Hout. unfold on_pool_ring, in_pool.
    destruct (pool_rect room) as [[[sx sy] pw] ph].
    intros [Hbx Hby] Hout. split; [|split; [|exact Hout]];
      destruct Hadj as [[E [E' | E']] | [E [E' | E']]]; lia. }
  destruct Hc as (tile & Hc & _ & Hne). rewrite (Hring c Hon) in Hc. congruence.
Qed.

Lemma pool_cells_interior (room : Room.t) (c : cell) :
  15 <= Room.width room -> 15 <= Room.height room ->
  on_pool_ring room c \/ in_pool room c -> in_interior room c.
Proof.
  intros Hw Hh.
  pose proof (pool_extent (Room.x room) (Room.width room) Hw) as Hx.
  pose proof (pool_extent (Room.y room) (Room.height room) Hh) as Hy.
  unfold on_pool_ring, in_pool, pool_rect, in_interior. cbv zeta in *.
  intros [(? & ? & _) | [? ?]]; lia.
Qed.

Lemma centre_in_pool (room : Room.t) :
  15 <= Room.width room -> 15 <= Room.height room ->
  in_pool room (Room.center room).
Proof.
  intros Hw Hh.
  pose proof (pool_extent (Room.x room) (Room.width room) Hw) as Hx.
  pose proof (pool_extent (Room.y room) (Room.height room) Hh) as Hy.
  unfold in_pool, pool_rect, Room.center. cbv zeta in *. simpl. lia.
Qed.

(** A loop that establishes [Q] at one of its elements and keeps it at the
    others ends with [Q]. *)
Lemma for_each_establish {A S : Type} (Inv Q : S -> Prop) (l : list A)
  (body : S -> A -> outcome S) (a0 : A) (s s' : S) :
  a0 ∈ l ->
  (forall s a s', a ∈ l -> Inv s -> body s a = Ok s' -> Inv s') ->
  (forall s s', Inv s -> body s a0 = Ok s' -> Q s') ->
  (forall s a s', a ∈ l -> Inv s -> Q s -> body s a = Ok s' -> Q s') ->
  Inv s -> for_each l body s = Ok s' -> Q s'.
Proof.
  revert s. induction l as [|a l IH]; intros s Ha0 Hinv Hest Hkeep Hs Hrun.
  - by apply elem_of_nil in Ha0.
  - simpl in Hrun. inv_bind Hrun. rename v into s1.
    assert (Hs1 : Inv s1)
      by (eapply Hinv; [apply list_elem_of_here | exact Hs | exact E]).
    apply elem_of_cons in Ha0 as [-> | Ha0].
    + assert (HQ1 : Q s1) by exact (Hest _ _ Hs E).
      apply (for_each_inv (fun s => Inv s /\ Q s)) in Hrun; [apply Hrun| |by split].
      intros s2 a2 s3 Ha2 [Hi2 Hq2] Hb. split.
      * eapply Hinv; [by apply list_elem_of_further | exact Hi2 | exact Hb].
      * eapply Hkeep; [by apply list_elem_of_further | exact Hi2 | exact Hq2 | exact Hb].
    + apply (IH s1); auto.
      * intros s2 a2 s3 Ha2. apply Hinv. by apply list_elem_of_further.
      * intros s2 a2 s3 Ha2. apply Hkeep. by apply list_elem_of_further.
Qed.

Lemma add_pools_closes (self0 s s' : BackroomsGenerator.t) (room : Room.t) :
  placed self0 -> phase_state self0 s ->
  room ∈ BackroomsGenerator.rooms self0 ->
  Room.room_type room = POOL_AREA ->
  15 <= Room.width room -> 15 <= Room.height room ->
  BackroomsGenerator._add_pools s = Ok s' ->
  phase_state self0 s'
  /\ (forall c, on_pool_ring room c ->
                cell_tile (BackroomsGenerator.grid s') c = Some POOL_EDGE)
  /\ (forall c, in_pool room c ->
                cell_tile (BackroomsGenerator.grid s') c = Some POOL).
Proof.
  intros Hpl Hs Hroom Htype Hw Hh. unfold BackroomsGenerator._add_pools.
  assert (Hr : BackroomsGenerator.rooms s = BackroomsGenerator.rooms self0)
    by apply Hs.
  rewrite Hr. intros Hrun.
  assert (Hstep : forall s1 room' s2,
            room' ∈ BackroomsGenerator.rooms self0 -> phase_state self0 s1 ->
            (if bool_decide (Room.room_type room' = POOL_AREA)
             then BackroomsGenerator.add_pool s1 room' else Ok s1) = Ok s2 ->
            repainted (in_interior room') s1 s2).
  { intros s1 room' s2 Hroom' Hs1 Hb.
    pose proof (phase_state_fits _ _ _ Hpl Hs1 Hroom') as Hfit.
    destruct (bool_decide _).
    - destruct (add_pool_inv s1 room' (proj2 Hs1) Hfit) as (s2' & E & Hrep).
      congruence.
    - injection Hb as <-. apply repainted_refl, Hs1. }
  split.
  { apply (for_each_inv (phase_state self0)) in Hrun; [exact Hrun| |exact Hs].
    intros s1 room' s2 Hroom' Hs1 Hb. eapply phase_state_repainted; [exact Hs1|].
    by eapply Hstep. }
  apply (for_each_establish (phase_state self0)
           (fun s1 =>
              (forall c, on_pool_ring room c ->
                         cell_tile (BackroomsGenerator.grid s1) c = Some POOL_EDGE)
              /\ (forall c, in_pool room c ->
                            cell_tile (BackroomsGenerator.grid s1) c = Some POOL))
           _ _ room s s' Hroom) in Hrun; [exact Hrun | | | | exact Hs].
  - intros s1 room' s2 Hroom' Hs1 Hb. eapply phase_state_repainted; [exact Hs1|].
    by eapply Hstep.
  - intros s1 s2 Hs1 Hb. rewrite bool_decide_eq_true_2 in Hb by exact Htype.
    destruct (add_pool_closes s1 room (proj2 Hs1)
                (phase_state_fits _ _ _ Hpl Hs1 Hroom) Hw Hh) as (s2' & E & HQ).
    rewrite Hb in E. by injection E as <-.
  - intros s1 room' s2 Hroom' Hs1 [Hring Hpool] Hb.
    destruct (decide (room' = room)) as [-> | Hne].
    + rewrite bool_decide_eq_true_2 in Hb by exact Htype.
      destruct (add_pool_closes s1 room (proj2 Hs1)
                  (phase_state_fits _ _ _ Hpl Hs1 Hroom) Hw Hh) as (s2' & E & HQ).
      rewrite Hb in E. by injection E as <-.
    + destruct (Hstep s1 room' s2 Hroom' Hs1 Hb) as (_ & _ & Hc).
      assert (Hsame : forall c, in_interior room c ->
                cell_tile (BackroomsGenerator.grid s2) c
                = cell_tile (BackroomsGenerator.grid s1) c).
      { intros c Hint. destruct (Hc c) as [E | Hint']; [exact E|]. exfalso.
        apply Hne. destruct Hpl as [_ _ Hdis _].
        eapply (same_room _ room' room c Hdis Hroom' Hroom);
          by apply interior_in_room. }
      split; intros c Hcell.
      * rewrite Hsame; [by apply Hring|]. apply pool_cells_interior; auto.
      * rewrite Hsame; [by apply Hpool|]. apply pool_cells_interior; auto.
Qed.

Lemma add_poolrooms_features_frame (self0 s s' : BackroomsGenerator.t)
  (r r' : Random) (room : Room.t) :
  placed self0 -> phase_state self0 s ->
  room ∈ BackroomsGenerator.rooms self0 ->
  Room.room_type room <> POOL_CHANGING ->
  BackroomsGenerator._add_poolrooms_features s r = Ok (s', r') ->
  phase_state self0 s'
  /\ forall c, in_room room c ->
               cell_tile (BackroomsGenerator.grid s') c
               = cell_tile (BackroomsGenerator.grid s) c.
Proof.
  intros Hpl Hs Hroom Htype. unfold BackroomsGenerator._add_poolrooms_features.
  assert (Hr : BackroomsGenerator.rooms s = BackroomsGenerator.rooms self0)
    by apply Hs.
  rewrite Hr. intros Hrun.
  apply (for_each_inv
           (fun sr : BackroomsGenerator.t * Random =>
              phase_state self0 sr.1
              /\ forall c, in_room room c ->
                           cell_tile (BackroomsGenerator.grid sr.1) c
                           = cell_tile (BackroomsGenerator.grid s) c)) in Hrun;
    [exact Hrun | | by split].
  intros [s1 r1] room' [s2 r2] Hroom' [Hs1 Hsame] Hb. cbn [fst] in *.
  destruct (bool_decide (Room.room_type room' = POOL_CHANGING)) eqn:Et.
  - apply bool_decide_eq_true in Et.
    pose proof (phase_state_fits _ _ _ Hpl Hs1 Hroom') as Hfit.
    pose proof (scatter_inv _ _ _ _ _ _ _ _ (proj2 Hs1) Hfit Hb) as Hrep.
    split; [by eapply phase_state_repainted|].
    intros c Hc. rewrite <- (Hsame c Hc).
    destruct Hrep as (_ & _ & Hcells). destruct (Hcells c) as [E | Hint]; [exact E|].
    exfalso. destruct Hpl as [_ _ Hdis _].
    assert (room' = room) as ->; [|congruence].
    eapply (same_room _ room' room c Hdis Hroom' Hroom); [|exact Hc].
    by apply interior_in_room.
  - injection Hb as <- <-. by split.
Qed.

Lemma add_level_exit_frame (s s' : BackroomsGenerator.t) (r r' : Random) (c : cell) :
  grid_dims (BackroomsGenerator.width s) (BackroomsGenerator.height s)
            (BackroomsGenerator.grid s) ->
  BackroomsGenerator._add_level_exit s r = Ok (s', r') ->
  cell_tile (BackroomsGenerator.grid s) c <> Some FLOOR ->
  cell_tile (BackroomsGenerator.grid s') c = cell_tile (BackroomsGenerator.grid s) c.
Proof.
  intros Hd Hrun Hc.
  destruct (add_level_exit_spec _ _ _ _ Hd Hrun)
    as [[_ ->] | (exit_room & _ & _ & [[-> _] | (c0 & _ & Hfloor & Hcells)])];
    try reflexivity.
  rewrite Hcells. destruct (decide (c = c0)) as [-> | _]; [congruence | reflexivity].
Qed.

(** X7. In the poolrooms the pool of a pool-area room at least 15 tiles high is
    closed by an unbroken ring of pool-edge tiles, which [_can_move_to]
    refuses.  The centre of the room lies in the pool, so every path of
    walkable tiles that starts at the centre stays in the pool and never
    reaches the rest of the room; the game puts the player on the centre of
    the first room. *)
Theorem pool_encloses_centre (W H : Z) (fuel : nat) (r r' : Random)
  (g : LevelMap) (rooms : list Room.t) (room : Room.t) :
  BackroomsGenerator.generate fuel (BackroomsGenerator.init W H POOLROOMS) r
  = Ok (g, rooms, r') ->
  room ∈ rooms -> Room.room_type room = POOL_AREA -> 15 <= Room.height room ->
  (forall c, on_pool_ring room c -> cell_tile g c = Some POOL_EDGE)
  /\ (forall c, in_pool room c -> cell_tile g c = Some POOL /\ in_interior room c)
  /\ in_pool room (Room.center room)
  /\ (forall b, walk_path g (Room.center room) b -> in_pool room b).
Proof.
  intros Hrun Hroom Htype Hh.
  destruct (generate_stages _ _ _ _ _ _ _ _ Hrun)
    as (s1 & r1 & s2 & r2 & s3 & r3 & s4 & E1 & E2 & E3 & E4 & <- & Hr4).
  destruct (stages_placed _ _ _ _ _ _ _ _ _ _ _ _ _ E1 E2 E3 E4)
    as ((Hpl1 & _) & (Hpl2 & Hp2) & (Hpl3 & _) & (_ & Hp4 & _)).
  assert (Hr1 : BackroomsGenerator.rooms s1 = rooms).
  { rewrite <- Hr4. symmetry. apply Hp4. }
  assert (Hw : 15 <= Room.width room).
  { pose proof (placement_phase_typed _ _ _ _ _ _ _ E1) as Htyped.
    rewrite Forall_forall in Htyped.
    destruct (Htyped room ltac:(by rewrite Hr1)) as [Hsz _].
    unfold sized in Hsz. rewrite Htype in Hsz. simpl in Hsz. lia. }
  assert (Hroom1 : room ∈ BackroomsGenerator.rooms s1) by (by rewrite Hr1).
  assert (Hs2 : phase_state s1 s2) by (split; [exact Hp2 | apply Hpl2]).
  unfold features_phase in E3. inv_bind E3. rename v into sa.
  destruct (add_pools_closes s1 s2 sa room Hpl1 Hs2 Hroom1 Htype Hw Hh E)
    as (Hsa & Hring & Hpool).
  destruct (add_poolrooms_features_frame s1 sa s3 r2 r3 room Hpl1 Hsa Hroom1
              ltac:(rewrite Htype; discriminate) E3) as (_ & Hframe).
  assert (Hcells : forall c, in_interior room c ->
            cell_tile (BackroomsGenerator.grid sa) c <> Some FLOOR ->
            cell_tile (BackroomsGenerator.grid s4) c
            = cell_tile (BackroomsGenerator.grid sa) c).
  { intros c Hint Hnf. rewrite <- (Hframe c (interior_in_room _ _ Hint)) in *.
    by eapply add_level_exit_frame; [apply Hpl3 | exact E4 |]. }
  assert (Hring4 : forall c, on_pool_ring room c ->
            cell_tile (BackroomsGenerator.grid s4) c = Some POOL_EDGE).
  { intros c Hc. rewrite Hcells; [by apply Hring | |].
    - apply pool_cells_interior; auto.
    - rewrite (Hring c Hc). discriminate. }
  split; [exact Hring4|]. split; [|split].
  - intros c Hc. split; [|apply pool_cells_interior; auto].
    rewrite Hcells; [by apply Hpool | |].
    + apply pool_cells_interior; auto.
    + rewrite (Hpool c Hc). discriminate.
  - by apply centre_in_pool.
  - intros b. apply ring_encloses; [exact Hring4 | by apply centre_in_pool].
Qed.

Lemma pool_encloses_centre_witness :
  Samples.pool_start_run
  = Ok (Examples.level_of Samples.pool_start_run,
        Examples.rooms_of Samples.pool_start_run,
        Examples.random_of Samples.pool_start_run)
  /\ Examples.rooms_of Samples.pool_start_run !! O = Some Samples.tall_pool
  /\ (forall c, on_pool_ring Samples.tall_pool c ->
                cell_tile (Examples.level_of Samples.pool_start_run) c
                = Some POOL_EDGE)
  /\ (forall b,
        walk_path (Examples.level_of Samples.pool_start_run)
          (Room.center Samples.tall_pool) b ->
        in_pool Samples.tall_pool b).
Proof.
  assert (Hrun : Samples.pool_start_run
                 = Ok (Examples.level_of Samples.pool_start_run,
                       Examples.rooms_of Samples.pool_start_run,
                       Examples.random_of Samples.pool_start_run))
    by (apply returned_parts; vm_compute; reflexivity).
  assert (H0 : Examples.rooms_of Samples.pool_start_run !! O
               = Some Samples.tall_pool) by (vm_compute; reflexivity).
  assert (Hin : Samples.tall_pool ∈ Examples.rooms_of Samples.pool_start_run).
  { apply list_elem_of_lookup. by exists 0%nat. }
  assert (Ht : Room.room_type Samples.tall_pool = POOL_AREA) by reflexivity.
  assert (Hh : 15 <= Room.height Samples.tall_pool) by (simpl; lia).
  destruct (pool_encloses_centre 80 60 2000 Samples.pool_stream
              (Examples.random_of Samples.pool_start_run)
              (Examples.level_of Samples.pool_start_run)
              (Examples.rooms_of Samples.pool_start_run)
              Samples.tall_pool Hrun Hin Ht Hh) as (Hring & _ & _ & Hwalk).
  split; [exact Hrun|]. split; [exact H0|]. split; [exact Hring | exact Hwalk].
Defined.

(** ** Carving *)

(** X8. [_carve_room] clips the room at the edges of the grid: it raises no
    exception for any rectangle, turns the tiles of the rectangle that lie
    in the grid into floor and leaves every other tile as it was. *)
Theorem carve_room_clips (s : BackroomsGenerator.t) (room : Room.t) :
  grid_dims (BackroomsGenerator.width s) (BackroomsGenerator.height s)
            (BackroomsGenerator.grid s) ->
  exists s',
    BackroomsGenerator._carve_room s room = Ok s'
    /\ same_plan s s'
    /\ grid_dims (BackroomsGenerator.width s) (BackroomsGenerator.height s)
                 (BackroomsGenerator.grid s')
    /\ forall c,
         cell_tile (BackroomsGenerator.grid s') c
         = if bool_decide (in_room room c /\ 0 <= c.1 < BackroomsGenerator.width s
                           /\ 0 <= c.2 < BackroomsGenerator.height s)
           then Some FLOOR else cell_tile (BackroomsGenerator.grid s) c.
Proof.
  intros Hd. unfold BackroomsGenerator._carve_room.
  destruct (paint_loop2 (fun s x y => BackroomsGenerator.inside s x y) FLOOR
              (fun c => in_room room c /\ 0 <= c.1 < BackroomsGenerator.width s
                        /\ 0 <= c.2 < BackroomsGenerator.height s)
              (py_range (Room.x room) (Room.x room + Room.width room))
              (py_range (Room.y room) (Room.y room + Room.height room))
              s Hd) as (s' & E & (Hp & Hd' & Hc) & Ht).
  - intros s0 x y Hs. by apply inside_same_plan.
  - intros x y Hx Hy Hin. apply elem_of_py_range in Hx, Hy.
    apply inside_true in Hin. split; [tauto|]. split; [tauto|].
    split; [by split|]. simpl. tauto.
  - exists s'. split; [exact E|]. split; [exact Hp|]. split.
    + destruct Hp as (<- & <- & _). exact Hd'.
    + intros [cx cy]. destruct (bool_decide _) eqn:Eb.
      * apply bool_decide_eq_true in Eb as ([Hx Hy] & Hgx & Hgy). simpl in *.
        apply Ht; [by apply elem_of_py_range | by apply elem_of_py_range|].
        by apply inside_true.
      * apply bool_decide_eq_false in Eb.
        destruct (Hc (cx, cy)) as [-> | [HP _]]; [reflexivity | by destruct Eb].
Qed.

Lemma carve_room_clips_witness :
  exists s',
    BackroomsGenerator._carve_room Samples.small_grid Samples.overhanging_room
    = Ok s'
    /\ cell_tile (BackroomsGenerator.grid s') (5, 3) = Some FLOOR
    /\ cell_tile (BackroomsGenerator.grid s') (3, 3) = Some WALL
    /\ cell_tile (BackroomsGenerator.grid s') (6, 3) = None.
Proof.
  destruct (carve_room_clips Samples.small_grid Samples.overhanging_room)
    as (s' & E & _ & _ & Hc).
  - apply (placed_init 6 4 LEVEL_0); lia.
  - exists s'. split; [exact E|]. rewrite !Hc. repeat split.
Defined.

Lemma carve_row_exact (s : BackroomsGenerator.t) (xa xb y : Z) :
  grid_dims (BackroomsGenerator.width s) (BackroomsGenerator.height s)
            (BackroomsGenerator.grid s) ->
  exists s',
    BackroomsGenerator.carve_row s xa xb y = Ok s'
    /\ painted (fun c => c.2 = y /\ Z.min xa xb <= c.1 <= Z.max xa xb) FLOOR s s'
    /\ forall x, Z.min xa xb <= x <= Z.max xa xb ->
                 BackroomsGenerator.inside s x y = true ->
                 is_floor (BackroomsGenerator.grid s') (x, y).
Proof.
  intros Hd. unfold BackroomsGenerator.carve_row.
  destruct (paint_loop (fun s x => BackroomsGenerator.inside s x y)
              (fun x => x) (fun _ => y) FLOOR
              (fun c => c.2 = y /\ Z.min xa xb <= c.1 <= Z.max xa xb)
              (py_range (Z.min xa xb) (Z.max xa xb + 1)) s Hd)
    as (s' & E & Hp & Ht).
  - intros s0 x Hs. by apply inside_same_plan.
  - intros x Hx Hin. apply elem_of_py_range in Hx. apply inside_true in Hin.
    split; [tauto|]. split; [tauto|]. simpl. split; [reflexivity | lia].
  - exists s'. split; [exact E|]. split; [exact Hp|].
    intros x Hx Hin. apply Ht; [|exact Hin]. apply elem_of_py_range. lia.
Qed.

Lemma carve_column_exact (s : BackroomsGenerator.t) (x ya yb : Z) :
  grid_dims (BackroomsGenerator.width s) (BackroomsGenerator.height s)
            (BackroomsGenerator.grid s) ->
  exists s',
    BackroomsGenerator.carve_column s x ya yb = Ok s'
    /\ painted (fun c => c.1 = x /\ Z.min ya yb <= c.2 <= Z.max ya yb) FLOOR s s'
    /\ forall y, Z.min ya yb <= y <= Z.max ya yb ->
                 BackroomsGenerator.inside s x y = true ->
                 is_floor (BackroomsGenerator.grid s') (x, y).
Proof.
  intros Hd. unfold BackroomsGenerator.carve_column.
  destruct (paint_loop (fun s y => BackroomsGenerator.inside s x y)
              (fun _ => x) (fun y => y) FLOOR
              (fun c => c.1 = x /\ Z.min ya yb <= c.2 <= Z.max ya yb)
              (py_range (Z.min ya yb) (Z.max ya yb + 1)) s Hd)
    as (s' & E & Hp & Ht).
  - intros s0 y Hs. by apply inside_same_plan.
  - intros y Hy Hin. apply elem_of_py_range in Hy. apply inside_true in Hin.
    split; [tauto|]. split; [tauto|]. simpl. split; [reflexivity | lia].
  - exists s'. split; [exact E|]. split; [exact Hp|].
    intros y Hy Hin. apply Ht; [|exact Hin]. apply elem_of_py_range. lia.
Qed.

(** X9. [_create_corridor] raises no exception, consumes one draw of the random
    source and only turns tiles of one of the two L-shaped paths between
    its end points into floor; when both end points lie in the grid they
    are joined by floor tiles afterwards. *)
Theorem corridor_joins_endpoints (s : BackroomsGenerator.t) (start finish : cell)
  (r : Random) :
  grid_dims (BackroomsGenerator.width s) (BackroomsGenerator.height s)
            (BackroomsGenerator.grid s) ->
  exists s' horizontal_first,
    BackroomsGenerator._create_corridor s start finish r
    = Ok (s', {| draws := draws r; cursor := S (cursor r) |})
    /\ same_plan s s'
    /\ (forall c,
          cell_tile (BackroomsGenerator.grid s') c
          = cell_tile (BackroomsGenerator.grid s) c
          \/ (on_elbow start finish horizontal_first c
              /\ cell_tile (BackroomsGenerator.grid s') c = Some FLOOR))
    /\ (BackroomsGenerator.inside s start.1 start.2 = true ->
        BackroomsGenerator.inside s finish.1 finish.2 = true ->
        floor_path (BackroomsGenerator.grid s') start finish).
Proof.
  intros Hd. destruct start as [x1 y1], finish as [x2 y2].
  unfold BackroomsGenerator._create_corridor.
  destruct (choice_ok [true; false] r ltac:(discriminate)) as (hf & -> & _).
  cbn [mbind outcome_bind next_draw snd]. destruct hf.
  - destruct (carve_row_exact s x1 x2 y1 Hd) as (s1 & -> & Hp1 & Hf1).
    cbn [mbind outcome_bind].
    destruct (carve_column_exact s1 x2 y1 y2 (painted_dims _ _ _ _ Hp1))
      as (s2 & -> & Hp2 & Hf2).
    cbn [mbind outcome_bind]. exists s2, true. split; [reflexivity|].
    split; [eapply same_plan_trans; [apply Hp1 | apply Hp2]|]. split.
    + intros c. destruct Hp2 as (_ & _ & Hc2). destruct Hp1 as (_ & _ & Hc1).
      destruct (Hc2 c) as [E2 | [[HP2 HP2'] E2]].
      * rewrite E2. destruct (Hc1 c) as [E1 | [[HP1 HP1'] E1]]; [by left|].
        right. split; [|exact E1]. unfold on_elbow. simpl. split; [lia | by left].
      * right. split; [|exact E2]. unfold on_elbow. simpl. split; [lia | by right].
    + simpl. intros Hin1 Hin2. apply floor_path_trans with (x2, y1).
      * apply floor_row. intros x Hx.
        eapply painted_floor_mono; [exact Hp2|]. apply Hf1; [lia|].
        apply inside_true. apply inside_true in Hin1, Hin2. lia.
      * apply floor_column. intros y Hy. apply Hf2; [lia|].
        rewrite (inside_same_plan s s1) by apply Hp1.
        apply inside_true. apply inside_true in Hin1, Hin2. lia.
  - destruct (carve_column_exact s x1 y1 y2 Hd) as (s1 & -> & Hp1 & Hf1).
    cbn [mbind outcome_bind].
    destruct (carve_row_exact s1 x1 x2 y2 (painted_dims _ _ _ _ Hp1))
      as (s2 & -> & Hp2 & Hf2).
    cbn [mbind outcome_bind]. exists s2, false. split; [reflexivity|].
    split; [eapply same_plan_trans; [apply Hp1 | apply Hp2]|]. split.
    + intros c. destruct Hp2 as (_ & _ & Hc2). destruct Hp1 as (_ & _ & Hc1).
      destruct (Hc2 c) as [E2 | [[HP2 HP2'] E2]].
      * rewrite E2. destruct (Hc1 c) as [E1 | [[HP1 HP1'] E1]]; [by left|].
        right. split; [|exact E1]. unfold on_elbow. simpl. split; [lia | by left].
      * right. split; [|exact E2]. unfold on_elbow. simpl. split; [lia | by right].
    + simpl. intros Hin1 Hin2. apply floor_path_trans with (x1, y2).
      * apply floor_column. intros y Hy.
        eapply painted_floor_mono; [exact Hp2|]. apply Hf1; [lia|].
        apply inside_true. apply inside_true in Hin1, Hin2. lia.
      * apply floor_row. intros x Hx. apply Hf2; [lia|].
        rewrite (inside_same_plan s s1) by apply Hp1.
        apply inside_true. apply inside_true in Hin1, Hin2. lia.
Qed.

Lemma corridor_joins_endpoints_witness :
  exists s',
    BackroomsGenerator._create_corridor Samples.small_grid (1, 1) (4, 2)
      Examples.zero_stream
    = Ok (s', {| draws := draws Examples.zero_stream;
                 cursor := S (cursor Examples.zero_stream) |})
    /\ floor_path (BackroomsGenerator.grid s') (1, 1) (4, 2).
Proof.
  destruct (corridor_joins_endpoints Samples.small_grid (1, 1) (4, 2)
              Examples.zero_stream) as (s' & hf & E & _ & _ & Hpath).
  - apply (placed_init 6 4 LEVEL_0); lia.
  - exists s'. split; [exact E|]. apply Hpath; reflexivity.
Defined.
